(** * python_x509_pkcs11: the PKCS#11 session handle, the root CA request
      builder and the OCSP builders, embedded and verified.

    The development follows the layout of the repository:
    - [Sha1]      hashlib.sha1, as used for key identifiers and name hashes;
    - [Pkcs11]    the token as python-pkcs11 presents it (objects, get_key,
                  generate_keypair, destroy, sign, verify);
    - [Handle]    src/python_x509_pkcs11/pkcs11_handle.py (class PKCS11Session);
    - [RootCa]    src/python_x509_pkcs11/root_ca.py;
    - [Ocsp]      the OCSP builders and extractor;
    - [Probe], [Certificates], [KeyPairs], [Construct]
                  the health probe, the certificate and key pair methods
                  and the constructor of PKCS11Session, run by run. *)

From Stdlib Require Import ZArith Lia Bool.
From Stdlib Require Import Strings.Ascii Strings.String Strings.Byte.
From stdpp Require Import base decidable option list strings gmap.

Local Open Scope Z_scope.

(** Python's [bytes]. *)
Definition bytes : Type := list byte.
#[global] Typeclasses Transparent bytes.

#[global] Instance byte_eq_dec : EqDecision byte := Byte.byte_eq_dec.
#[global] Instance bytes_eq_dec : EqDecision bytes := _.

Definition Z_of_byte (b : byte) : Z := Z.of_N (Byte.to_N b).

Definition byte_of_Z (z : Z) : byte :=
  match Byte.of_N (Z.to_N (z mod 256)) with
  | Some b => b
  | None => x00
  end.

(** [s.encode("utf-8")] for the ASCII strings the code handles. *)
Definition encode (s : string) : bytes := String.list_byte_of_string s.

(* ================================================================== *)
(** * hashlib.sha1 *)
(* ================================================================== *)

Module Sha1.

Definition w32 (x : Z) : Z := Z.land x 4294967295.

Definition rotl (n x : Z) : Z :=
  w32 (Z.lor (Z.shiftl x n) (Z.shiftr (w32 x) (32 - n))).

Definition add32 (x y : Z) : Z := w32 (x + y).

(** Big-endian bytes of a 32-bit word. *)
Definition be32 (x : Z) : bytes :=
  [ byte_of_Z (Z.shiftr x 24); byte_of_Z (Z.shiftr x 16);
    byte_of_Z (Z.shiftr x 8); byte_of_Z x ].

(** Big-endian bytes of the 64-bit message length. *)
Definition be64 (x : Z) : bytes := be32 (Z.shiftr x 32) ++ be32 (w32 x).

Definition word_of (b3 b2 b1 b0 : byte) : Z :=
  Z.lor (Z.shiftl (Z_of_byte b3) 24)
    (Z.lor (Z.shiftl (Z_of_byte b2) 16)
       (Z.lor (Z.shiftl (Z_of_byte b1) 8) (Z_of_byte b0))).

Fixpoint words (bs : bytes) : list Z :=
  match bs with
  | b3 :: b2 :: b1 :: b0 :: rest => word_of b3 b2 b1 b0 :: words rest
  | _ => []
  end.

(** Padding: a one bit, zeros up to 56 mod 64, the bit length. *)
Definition pad (msg : bytes) : bytes :=
  let n := Z.of_nat (length msg) in
  let k := Z.to_nat ((55 - n) mod 64) in
  msg ++ [x80] ++ replicate k x00 ++ be64 (8 * n).

(** The message schedule: [w] holds the words so far, newest first. *)
Fixpoint schedule (n : nat) (w : list Z) : list Z :=
  match n with
  | O => w
  | S n' =>
      let x := Z.lxor (Z.lxor (nth 2 w 0) (nth 7 w 0))
                      (Z.lxor (nth 13 w 0) (nth 15 w 0)) in
      schedule n' (rotl 1 x :: w)
  end.

Definition state : Type := Z * Z * Z * Z * Z.

Definition f (t : nat) (b c d : Z) : Z :=
  if (t <? 20)%nat then Z.lor (Z.land b c) (Z.land (w32 (Z.lnot b)) d)
  else if (t <? 40)%nat then Z.lxor (Z.lxor b c) d
  else if (t <? 60)%nat then
    Z.lor (Z.lor (Z.land b c) (Z.land b d)) (Z.land c d)
  else Z.lxor (Z.lxor b c) d.

Definition K (t : nat) : Z :=
  if (t <? 20)%nat then 1518500249
  else if (t <? 40)%nat then 1859775393
  else if (t <? 60)%nat then 2400959708
  else 3395469782.

Definition round (st : state) (tw : nat * Z) : state :=
  let '(a, b, c, d, e) := st in
  let '(t, w) := tw in
  let tmp := add32 (add32 (add32 (add32 (rotl 5 a) (f t b c d)) e) (K t)) w in
  (tmp, a, rotl 30 b, c, d).

Definition index {A} (l : list A) : list (nat * A) := zip (seq 0 (length l)) l.

Definition compress (h : state) (block : list Z) : state :=
  let w := rev (schedule 64 (rev block)) in
  let '(a, b, c, d, e) := fold_left round (index w) h in
  let '(h0, h1, h2, h3, h4) := h in
  (add32 h0 a, add32 h1 b, add32 h2 c, add32 h3 d, add32 h4 e).

Fixpoint blocks (fuel : nat) (ws : list Z) : list (list Z) :=
  match fuel, ws with
  | S fuel', _ :: _ => take 16 ws :: blocks fuel' (drop 16 ws)
  | _, _ => []
  end.

Definition init : state :=
  (1732584193, 4023233417, 2562383102, 271733878, 3285377520).

Definition digest_of (h : state) : bytes :=
  let '(h0, h1, h2, h3, h4) := h in
  be32 h0 ++ be32 h1 ++ be32 h2 ++ be32 h3 ++ be32 h4.

(** [hashlib.sha1(msg).digest()] *)
Definition sha1 (msg : bytes) : bytes :=
  let ws := words (pad msg) in
  digest_of (fold_left compress (blocks (length ws) ws) init).

Lemma digest_of_length h : length (digest_of h) = 20%nat.
Proof. destruct h as [[[[h0 h1] h2] h3] h4]. reflexivity. Qed.

Lemma sha1_length msg : length (sha1 msg) = 20%nat.
Proof. apply digest_of_length. Qed.

(** FIPS 180 test vector: SHA-1("abc"). *)
Example sha1_abc :
  sha1 (encode "abc") =
  [ xa9; x99; x3e; x36; x47; x06; x81; x6a; xba; x3e;
    x25; x71; x78; x50; xc2; x6c; x9c; xd0; xd8; x9d ].
Proof. vm_compute. reflexivity. Qed.

(** The empty message, and a message that needs two blocks. *)
Example sha1_empty :
  sha1 [] =
  [ xda; x39; xa3; xee; x5e; x6b; x4b; x0d; x32; x55;
    xbf; xef; x95; x60; x18; x90; xaf; xd8; x07; x09 ].
Proof. vm_compute. reflexivity. Qed.

Example sha1_two_blocks :
  sha1 (encode "abcdbcdecdefdefgefghfghighijhijkijkljklmklmnlmnomnopnopq") =
  [ x84; x98; x3e; x44; x1c; x3b; xd2; x6e; xba; xae;
    x4a; xa1; xf9; x51; x29; xe5; xe5; x46; x70; xf1 ].
Proof. vm_compute. reflexivity. Qed.

End Sha1.

(* ================================================================== *)
(** * Exceptions and outcomes *)
(* ================================================================== *)

(** The exception classes the code raises or catches.  The four PKCS#11
    ones are siblings under [pkcs11.exceptions.PKCS11Error]; none is a
    subclass of another, so an [except] clause matches by equality. *)
Inductive Exception : Type :=
| NoSuchKey
| MultipleObjectsReturned
| GeneralError
| SignatureInvalid
| NoSuchToken
| PinIncorrect
| PKCS11UnknownErrorException (msg : string)
| DuplicateExtensionException
| ValueError (msg : string)
| KeyError (key : string)
| IndexError
| ClientResponseError.

#[global] Instance Exception_eq_dec : EqDecision Exception.
Proof. solve_decision. Defined.

(** What a call has produced when it is observed: a value, an exception,
    or nothing yet ([Pending]: the call has not come back, because it is
    blocked or because the observer's patience ran out first). *)
Inductive Outcome (A : Type) : Type :=
| Return (a : A)
| Raise (e : Exception)
| Pending.
Arguments Return {A} a.
Arguments Raise {A} e.
Arguments Pending {A}.

(* ================================================================== *)
(** * The token, as python-pkcs11 presents it *)
(* ================================================================== *)

Module Pkcs11.

Inductive KeyType : Type := RSA | EC | EC_EDWARDS.
Inductive ObjectClass : Type := PUBLIC_KEY | PRIVATE_KEY | CERTIFICATE.
Inductive Mechanism : Type :=
| EDDSA | ECDSA | SHA256_RSA_PKCS | SHA512_RSA_PKCS.

#[global] Instance KeyType_eq_dec : EqDecision KeyType.
Proof. solve_decision. Defined.
#[global] Instance ObjectClass_eq_dec : EqDecision ObjectClass.
Proof. solve_decision. Defined.
#[global] Instance Mechanism_eq_dec : EqDecision Mechanism.
Proof. solve_decision. Defined.

(** An object stored on the token, with the attributes the code reads
    or searches by.  [handle] is the object handle the token gave it. *)
Record Object : Type := {
  handle : nat;
  CLASS : ObjectClass;
  KEY_TYPE : option KeyType;
  LABEL : string;
  key_length : Z;
  EC_PARAMS : bytes;
  VALUE : bytes
}.

#[global] Instance Object_eq_dec : EqDecision Object.
Proof. solve_decision. Defined.

(** How the token answers one call: after [latency] time units, and
    with CKR_GENERAL_ERROR instead of the result when [fault] is set. *)
Record Response : Type := { latency : nat; fault : bool }.

Record Token : Type := {
  token_label : string;
  user_pin : string;
  objects : list Object;
  next_handle : nat;
  sessions : nat                      (* sessions opened so far *)
}.

Definition with_objects (os : list Object) (next : nat) (t : Token) : Token :=
  {| token_label := token_label t; user_pin := user_pin t;
     objects := os; next_handle := next; sessions := sessions t |}.

(** [lib.get_token(token_label=)] *)
Definition get_token (label : string) (t : Token) : Outcome unit :=
  if bool_decide (label = token_label t) then Return tt else Raise NoSuchToken.

(** [token.open(rw=True, user_pin=)]: a new session, named by its number. *)
Definition open (pin : string) (t : Token) : Outcome nat * Token :=
  if bool_decide (pin = user_pin t) then
    (Return (sessions t),
     {| token_label := token_label t; user_pin := user_pin t;
        objects := objects t; next_handle := next_handle t;
        sessions := S (sessions t) |})
  else (Raise PinIncorrect, t).

(** A search template, [session.get_objects({...})]: every attribute
    that is given must be equal. *)
Record Template : Type := {
  t_class : option ObjectClass;
  t_key_type : option KeyType;
  t_label : option string;
  t_ec_params : option bytes
}.

Definition agrees {A} `{EqDecision A} (want : option A) (have : A) : bool :=
  match want with
  | Some a => bool_decide (a = have)
  | None => true
  end.

Definition matches (tpl : Template) (o : Object) : bool :=
  agrees (t_class tpl) (CLASS o)
  && match t_key_type tpl with
     | Some kt => bool_decide (KEY_TYPE o = Some kt)
     | None => true
     end
  && agrees (t_label tpl) (LABEL o)
  && agrees (t_ec_params tpl) (EC_PARAMS o).

Definition get_objects (tpl : Template) (t : Token) : list Object :=
  List.filter (matches tpl) (objects t).

Definition key_template (kt : KeyType) (cls : ObjectClass) (label : string)
  : Template :=
  {| t_class := Some cls; t_key_type := Some kt; t_label := Some label;
     t_ec_params := None |}.

(** [session.get_key(key_type=, object_class=, label=)]: the one object
    that matches; none is [NoSuchKey], more than one is
    [MultipleObjectsReturned]. *)
Definition get_key (kt : KeyType) (cls : ObjectClass) (label : string)
    (t : Token) : Outcome Object :=
  match get_objects (key_template kt cls label) t with
  | [] => Raise NoSuchKey
  | [o] => Return o
  | _ :: _ :: _ => Raise MultipleObjectsReturned
  end.

(** [obj.destroy()] *)
Definition destroy (o : Object) (t : Token) : Token :=
  with_objects
    (List.filter (fun o' => negb (bool_decide (handle o' = handle o))) (objects t))
    (next_handle t) t.

(** [session.create_object(attrs)]: the token stores the object under
    a handle of its own choosing. *)
Definition create_object (o : Object) (t : Token) : Token :=
  with_objects
    (objects t ++
     [ {| handle := next_handle t; CLASS := CLASS o; KEY_TYPE := KEY_TYPE o;
          LABEL := LABEL o; key_length := key_length o;
          EC_PARAMS := EC_PARAMS o; VALUE := VALUE o |} ])
    (S (next_handle t)) t.

(** [generate_keypair(..., store=True, label=)]: a public and a private
    object under the same label.  [material] is the key the token drew:
    the encoded public key and the private value. *)
Definition generate_keypair (kt : KeyType) (bits : Z) (params : bytes)
    (label : string) (material : bytes * bytes) (t : Token)
  : (Object * Object) * Token :=
  let pub := {| handle := next_handle t; CLASS := PUBLIC_KEY;
                KEY_TYPE := Some kt; LABEL := label; key_length := bits;
                EC_PARAMS := params; VALUE := fst material |} in
  let priv := {| handle := S (next_handle t); CLASS := PRIVATE_KEY;
                 KEY_TYPE := Some kt; LABEL := label; key_length := bits;
                 EC_PARAMS := params; VALUE := snd material |} in
  ((pub, priv),
   with_objects (objects t ++ [pub; priv]) (S (S (next_handle t))) t).

End Pkcs11.

(* ================================================================== *)
(** * pkcs11_handle.py *)
(* ================================================================== *)

Module Handle.
Import Pkcs11.

(** ** Key types

    The enumeration [KEYTYPES] is declared in lib.py; its seven members
    and their string values are the ones pkcs11_handle.py names
    ("rsa_2048" and "rsa_4096" in [key_labels], the curve names passed
    to [encode_named_curve_parameters], "ed25519" as the default). *)
Inductive KEYTYPES : Type :=
| RSA2048 | RSA4096 | ED25519 | ED448 | SECP256r1 | SECP384r1 | SECP521r1.

#[global] Instance KEYTYPES_eq_dec : EqDecision KEYTYPES.
Proof. solve_decision. Defined.

Definition value (key_type : KEYTYPES) : string :=
  match key_type with
  | RSA2048 => "rsa_2048"
  | RSA4096 => "rsa_4096"
  | ED25519 => "ed25519"
  | ED448 => "ed448"
  | SECP256r1 => "secp256r1"
  | SECP384r1 => "secp384r1"
  | SECP521r1 => "secp521r1"
  end.

(** [key_type in [a, b, ...]] *)
Definition is_in (key_type : KEYTYPES) (l : list KEYTYPES) : bool :=
  bool_decide (key_type ∈ l).

Definition TIMEOUT : nat := 10.

Definition SENTINEL : string := "test_pkcs11_device_do_not_use".

(** ** What an observer can see of a run *)
Inductive Event : Type :=
| EvAcquire                         (* lock.acquire() returned *)
| EvRelease                         (* lock.release() *)
| EvHealthy                         (* healthy_session() entered *)
| EvThread (force : bool)           (* Thread(target=_open_session).start() *)
| EvLib                             (* lib(module), lib.reinitialize() *)
| EvGetToken                        (* lib.get_token(token_label=) *)
| EvOpen                            (* token.open(rw=True, user_pin=) *)
| EvGetKey (kt : KeyType) (cls : ObjectClass) (label : string)
| EvGetObjects (tpl : Template)
| EvGenerate (kt : KeyType) (label : string)
| EvCreateObject (cls : ObjectClass) (label : string)
| EvDestroy (h : nat)
| EvSign (h : nat) (mech : Mechanism) (data : bytes)
| EvVerify (h : nat) (mech : Mechanism) (data signature : bytes)
| EvHttp (url : string).

(** Events that are calls into the token. *)
Definition touches_token (e : Event) : bool :=
  match e with
  | EvAcquire | EvRelease | EvHealthy | EvThread _ | EvHttp _ => false
  | _ => true
  end.

Definition is_lock_event (e : Event) : bool :=
  match e with
  | EvAcquire | EvRelease => true
  | _ => false
  end.

(** ** The object and its surroundings *)

(** The attributes of the [PKCS11Session] instance. *)
Record PKCS11Session : Type := {
  lock : bool;                          (* self.lock is held *)
  base_url : option string;
  support_recreate_session : bool;
  session : option nat;                 (* None until a session is open *)
  _session_status : Z
}.

(** The instance together with what it runs against: the token and
    how it will answer the coming calls, the process environment, the
    clock, and the log of events so far.  [deadline] is set while a
    joined thread runs: the instant at which the joiner stops waiting. *)
Record World : Type := {
  self : PKCS11Session;
  token : Token;
  script : list Response;
  environ : gmap string string;
  clock : nat;
  deadline : option nat;
  trace : list Event
}.

Definition set_self (f : PKCS11Session -> PKCS11Session) (w : World) : World :=
  {| self := f (self w); token := token w; script := script w;
     environ := environ w; clock := clock w; deadline := deadline w;
     trace := trace w |}.
Definition set_token (t : Token) (w : World) : World :=
  {| self := self w; token := t; script := script w;
     environ := environ w; clock := clock w; deadline := deadline w;
     trace := trace w |}.
Definition set_script (sc : list Response) (w : World) : World :=
  {| self := self w; token := token w; script := sc;
     environ := environ w; clock := clock w; deadline := deadline w;
     trace := trace w |}.
Definition set_clock (c : nat) (w : World) : World :=
  {| self := self w; token := token w; script := script w;
     environ := environ w; clock := c; deadline := deadline w;
     trace := trace w |}.
Definition set_deadline (d : option nat) (w : World) : World :=
  {| self := self w; token := token w; script := script w;
     environ := environ w; clock := clock w; deadline := d;
     trace := trace w |}.
Definition log (e : Event) (w : World) : World :=
  {| self := self w; token := token w; script := script w;
     environ := environ w; clock := clock w; deadline := deadline w;
     trace := trace w ++ [e] |}.

Definition with_lock (b : bool) (p : PKCS11Session) : PKCS11Session :=
  {| lock := b; base_url := base_url p;
     support_recreate_session := support_recreate_session p;
     session := session p; _session_status := _session_status p |}.
Definition with_session (h : option nat) (p : PKCS11Session) : PKCS11Session :=
  {| lock := lock p; base_url := base_url p;
     support_recreate_session := support_recreate_session p;
     session := h; _session_status := _session_status p |}.
Definition with_status (st : Z) (p : PKCS11Session) : PKCS11Session :=
  {| lock := lock p; base_url := base_url p;
     support_recreate_session := support_recreate_session p;
     session := session p; _session_status := st |}.

(** ** The monad of methods: state, exceptions, and calls that have
    not come back *)
Definition M (A : Type) : Type := World -> Outcome A * World.

#[global] Instance M_ret : MRet M := fun A a w => (Return a, w).
#[global] Instance M_bind : MBind M := fun A B k m w =>
  match m w with
  | (Return a, w') => k a w'
  | (Raise e, w') => (Raise e, w')
  | (Pending, w') => (Pending, w')
  end.

Definition raise {A} (e : Exception) : M A := fun w => (Raise e, w).
Definition ask : M World := fun w => (Return w, w).
Definition modify (f : World -> World) : M unit := fun w => (Return tt, f w).
Definition emit (e : Event) : M unit := modify (log e).

(** [try: body except: handler] *)
Definition try_except {A} (body : M A) (handler : Exception -> M A) : M A :=
  fun w =>
    match body w with
    | (Raise e, w') => handler e w'
    | r => r
    end.

(** [try: body finally: final].  The final block runs whether the body
    returned or raised; an exception of its own replaces the body's. *)
Definition try_finally {A} (body : M A) (final : M unit) : M A :=
  fun w =>
    match body w with
    | (Pending, w') => (Pending, w')
    | (r, w') =>
        match final w' with
        | (Return _, w'') => (r, w'')
        | (Raise e, w'') => (Raise e, w'')
        | (Pending, w'') => (Pending, w'')
        end
    end.

(** Time passes.  Under a deadline that falls first, the observer
    stops waiting there and sees the call as still running. *)
Definition wait (d : nat) : M unit :=
  fun w =>
    match deadline w with
    | Some t =>
        if (t <? clock w + d)%nat then (Pending, set_clock (Nat.max (clock w) t) w)
        else (Return tt, set_clock (clock w + d) w)
    | None => (Return tt, set_clock (clock w + d) w)
    end.

Definition next_response : M Response :=
  fun w =>
    match script w with
    | [] => (Return {| latency := 0; fault := false |}, w)
    | r :: rest => (Return r, set_script rest w)
    end.

(** One call into the token: logged when issued, answered after the
    token's latency, failed with [GeneralError] if the token faults. *)
Definition call {A} (e : Event) (op : Token -> Outcome A * Token) : M A :=
  emit e ;;
  r ← next_response ;
  wait (latency r) ;;
  if fault r then raise GeneralError
  else fun w => let '(o, t) := op (token w) in (o, set_token t w).

(** ** [async_lock]: the lock is taken before the body and released in
    a [finally].  [threading.Lock] is not reentrant: a held lock makes
    the caller wait. *)
Definition acquire : M unit :=
  fun w =>
    if lock (self w) then (Pending, w)
    else (Return tt, log EvAcquire (set_self (with_lock true) w)).

Definition release : M unit :=
  fun w => (Return tt, log EvRelease (set_self (with_lock false) w)).

Definition async_lock {A} (body : M A) : M A :=
  acquire ;; try_finally body release.

(** [thread.start(); thread.join(timeout); thread.is_alive()].  The
    target runs against the shared world until it ends or the joiner's
    patience runs out; an exception that escapes the target ends the
    thread.  What an abandoned thread does after the joiner has left
    is not followed. *)
Definition start_join_is_alive (target : M unit) (timeout : nat) : M bool :=
  fun w =>
    match target (set_deadline (Some (clock w + timeout)%nat) w) with
    | (Pending, w') => (Return true, set_deadline (deadline w) w')
    | (_, w') => (Return false, set_deadline (deadline w) w')
    end.

(** ** What the module imports *)

(** [asn1crypto.keys.PublicKeyInfo]: the algorithm with its parameters,
    and the contents of the [public_key] bit string. *)
Record PublicKeyInfo : Type := {
  algorithm : string;
  parameters : bytes;
  public_key : bytes
}.

(** Functions and tables the module imports and this development does
    not define: lib.py and crypto.py of this package (not among the
    sources), hashlib, asn1crypto's encoders, aiohttp, and the
    cryptography the token performs. *)
Class Externals : Type := {
  (* lib.py *)
  KEY_TYPE_VALUES : KEYTYPES -> KeyType;
  (* crypto.py *)
  convert_rs_ec_signature : bytes -> string -> bytes;
  convert_asn1_ec_signature : bytes -> string -> Exception + bytes;
  (* hashlib *)
  sha256 : bytes -> bytes;
  sha384 : bytes -> bytes;
  sha512 : bytes -> bytes;
  (* asn1crypto.pem, asn1crypto.keys *)
  armor : string -> bytes -> bytes;
  detect : bytes -> bool;
  unarmor : bytes -> bytes;
  dump : PublicKeyInfo -> bytes;
  (* pkcs11.util *)
  encode_named_curve_parameters : string -> bytes;
  decode_key : KeyType -> ObjectClass -> bytes -> Object;
  decode_x509_certificate : bytes -> Object;
  (* the token's own cryptography *)
  C_GenerateKeyPair : KeyType -> Z -> bytes -> nat -> bytes * bytes;
  C_Sign : Object -> Mechanism -> bytes -> bytes;
  C_Verify : Object -> Mechanism -> bytes -> bytes -> bool;
  (* aiohttp: session.post(url=base_url + endpoint, ...) and the
     reading of its JSON answer *)
  post : forall A : Type, string -> M A
}.

Section Methods.
Context `{Externals}.

(** [bytes.decode("utf-8")] *)
Definition decode (b : bytes) : string := String.string_of_list_byte b.

(** [os.environ[key]] *)
Definition getenv (key : string) : M string :=
  w ← ask ;
  match environ w !! key with
  | Some v => mret v
  | None => raise (KeyError key)
  end.

(** *** Calls on [self.session] and on the keys it hands out *)
Definition session_get_key (kt : KeyType) (cls : ObjectClass)
    (label : string) : M Object :=
  call (EvGetKey kt cls label) (fun t => (get_key kt cls label t, t)).

Definition session_get_objects (tpl : Template) : M (list Object) :=
  call (EvGetObjects tpl) (fun t => (Return (get_objects tpl t), t)).

Definition session_generate_keypair (kt : KeyType) (bits : Z)
    (params : bytes) (label : string) : M (Object * Object) :=
  call (EvGenerate kt label)
    (fun t =>
       let '(keys, t') :=
         generate_keypair kt bits params label
           (C_GenerateKeyPair kt bits params (next_handle t)) t in
       (Return keys, t')).

Definition session_create_object (o : Object) : M unit :=
  call (EvCreateObject (CLASS o) (LABEL o))
    (fun t => (Return tt, create_object o t)).

Definition object_destroy (o : Object) : M unit :=
  call (EvDestroy (handle o)) (fun t => (Return tt, destroy o t)).

Definition key_sign (key : Object) (data : bytes) (mechanism : Mechanism)
  : M bytes :=
  call (EvSign (handle key) mechanism data)
    (fun t => (Return (C_Sign key mechanism data), t)).

Definition key_verify (key : Object) (data signature : bytes)
    (mechanism : Mechanism) : M bool :=
  call (EvVerify (handle key) mechanism data signature)
    (fun t => (Return (C_Verify key mechanism data signature), t)).

(** The other end, when [base_url] is set. *)
Definition remote {A} (endpoint : string) : M A :=
  emit (EvHttp endpoint) ;; post A endpoint.

(** *** [_get_pub_key] *)
Definition _get_pub_key (key_label : string) (key_type : KEYTYPES) : M Object :=
  session_get_key (KEY_TYPE_VALUES key_type) PUBLIC_KEY key_label.

(** *** [_public_key_data]

    [encode_rsa_public_key], [encode_eddsa_public_key] and
    [encode_ec_public_key] encode the public key the object holds;
    [RSAPublicKey.load] and [PublicKeyInfo.load] read that encoding
    back.  The object's [VALUE] stands for the encoded key (the
    RSAPublicKey structure, or the curve point), so the round trip
    through DER leaves a [PublicKeyInfo] whose [public_key] is it. *)
Definition encode_rsa_public_key (key_pub : Object) : bytes := VALUE key_pub.

Definition load_eddsa_public_key (name : string) (key_pub : Object)
  : PublicKeyInfo :=
  {| algorithm := name; parameters := []; public_key := VALUE key_pub |}.

Definition load_ec_public_key (key_pub : Object) : PublicKeyInfo :=
  {| algorithm := "ec"; parameters := EC_PARAMS key_pub;
     public_key := VALUE key_pub |}.

(** [pki.sha1] of asn1crypto: the SHA-1 of the bytes of the
    [public_key] field. *)
Definition pki_sha1 (pki : PublicKeyInfo) : bytes :=
  Sha1.sha1 (public_key pki).

Definition _public_key_data (key_pub : Object) (key_type : KEYTYPES)
  : string * bytes :=
  let pki :=
    if is_in key_type [RSA2048; RSA4096] then
      {| algorithm := "rsa"; parameters := [];
         public_key := encode_rsa_public_key key_pub |}
    else if is_in key_type [ED25519; ED448] then
      load_eddsa_public_key (value key_type) key_pub
    else
      load_ec_public_key key_pub in
  let key_pub_pem := armor "PUBLIC KEY" (dump pki) in
  (decode key_pub_pem, pki_sha1 pki).

(** *** [_open_session] *)
Definition set_status (st : Z) : M unit := modify (set_self (with_status st)).

Definition generate_sentinel : M unit :=
  try_except
    ( _ ← session_generate_keypair RSA 512 [] SENTINEL ;
      set_status 0 )
    (fun e => match e with
              | GeneralError => mret tt
              | _ => raise e
              end).

Definition _open_session (force simulate_pkcs11_timeout : bool) : M unit :=
  (if simulate_pkcs11_timeout then wait (TIMEOUT + 1) else mret tt) ;;
  set_status 9 ;;
  try_except
    ( w ← ask ;
      (if force || bool_decide (session (self w) = None) then
         (* Reload the PKCS11 lib *)
         _ ← getenv "PKCS11_MODULE" ;
         call EvLib (fun t => (Return tt, t)) ;;
         (* Open the PKCS11 session *)
         label ← getenv "PKCS11_TOKEN" ;
         call EvGetToken (fun t => (get_token label t, t)) ;;
         pin ← getenv "PKCS11_PIN" ;
         h ← call EvOpen (open pin) ;
         modify (set_self (with_session (Some h)))
       else mret tt) ;;
      (* Test get a public key from the PKCS11 device *)
      _ ← session_get_key RSA PUBLIC_KEY SENTINEL ;
      set_status 0 )
    (fun e => match e with
              | NoSuchKey => generate_sentinel
              | GeneralError => mret tt
              | _ => raise e
              end).

(** *** [healthy_session] *)
Definition unhealthy (alive : bool) (w : World) : bool :=
  alive || negb (_session_status (self w) =? 0).

Definition healthy_session (simulate_pkcs11_timeout : bool) : M unit :=
  emit EvHealthy ;;
  w ← ask ;
  if negb (support_recreate_session (self w)) then mret tt
  else
    emit (EvThread false) ;;
    alive ← start_join_is_alive
              (_open_session false simulate_pkcs11_timeout) TIMEOUT ;
    w ← ask ;
    if unhealthy alive w then
      emit (EvThread true) ;;
      alive2 ← start_join_is_alive
                 (_open_session true simulate_pkcs11_timeout) TIMEOUT ;
      w ← ask ;
      if unhealthy alive2 w then
        raise (PKCS11UnknownErrorException
                 "ERROR: Could not get a healthy PKCS11 connection in time")
      else mret tt
    else mret tt.

(** *** [get_session] *)
Definition get_session : M (option nat) :=
  async_lock
    ( healthy_session false ;;
      w ← ask ;
      mret (session (self w)) ).

(** *** Certificates *)
Definition certificate_template (cert_label : string) : Template :=
  {| t_class := Some CERTIFICATE; t_key_type := None;
     t_label := Some cert_label; t_ec_params := None |}.

Definition with_label (label : string) (o : Object) : Object :=
  {| handle := handle o; CLASS := CLASS o; KEY_TYPE := KEY_TYPE o;
     LABEL := label; key_length := key_length o;
     EC_PARAMS := EC_PARAMS o; VALUE := VALUE o |}.

Fixpoint for_each {A} (l : list A) (body : A -> M unit) : M unit :=
  match l with
  | [] => mret tt
  | x :: rest => body x ;; for_each rest body
  end.

Definition import_certificate (cert_pem cert_label : string) : M unit :=
  w ← ask ;
  if base_url (self w) is Some _ then remote "/import_certificate"
  else
    async_lock
      ( healthy_session false ;;
        certs ← session_get_objects (certificate_template cert_label) ;
        match certs with
        | _ :: _ =>
            raise (ValueError
              "Certificate with that label already exists in the PKCS11 device")
        | [] =>
            let data := encode cert_pem in
            let data := if detect data then unarmor data else data in
            let cert := decode_x509_certificate data in
            session_create_object (with_label cert_label cert)
        end ).

Definition export_certificate (cert_label : string) : M string :=
  w ← ask ;
  if base_url (self w) is Some _ then remote "/export_certificate"
  else
    async_lock
      ( healthy_session false ;;
        certs ← session_get_objects (certificate_template cert_label) ;
        match certs with
        | cert :: _ =>
            let der_bytes := VALUE cert in
            (* Certificate.load(der_bytes).dump() gives back the
               bytes it loaded *)
            mret (decode (armor "CERTIFICATE" der_bytes))
        | [] => raise (ValueError "No such certificate in the PKCS11 device")
        end ).

Definition delete_certificate (cert_label : string) : M unit :=
  w ← ask ;
  if base_url (self w) is Some _ then remote "/delete_certificate"
  else
    async_lock
      ( healthy_session false ;;
        certs ← session_get_objects (certificate_template cert_label) ;
        for_each certs object_destroy ).

(** *** Key pairs *)

(** The [pkcs11.KeyType] the code names when it decodes or generates
    a key of each type. *)
Definition family (key_type : KEYTYPES) : KeyType :=
  if is_in key_type [RSA2048; RSA4096] then RSA
  else if is_in key_type [ED25519; ED448] then EC_EDWARDS
  else EC.

(** [try: key_pub = self._get_pub_key(...); raise MultipleObjectsReturned] *)
Definition must_be_absent (key_label : string) (key_type : KEYTYPES) : M Object :=
  _ ← _get_pub_key key_label key_type ;
  raise MultipleObjectsReturned.

Definition import_keypair (public_key private_key : bytes)
    (key_label : string) (key_type : KEYTYPES) : M unit :=
  w ← ask ;
  if base_url (self w) is Some _ then remote "/import_keypair"
  else
    async_lock
      ( healthy_session false ;;
        try_except
          ( _ ← must_be_absent key_label key_type ; mret tt )
          (fun e => match e with
                    | NoSuchKey => mret tt
                    | _ => raise e
                    end) ;;
        let key_pub := decode_key (family key_type) PUBLIC_KEY public_key in
        let key_priv := decode_key (family key_type) PRIVATE_KEY private_key in
        session_create_object (with_label key_label key_pub) ;;
        session_create_object (with_label key_label key_priv) ).

(** [int(key_type.value.split("_")[1])] *)
Fixpoint after_underscore (s : string) : string :=
  match s with
  | EmptyString => EmptyString
  | String c rest =>
      if Ascii.eqb c "_"%char then rest else after_underscore rest
  end.

Fixpoint int (s : string) (acc : Z) : Z :=
  match s with
  | EmptyString => acc
  | String c rest => int rest (10 * acc + (Z.of_nat (Ascii.nat_of_ascii c) - 48))
  end.

Definition modulus_bits (key_type : KEYTYPES) : Z :=
  int (after_underscore (value key_type)) 0.

(** [SignedDigestAlgorithmId(name).dotted] for the two Edwards curves. *)
Definition dotted (name : string) : string :=
  if bool_decide (name = "ed25519") then "1.3.101.112"
  else if bool_decide (name = "ed448") then "1.3.101.113"
  else name.

Definition generate (key_label : string) (key_type : KEYTYPES) : M Object :=
  (* Generate the rsa keypair *)
  if is_in key_type [RSA2048; RSA4096] then
    '(key_pub, _) ← session_generate_keypair RSA (modulus_bits key_type)
                       [] key_label ;
    mret key_pub
  else if is_in key_type [ED25519; ED448] then
    let parameters :=
      encode_named_curve_parameters (dotted (value key_type)) in
    '(key_pub, _) ← session_generate_keypair EC_EDWARDS 0 parameters key_label ;
    mret key_pub
  else
    let parameters := encode_named_curve_parameters (value key_type) in
    '(key_pub, _) ← session_generate_keypair EC 0 parameters key_label ;
    mret key_pub.

Definition create_keypair (key_label : string) (key_type : KEYTYPES)
  : M (string * bytes) :=
  w ← ask ;
  if base_url (self w) is Some _ then remote "/create_keypair"
  else
    async_lock
      ( healthy_session false ;;
        (* Try to get the key, if not exist then create it *)
        key_pub ← try_except
                    (must_be_absent key_label key_type)
                    (fun e => match e with
                              | NoSuchKey => generate key_label key_type
                              | _ => raise e
                              end) ;
        mret (_public_key_data key_pub key_type) ).

Definition public_key_template (kt : KeyType) (params : option bytes)
  : Template :=
  {| t_class := Some PUBLIC_KEY; t_key_type := Some kt;
     t_label := None; t_ec_params := params |}.

Definition label_all (objs : list Object) (name : Object -> string)
    (key_labels : gmap string string) : gmap string string :=
  foldl (fun d obj => <[LABEL obj := name obj]> d) key_labels objs.

Definition key_labels : M (gmap string string) :=
  w ← ask ;
  if base_url (self w) is Some _ then remote "/key_labels"
  else
    async_lock
      ( healthy_session false ;;
        let key_labels : gmap string string := ∅ in
        (* For rsa *)
        objs ← session_get_objects
                 (public_key_template (KEY_TYPE_VALUES RSA2048) None) ;
        let key_labels :=
          label_all objs
            (fun obj => if key_length obj =? 2048 then "rsa_2048"
                        else if key_length obj =? 4096 then "rsa_4096"
                        else "rsa_512") key_labels in
        (* For ed25519 *)
        objs ← session_get_objects
                 (public_key_template (KEY_TYPE_VALUES ED25519)
                    (Some (encode_named_curve_parameters "1.3.101.112"))) ;
        let key_labels := label_all objs (fun _ => "ed25519") key_labels in
        (* For ed448 *)
        objs ← session_get_objects
                 (public_key_template (KEY_TYPE_VALUES ED448)
                    (Some (encode_named_curve_parameters "1.3.101.113"))) ;
        let key_labels := label_all objs (fun _ => "ed448") key_labels in
        (* for secp256r1, secp384r1, secp521r1 *)
        foldl
          (fun (acc : M (gmap string string)) curve =>
             key_labels ← acc ;
             objs ← session_get_objects
                      (public_key_template (KEY_TYPE_VALUES curve)
                         (Some (encode_named_curve_parameters (value curve)))) ;
             mret (label_all objs (fun _ => value curve) key_labels))
          (mret key_labels)
          [SECP256r1; SECP384r1; SECP521r1] ).

(** *** Signing and verifying *)

(** [isinstance(signature, bytes)] holds of every value of type
    [bytes], so the check that follows the device call cannot fire. *)
Definition _sign (key_label : string) (data : bytes)
    (verify_signature : bool) (mechanism : Mechanism)
    (key_type : KEYTYPES) : M bytes :=
  async_lock
    ( healthy_session false ;;
      (* Get private key to sign the data with *)
      key_priv ← session_get_key (KEY_TYPE_VALUES key_type) PRIVATE_KEY
                   key_label ;
      if verify_signature then
        key_pub ← _get_pub_key key_label key_type ;
        (* Sign the data *)
        signature ← key_sign key_priv data mechanism ;
        ok ← key_verify key_pub data signature mechanism ;
        if negb ok then raise SignatureInvalid else mret signature
      else
        key_sign key_priv data mechanism ).

(** The mechanism and the bytes handed to the token, by key type. *)
Definition hashed (key_type : KEYTYPES) (data : bytes) : bytes :=
  if bool_decide (key_type = SECP256r1) then sha256 data
  else if bool_decide (key_type = SECP384r1) then sha384 data
  else sha512 data.

Definition mech_and_data (key_type : KEYTYPES) (data : bytes)
  : Mechanism * bytes :=
  if is_in key_type [ED25519; ED448] then (EDDSA, data)
  else if is_in key_type [SECP256r1; SECP384r1; SECP521r1] then
    (ECDSA, hashed key_type data)
  else if bool_decide (key_type = RSA2048) then (SHA256_RSA_PKCS, data)
  else (SHA512_RSA_PKCS, data).

Definition sign (key_label : string) (data : bytes)
    (verify_signature : bool) (key_type : KEYTYPES) : M bytes :=
  w ← ask ;
  if base_url (self w) is Some _ then remote "/sign"
  else
    let '(mech, data) := mech_and_data key_type data in
    signature ← _sign key_label data verify_signature mech key_type ;
    (* PKCS11 specific stuff for EC curves, sig is in R&S format,
       convert it to openssl format *)
    if is_in key_type [SECP256r1; SECP384r1; SECP521r1] then
      mret (convert_rs_ec_signature signature (value key_type))
    else mret signature.

(** [try: signature = convert_asn1_ec_signature(...)
     except (IndexError, ValueError): pass] *)
Definition raw_signature (key_type : KEYTYPES) (signature : bytes) : M bytes :=
  if is_in key_type [SECP256r1; SECP384r1; SECP521r1] then
    match convert_asn1_ec_signature signature (value key_type) with
    | inr converted => mret converted
    | inl IndexError | inl (ValueError _) =>
        (* Signature was not in ASN1 format *)
        mret signature
    | inl e => raise e
    end
  else mret signature.

Definition verify (key_label : string) (data signature : bytes)
    (key_type : KEYTYPES) : M bool :=
  w ← ask ;
  if base_url (self w) is Some _ then remote "/verify"
  else
    async_lock
      ( healthy_session false ;;
        (* Get public key to sign the data with *)
        key_pub ← _get_pub_key key_label key_type ;
        let mech := fst (mech_and_data key_type data) in
        let data := snd (mech_and_data key_type data) in
        signature ← raw_signature key_type signature ;
        ok ← key_verify key_pub data signature mech ;
        if ok : bool then mret true else mret false ).

Definition delete_keypair (key_label : string) (key_type : KEYTYPES) : M unit :=
  w ← ask ;
  if base_url (self w) is Some _ then remote "/delete_keypair"
  else
    async_lock
      ( healthy_session false ;;
        try_finally
          ( key ← session_get_key (KEY_TYPE_VALUES key_type) PUBLIC_KEY
                    key_label ;
            object_destroy key )
          ( key ← session_get_key (KEY_TYPE_VALUES key_type) PRIVATE_KEY
                    key_label ;
            object_destroy key ) ).

Definition public_key_data (key_label : string) (key_type : KEYTYPES)
  : M (string * bytes) :=
  w ← ask ;
  if base_url (self w) is Some _ then remote "/public_key_data"
  else
    async_lock
      ( healthy_session false ;;
        key_pub ← _get_pub_key key_label key_type ;
        mret (_public_key_data key_pub key_type) ).

End Methods.

(* ---------------------------------------------------------------- *)
(** ** What a method leaves alone *)
(* ---------------------------------------------------------------- *)

(** [frame P Q w w']: [w'] comes from [w] by code that neither takes
    nor releases the lock, does not reconfigure the instance, lets
    time only advance, adds only events that satisfy [P], and changes
    the token within [Q]. *)
Record frame (P : Event -> bool) (Q : Token -> Token -> Prop)
    (w w' : World) : Prop := {
  fr_base_url : base_url (self w') = base_url (self w);
  fr_flag : support_recreate_session (self w') =
            support_recreate_session (self w);
  fr_lock : lock (self w') = lock (self w);
  fr_environ : environ w' = environ w;
  fr_deadline : deadline w' = deadline w;
  fr_clock : (clock w <= clock w')%nat;
  fr_trace : exists evs, trace w' = trace w ++ evs
                         /\ Forall (fun e => P e = true) evs;
  fr_token : Q (token w) (token w')
}.

(** A computation is [sound] when every run of it stays within the
    frame and, run outside a joined thread, comes back. *)
Definition sound (P : Event -> bool) (Q : Token -> Token -> Prop)
    {A} (m : M A) : Prop :=
  forall w, frame P Q w (m w).2 /\ (deadline w = None -> (m w).1 <> Pending).

Definition not_lock (e : Event) : bool := negb (is_lock_event e).

Definition any_change : Token -> Token -> Prop := fun _ _ => True.

#[global] Instance any_change_preorder : PreOrder any_change.
Proof. split; intros ?; unfold any_change; auto. Qed.

Section Frame.
Context (P : Event -> bool) (Q : Token -> Token -> Prop) `{!PreOrder Q}.

Lemma frame_refl w : frame P Q w w.
Proof.
  split; try reflexivity.
  exists []. rewrite app_nil_r. auto.
Qed.

Lemma frame_trans w1 w2 w3 :
  frame P Q w1 w2 -> frame P Q w2 w3 -> frame P Q w1 w3.
Proof.
  intros [a1 b1 c1 d1 e1 f1 [ev1 [g1 g1']] h1] [a2 b2 c2 d2 e2 f2 [ev2 [g2 g2']] h2].
  split; try congruence; try lia.
  - exists (ev1 ++ ev2). rewrite g2, g1, app_assoc. split; [done|].
    apply Forall_app; auto.
  - by transitivity (token w2).
Qed.

(** Changes that add no event and leave the token alone. *)
Lemma frame_quiet w w' :
  base_url (self w') = base_url (self w) ->
  support_recreate_session (self w') = support_recreate_session (self w) ->
  lock (self w') = lock (self w) ->
  environ w' = environ w -> deadline w' = deadline w ->
  (clock w <= clock w')%nat -> trace w' = trace w -> token w' = token w ->
  frame P Q w w'.
Proof.
  intros. split; try done.
  - exists []. rewrite app_nil_r. auto.
  - replace (token w') with (token w). reflexivity.
Qed.

Lemma sound_ret {A} (a : A) : sound P Q (mret a).
Proof. intros w; split; [apply frame_refl | done]. Qed.

Lemma sound_raise {A} e : sound P Q (@raise A e).
Proof. intros w; split; [apply frame_refl | done]. Qed.

Lemma sound_ask : sound P Q ask.
Proof. intros w; split; [apply frame_refl | done]. Qed.

Lemma sound_bind {A B} (m : M A) (k : A -> M B) :
  sound P Q m -> (forall a, sound P Q (k a)) -> sound P Q (m ≫= k).
Proof.
  intros Hm Hk w. unfold mbind, M_bind.
  destruct (Hm w) as [Hf Hp]. destruct (m w) as [[a|e|] w1]; simpl in *.
  - destruct (Hk a w1) as [Hf' Hp']. split.
    + eapply frame_trans; eauto.
    + intros Hd. apply Hp'. by rewrite (fr_deadline _ _ _ _ Hf).
  - done.
  - split; [done|]. intros Hd. exfalso. by apply Hp.
Qed.

Lemma sound_try_except {A} (body : M A) handler :
  sound P Q body -> (forall e, sound P Q (handler e)) ->
  sound P Q (try_except body handler).
Proof.
  intros Hm Hk w. unfold try_except.
  destruct (Hm w) as [Hf Hp]. destruct (body w) as [[a|e|] w1]; simpl in *.
  - done.
  - destruct (Hk e w1) as [Hf' Hp']. split.
    + eapply frame_trans; eauto.
    + intros Hd. apply Hp'. by rewrite (fr_deadline _ _ _ _ Hf).
  - split; [done|]. intros Hd. exfalso. by apply Hp.
Qed.

Lemma sound_try_finally {A} (body : M A) final :
  sound P Q body -> sound P Q final -> sound P Q (try_finally body final).
Proof.
  intros Hm Hk w. unfold try_finally.
  destruct (Hm w) as [Hf Hp].
  destruct (body w) as [r w1]; simpl in *.
  destruct (Hk w1) as [Hf' Hp'].
  assert (deadline w = None -> deadline w1 = None) as Hd1.
  { intros Hd. by rewrite (fr_deadline _ _ _ _ Hf). }
  pose proof (frame_trans _ _ _ Hf Hf') as Hfr.
  destruct r as [a|e|]; [ | | by split ].
  all: destruct (final w1) as [[[]|e'|] w2]; simpl in *.
  all: split; [done |]; intros Hd; try done.
  all: exfalso; apply Hp'; [by apply Hd1 | done].
Qed.

Lemma sound_modify f : (forall w, frame P Q w (f w)) -> sound P Q (modify f).
Proof. intros Hf w; split; [apply Hf | done]. Qed.

Lemma frame_log e w : P e = true -> frame P Q w (log e w).
Proof.
  intros He. split; simpl; try reflexivity.
  exists [e]. split; [done | by constructor].
Qed.

Lemma sound_emit e : P e = true -> sound P Q (emit e).
Proof. intros He. apply sound_modify. intros w. by apply frame_log. Qed.

Lemma sound_wait d : sound P Q (wait d).
Proof.
  intros w. unfold wait. destruct (deadline w) as [t|] eqn:Hd.
  - destruct (t <? clock w + d)%nat; simpl;
      (split; [apply frame_quiet; simpl; try done; lia | done]).
  - simpl. split; [apply frame_quiet; simpl; try done; lia | done].
Qed.

Lemma sound_next_response : sound P Q next_response.
Proof.
  intros w. unfold next_response. destruct (script w); simpl.
  - split; [apply frame_refl | done].
  - split; [by apply frame_quiet | done].
Qed.

Lemma sound_call {A} e (op : Token -> Outcome A * Token) :
  P e = true ->
  (forall t, Q t (op t).2) ->
  (forall t, (op t).1 <> Pending) ->
  sound P Q (call e op).
Proof.
  intros He Hop Hnp. unfold call.
  apply sound_bind; [by apply sound_emit | intros _].
  apply sound_bind; [apply sound_next_response | intros r].
  apply sound_bind; [apply sound_wait | intros _].
  destruct (fault r); [apply sound_raise |].
  intros w. specialize (Hop (token w)). specialize (Hnp (token w)).
  destruct (op (token w)) as [o t]. simpl in *. split; [| done].
  split; simpl; try reflexivity; try done.
  exists []. rewrite app_nil_r. auto.
Qed.

Lemma sound_set_status st : sound P Q (set_status st).
Proof. apply sound_modify. intros w. by apply frame_quiet. Qed.

Lemma sound_set_session h : sound P Q (modify (set_self (with_session h))).
Proof. apply sound_modify. intros w. by apply frame_quiet. Qed.

Lemma sound_getenv key : sound P Q (getenv key).
Proof.
  unfold getenv. apply sound_bind; [apply sound_ask | intros w].
  destruct (environ w !! key); [apply sound_ret | apply sound_raise].
Qed.

Lemma sound_start_join target timeout :
  sound P Q target -> sound P Q (start_join_is_alive target timeout).
Proof.
  intros Ht w. unfold start_join_is_alive.
  destruct (Ht (set_deadline (Some (clock w + timeout)%nat) w)) as [Hf _].
  assert (frame P Q w
            (set_deadline (deadline w)
               (target (set_deadline (Some (clock w + timeout)%nat) w)).2)) as Hfr.
  { destruct Hf as [a b c d e f g h]. split; simpl in *; done. }
  destruct (target _) as [[[]|e|] w1]; simpl in *; (split; [done | done]).
Qed.

Lemma sound_for_each {A} (l : list A) body :
  (forall a, sound P Q (body a)) -> sound P Q (for_each l body).
Proof.
  intros Hb. induction l as [|a l IH]; simpl.
  - by apply sound_ret.
  - apply sound_bind; [apply Hb | intros _; apply IH].
Qed.

End Frame.

Lemma frame_weaken (P P' : Event -> bool) (Q Q' : Token -> Token -> Prop) w w' :
  (forall e, P e = true -> P' e = true) ->
  (forall t t', Q t t' -> Q' t t') -> frame P Q w w' -> frame P' Q' w w'.
Proof.
  intros HP HQ [a b c d e f (evs & g & g') h]. split; auto.
  exists evs. split; [done|]. eapply Forall_impl; eauto.
Qed.

Lemma sound_weaken (P P' : Event -> bool) (Q Q' : Token -> Token -> Prop)
    {A} (m : M A) :
  (forall e, P e = true -> P' e = true) ->
  (forall t t', Q t t' -> Q' t t') -> sound P Q m -> sound P' Q' m.
Proof.
  intros HP HQ Hm w. destruct (Hm w) as [Hf Hp].
  split; [by eapply frame_weaken | done].
Qed.

(** The only objects the health probe ever stores: the RSA key pair
    labelled [SENTINEL]. *)
Definition sentinel_like (o : Object) : Prop :=
  LABEL o = SENTINEL /\ KEY_TYPE o = Some RSA.

(** The token keeps every object it had, as it was, and gains only
    sentinel keys. *)
Definition grows (t t' : Token) : Prop :=
  token_label t' = token_label t /\ user_pin t' = user_pin t /\
  exists extra, objects t' = objects t ++ extra /\ Forall sentinel_like extra.

#[global] Instance grows_preorder : PreOrder grows.
Proof.
  split.
  - intros t. repeat split. exists []. by rewrite app_nil_r.
  - intros t1 t2 t3 (a1 & b1 & x1 & c1 & d1) (a2 & b2 & x2 & c2 & d2).
    repeat split; try congruence.
    exists (x1 ++ x2). rewrite c2, c1, app_assoc. split; [done|].
    by apply Forall_app.
Qed.

Lemma get_key_not_pending kt cls label t : get_key kt cls label t <> Pending.
Proof.
  unfold get_key. destruct (get_objects _ t) as [|o [|o' l]]; done.
Qed.

Section Calls.
Context `{Externals}.
Context (P : Event -> bool) (Q : Token -> Token -> Prop) `{!PreOrder Q}.
Hypothesis P_token : forall e, touches_token e = true -> P e = true.

Lemma sound_session_get_key kt cls label :
  sound P Q (session_get_key kt cls label).
Proof.
  apply (sound_call _ _); simpl.
  - by apply P_token.
  - reflexivity.
  - intros t. apply get_key_not_pending.
Qed.

Lemma sound_session_get_objects tpl : sound P Q (session_get_objects tpl).
Proof.
  apply (sound_call _ _); simpl; [by apply P_token | reflexivity | done].
Qed.

Lemma sound_key_sign key data mech : sound P Q (key_sign key data mech).
Proof.
  apply (sound_call _ _); simpl; [by apply P_token | reflexivity | done].
Qed.

Lemma sound_key_verify key data sg mech :
  sound P Q (key_verify key data sg mech).
Proof.
  apply (sound_call _ _); simpl; [by apply P_token | reflexivity | done].
Qed.

Lemma sound__get_pub_key key_label key_type :
  sound P Q (_get_pub_key key_label key_type).
Proof. apply sound_session_get_key. Qed.

End Calls.

Section Soundness.
Context `{Externals}.

Lemma sound_generate_any kt bits params label :
  sound not_lock any_change (session_generate_keypair kt bits params label).
Proof. apply (sound_call _ _); done. Qed.

Lemma sound_create_object o : sound not_lock any_change (session_create_object o).
Proof. apply (sound_call _ _); done. Qed.

Lemma sound_object_destroy o : sound not_lock any_change (object_destroy o).
Proof. apply (sound_call _ _); done. Qed.

Lemma sound_generate_sentinel_call bits params :
  sound touches_token grows (session_generate_keypair RSA bits params SENTINEL).
Proof.
  apply (sound_call _ _); [done | | done]. intros t; simpl.
  repeat split. eexists. split; [reflexivity|].
  repeat constructor.
Qed.

Lemma sound_generate_sentinel : sound touches_token grows generate_sentinel.
Proof.
  unfold generate_sentinel. apply (sound_try_except _ _).
  - apply (sound_bind _ _); [apply sound_generate_sentinel_call | intros _].
    apply (sound_set_status _ _).
  - intros []; first [apply (sound_ret _ _) | apply (sound_raise _ _)].
Qed.

Lemma sound__open_session force sim :
  sound touches_token grows (_open_session force sim).
Proof.
  unfold _open_session.
  apply (sound_bind _ _);
    [destruct sim; [apply (sound_wait _ _) | apply (sound_ret _ _)] | intros _].
  apply (sound_bind _ _); [apply (sound_set_status _ _) | intros _].
  apply (sound_try_except _ _).
  - apply (sound_bind _ _); [apply (sound_ask _ _) | intros w].
    apply (sound_bind _ _).
    + destruct (force || _); [| apply (sound_ret _ _)].
      apply (sound_bind _ _); [apply (sound_getenv _ _) | intros _].
      apply (sound_bind _ _);
        [apply (sound_call _ _); [done | reflexivity | done] | intros _].
      apply (sound_bind _ _); [apply (sound_getenv _ _) | intros label].
      apply (sound_bind _ _); [| intros _].
      { apply (sound_call _ _); [done | reflexivity |].
        intros t. simpl. unfold get_token. by case_bool_decide. }
      apply (sound_bind _ _); [apply (sound_getenv _ _) | intros pin].
      apply (sound_bind _ _); [| intros h; apply (sound_set_session _ _)].
      apply (sound_call _ _); [done | |]; intros t; unfold open;
        case_bool_decide; simpl; try done.
      repeat split. exists []. by rewrite app_nil_r.
    + intros _.
      apply (sound_bind _ _); [by apply (sound_session_get_key _ _) | intros _].
      apply (sound_set_status _ _).
  - intros []; first [apply sound_generate_sentinel
                     | apply (sound_ret _ _) | apply (sound_raise _ _)].
Qed.

Lemma sound_healthy_session sim : sound not_lock grows (healthy_session sim).
Proof.
  assert (sound not_lock grows (_open_session false sim)
          /\ sound not_lock grows (_open_session true sim)) as [Ho1 Ho2].
  { split; (eapply sound_weaken; [| | apply sound__open_session]; [|done]);
      by intros []. }
  unfold healthy_session.
  apply (sound_bind _ _); [by apply (sound_emit _ _) | intros _].
  apply (sound_bind _ _); [apply (sound_ask _ _) | intros w].
  destruct (negb _); [apply (sound_ret _ _) |].
  apply (sound_bind _ _); [by apply (sound_emit _ _) | intros _].
  apply (sound_bind _ _); [by apply (sound_start_join _ _) | intros alive].
  apply (sound_bind _ _); [apply (sound_ask _ _) | intros w1].
  destruct (unhealthy alive w1); [| apply (sound_ret _ _)].
  apply (sound_bind _ _); [by apply (sound_emit _ _) | intros _].
  apply (sound_bind _ _); [by apply (sound_start_join _ _) | intros alive2].
  apply (sound_bind _ _); [apply (sound_ask _ _) | intros w2].
  destruct (unhealthy alive2 w2); [apply (sound_raise _ _) | apply (sound_ret _ _)].
Qed.

End Soundness.

(* ---------------------------------------------------------------- *)
(** ** The bodies of the methods stay within the frame *)
(* ---------------------------------------------------------------- *)

Lemma touches_not_lock e : touches_token e = true -> not_lock e = true.
Proof. by destruct e. Qed.

Section Bodies.
Context `{Externals}.

Let ok {A} : M A -> Prop := sound not_lock any_change.

Lemma ok_get_key kt cls label : ok (session_get_key kt cls label).
Proof. apply (sound_session_get_key _ _), touches_not_lock. Qed.

Lemma ok_get_objects tpl : ok (session_get_objects tpl).
Proof. apply (sound_session_get_objects _ _), touches_not_lock. Qed.

Lemma ok_sign key data mech : ok (key_sign key data mech).
Proof. apply (sound_key_sign _ _), touches_not_lock. Qed.

Lemma ok_verify key data sg mech : ok (key_verify key data sg mech).
Proof. apply (sound_key_verify _ _), touches_not_lock. Qed.

Lemma ok_healthy_session sim : ok (healthy_session sim).
Proof.
  eapply sound_weaken; [| | apply sound_healthy_session]; done.
Qed.

End Bodies.

Create HintDb sound_db.
#[global] Hint Resolve ok_get_key ok_get_objects ok_sign ok_verify
  ok_healthy_session sound_generate_any sound_create_object
  sound_object_destroy : sound_db.

(** Walks through a method body: binds, handlers, branches, calls. *)
Ltac sound_step :=
  first
    [ apply (sound_ret _ _)
    | apply (sound_raise _ _)
    | apply (sound_ask _ _)
    | solve [auto with sound_db]
    | apply (sound_bind _ _); [| intros ?]
    | apply (sound_try_except _ _); [| intros ?]
    | apply (sound_try_finally _ _)
    | apply (sound_for_each _ _); intros ?
    | match goal with
      | |- sound _ _ (match ?x with _ => _ end) => destruct x
      | |- sound _ _ (let '(_, _) := ?x in _) => destruct x
      end ].

Ltac sound_tac := repeat sound_step.

Section Bodies2.
Context `{Externals}.

Lemma ok__get_pub_key key_label key_type :
  sound not_lock any_change (_get_pub_key key_label key_type).
Proof. unfold _get_pub_key. sound_tac. Qed.

Lemma ok_must_be_absent key_label key_type :
  sound not_lock any_change (must_be_absent key_label key_type).
Proof. unfold must_be_absent, _get_pub_key. sound_tac. Qed.

Lemma ok_generate key_label key_type :
  sound not_lock any_change (generate key_label key_type).
Proof. unfold generate. sound_tac. Qed.

End Bodies2.

(* ---------------------------------------------------------------- *)
(** ** Running a method *)
(* ---------------------------------------------------------------- *)

(** The world once the lock has been taken, and once it has been
    given back. *)
Definition acquired (w : World) : World :=
  log EvAcquire (set_self (with_lock true) w).
Definition released (w : World) : World :=
  log EvRelease (set_self (with_lock false) w).

Lemma ask_bind {A} (k : World -> M A) w : (ask ≫= k) w = k w w.
Proof. reflexivity. Qed.

Lemma bind_run {A B} (m : M A) (k : A -> M B) w :
  (m ≫= k) w =
  match m w with
  | (Return a, w') => k a w'
  | (Raise e, w') => (Raise e, w')
  | (Pending, w') => (Pending, w')
  end.
Proof. reflexivity. Qed.

Lemma async_lock_run {A} (body : M A) w :
  lock (self w) = false ->
  async_lock body w =
  match body (acquired w) with
  | (Pending, w1) => (Pending, w1)
  | (r, w1) => (r, released w1)
  end.
Proof.
  intros Hl. unfold async_lock. rewrite bind_run. unfold acquire.
  rewrite Hl. unfold try_finally, release. fold (acquired w).
  destruct (body (acquired w)) as [[a|e|] w1]; reflexivity.
Qed.

(** The answer the token gives to the next call, and the world once a
    call has been logged and answered. *)
Definition head_response (w : World) : Response :=
  match script w with
  | [] => {| latency := 0; fault := false |}
  | r :: _ => r
  end.

Definition answered (e : Event) (w : World) : World :=
  {| self := self w; token := token w; script := tail (script w);
     environ := environ w;
     clock := (clock w + latency (head_response w))%nat;
     deadline := deadline w; trace := trace w ++ [e] |}.

Lemma call_run {A} e (op : Token -> Outcome A * Token) w :
  deadline w = None ->
  call e op w =
  if fault (head_response w) then (Raise GeneralError, answered e w)
  else (fst (op (token w)), set_token (snd (op (token w))) (answered e w)).
Proof.
  intros Hd.
  unfold call, answered, head_response, mbind, M_bind, emit, modify,
    next_response, wait, raise. cbn.
  destruct (script w) as [|r rest] eqn:Hs; cbn; rewrite Hd; cbn.
  - destruct (op (token w)); unfold set_token, set_clock, log; cbn.
    by rewrite Hs, Hd.
  - destruct (fault r); unfold set_token, set_clock, set_script, log; cbn.
    + by rewrite Hd.
    + destruct (op (token w)); cbn. by rewrite Hd.
Qed.

(** A token that answers every coming call. *)
Definition faultless (w : World) : Prop :=
  Forall (fun r => fault r = false) (script w).

Lemma faultless_head w : faultless w -> fault (head_response w) = false.
Proof.
  unfold faultless, head_response. destruct (script w); [done|].
  by inversion 1.
Qed.

Lemma faultless_answered e w : faultless w -> faultless (answered e w).
Proof.
  unfold faultless. simpl. destruct (script w); [done|]. by inversion 1.
Qed.

Lemma faultless_set_token t w : faultless w -> faultless (set_token t w).
Proof. done. Qed.

(* ---------------------------------------------------------------- *)
(** ** Time: a joined thread never shows effects past its deadline *)
(* ---------------------------------------------------------------- *)

Definition timed {A} (m : M A) : Prop :=
  forall w t, deadline w = Some t -> (clock w <= t)%nat ->
    deadline (m w).2 = Some t /\ (clock (m w).2 <= t)%nat.

Section Timed.
Context `{Externals}.

Lemma timed_ret {A} (a : A) : timed (mret a).
Proof. by intros w t Hd Hc. Qed.

Lemma timed_raise {A} e : timed (@raise A e).
Proof. by intros w t Hd Hc. Qed.

Lemma timed_ask : timed ask.
Proof. by intros w t Hd Hc. Qed.

Lemma timed_bind {A B} (m : M A) (k : A -> M B) :
  timed m -> (forall a, timed (k a)) -> timed (m ≫= k).
Proof.
  intros Hm Hk w t Hd Hc. rewrite bind_run.
  destruct (Hm w t Hd Hc) as [Hd1 Hc1].
  destruct (m w) as [[a|e|] w1]; simpl in *; [by apply Hk | done..].
Qed.

Lemma timed_try_except {A} (body : M A) handler :
  timed body -> (forall e, timed (handler e)) -> timed (try_except body handler).
Proof.
  intros Hm Hk w t Hd Hc. unfold try_except.
  destruct (Hm w t Hd Hc) as [Hd1 Hc1].
  destruct (body w) as [[a|e|] w1]; simpl in *; [done | by apply Hk | done].
Qed.

Lemma timed_modify f :
  (forall w, deadline (f w) = deadline w /\ clock (f w) = clock w) ->
  timed (modify f).
Proof.
  intros Hf w t Hd Hc. simpl. destruct (Hf w) as [-> ->]. done.
Qed.

Lemma timed_wait d : timed (wait d).
Proof.
  intros w t Hd Hc. unfold wait. rewrite Hd.
  destruct (Nat.ltb_spec t (clock w + d)); simpl; split; try done; lia.
Qed.

Lemma timed_call {A} e (op : Token -> Outcome A * Token) : timed (call e op).
Proof.
  unfold call.
  apply timed_bind; [by apply timed_modify | intros _].
  apply timed_bind; [| intros r].
  { intros w t Hd Hc. unfold next_response. by destruct (script w). }
  apply timed_bind; [apply timed_wait | intros _].
  destruct (fault r); [apply timed_raise |].
  intros w t Hd Hc. by destruct (op (token w)).
Qed.

Lemma timed_getenv key : timed (getenv key).
Proof.
  unfold getenv. apply timed_bind; [apply timed_ask | intros w].
  destruct (environ w !! key); [apply timed_ret | apply timed_raise].
Qed.

Lemma timed__open_session force sim : timed (_open_session force sim).
Proof.
  unfold _open_session, generate_sentinel, set_status,
    session_get_key, session_generate_keypair.
  repeat first
    [ apply timed_ret | apply timed_raise | apply timed_ask
    | apply timed_wait | apply timed_call | apply timed_getenv
    | by apply timed_modify
    | apply timed_bind; [| intros ?]
    | apply timed_try_except; [| intros ?]
    | match goal with
      | |- timed (match ?x with _ => _ end) => destruct x
      end ].
Qed.

(** The joiner waits for at most [timeout]. *)
Lemma join_bounded target timeout w :
  timed target ->
  (clock (start_join_is_alive target timeout w).2 <= clock w + timeout)%nat.
Proof.
  intros Ht. unfold start_join_is_alive.
  destruct (Ht (set_deadline (Some (clock w + timeout)%nat) w)
              (clock w + timeout)%nat eq_refl) as [_ Hc]; [simpl; lia|].
  by destruct (target _) as [[[]|e|] w1].
Qed.

End Timed.

End Handle.

(* ================================================================== *)
(** * A token to run the methods against *)
(* ================================================================== *)

Module Demo.
Import Pkcs11 Handle.

(** Stand-ins for what the module imports.  The table of lib.py is
    taken to be [family]: the key type under which [create_keypair]
    and [import_keypair] store a key is the one [_get_pub_key] looks
    it up by.  The hash stand-ins differ from one another so that a
    run shows which one was applied. *)
Definition tagged (tag : byte) (data : bytes) : bytes := tag :: Sha1.sha1 data.

#[global] Instance externals : Externals := {|
  KEY_TYPE_VALUES := family;
  convert_rs_ec_signature := fun sg curve => encode curve ++ sg;
  convert_asn1_ec_signature := fun sg _ => inl IndexError;
  sha256 := tagged x01;
  sha384 := tagged x02;
  sha512 := tagged x03;
  armor := fun name der => encode name ++ der;
  detect := fun _ => false;
  unarmor := fun data => data;
  dump := fun pki => encode (algorithm pki) ++ parameters pki ++ public_key pki;
  encode_named_curve_parameters := encode;
  decode_key := fun kt cls der =>
    {| handle := 0; CLASS := cls; KEY_TYPE := Some kt; LABEL := "";
       key_length := 0; EC_PARAMS := []; VALUE := der |};
  decode_x509_certificate := fun der =>
    {| handle := 0; CLASS := CERTIFICATE; KEY_TYPE := None; LABEL := "";
       key_length := 0; EC_PARAMS := []; VALUE := der |};
  C_GenerateKeyPair := fun _ _ _ h =>
    ([x04; byte_of_Z (Z.of_nat h)], [x05; byte_of_Z (Z.of_nat h)]);
  C_Sign := fun key _ data => Sha1.sha1 (VALUE key ++ data);
  C_Verify := fun _ _ _ _ => true;
  post := fun A _ w => (Raise ClientResponseError, w)
|}.

Definition empty_token : Token :=
  {| token_label := "my_test_token_1"; user_pin := "1234";
     objects := []; next_handle := 1; sessions := 0 |}.

Definition instance (recreate : bool) : PKCS11Session :=
  {| lock := false; base_url := None;
     support_recreate_session := recreate;
     session := Some 0%nat; _session_status := 9 |}.

Definition env : gmap string string :=
  {[ "PKCS11_MODULE" := "/usr/lib/softhsm/libsofthsm2.so";
     "PKCS11_TOKEN" := "my_test_token_1";
     "PKCS11_PIN" := "1234" ]}.

(** A world at rest: the lock is free and no thread is being joined. *)
Definition world (recreate : bool) (t : Token) (answers : list Response) : World :=
  {| self := instance recreate; token := t; script := answers;
     environ := env; clock := 0; deadline := None; trace := [] |}.

(** Run a method and keep its outcome and the world it leaves. *)
Definition run {A} (m : M A) (w : World) : Outcome A * World := m w.

End Demo.

(* ================================================================== *)
(** * The health probe *)
(* ================================================================== *)

Module Health.
Import Pkcs11 Handle.

Section Health.
Context `{Externals}.

(** One attempt of [healthy_session]: a thread that runs
    [_open_session] is started and joined for [TIMEOUT]; the value is
    [thread.is_alive()] after the join. *)
Definition probe (force simulate_pkcs11_timeout : bool) : M bool :=
  emit (EvThread force) ;;
  start_join_is_alive (_open_session force simulate_pkcs11_timeout) TIMEOUT.

Definition is_thread (e : Event) : bool :=
  match e with
  | EvThread _ => true
  | _ => false
  end.

(** The events a run added to the log. *)
Definition added (w w' : World) : list Event :=
  drop (length (trace w)) (trace w').

Definition gave_up : Exception :=
  PKCS11UnknownErrorException
    "ERROR: Could not get a healthy PKCS11 connection in time".

(** A probe always comes back to its caller, within [TIMEOUT], and
    logs its thread first and only calls into the token after. *)
Lemma probe_spec force sim w :
  exists alive w1 evs,
    probe force sim w = (Return alive, w1)
    /\ (clock w1 <= clock w + TIMEOUT)%nat
    /\ trace w1 = trace w ++ EvThread force :: evs
    /\ Forall (fun e => touches_token e = true) evs
    /\ support_recreate_session (self w1) = support_recreate_session (self w)
    /\ deadline w1 = deadline w.
Proof.
  unfold probe. rewrite bind_run. simpl.
  pose proof (join_bounded (_open_session force sim) TIMEOUT
                (log (EvThread force) w) (timed__open_session force sim)) as Hc.
  destruct (sound_start_join touches_token grows
              (_open_session force sim) TIMEOUT
              (sound__open_session force sim) (log (EvThread force) w))
    as [[_ Hflag _ _ Hdl _ (evs & Htr & Hevs) _] _].
  unfold start_join_is_alive in *.
  destruct (_open_session force sim _) as [[[]|e|] w1]; simpl in *;
    eexists _, _, evs; (split; [reflexivity|]); simpl;
    (split; [done|]); (split; [by rewrite Htr, <- app_assoc |]); done.
Qed.

Lemma probe_run force sim w :
  probe force sim w =
  start_join_is_alive (_open_session force sim) TIMEOUT (log (EvThread force) w).
Proof. reflexivity. Qed.

Lemma healthy_session_off sim w :
  support_recreate_session (self w) = false ->
  healthy_session sim w = (Return tt, log EvHealthy w).
Proof.
  intros Hoff. unfold healthy_session.
  rewrite bind_run. simpl. rewrite ask_bind. simpl. by rewrite Hoff.
Qed.

(** [healthy_session] in terms of its attempts. *)
Lemma healthy_session_on sim w :
  support_recreate_session (self w) = true ->
  healthy_session sim w =
  match probe false sim (log EvHealthy w) with
  | (Return alive, w1) =>
      if unhealthy alive w1 then
        match probe true sim w1 with
        | (Return alive2, w2) =>
            if unhealthy alive2 w2 then (Raise gave_up, w2)
            else (Return tt, w2)
        | (Raise e, w2) => (Raise e, w2)
        | (Pending, w2) => (Pending, w2)
        end
      else (Return tt, w1)
  | (Raise e, w1) => (Raise e, w1)
  | (Pending, w1) => (Pending, w1)
  end.
Proof.
  intros Hon. unfold healthy_session.
  rewrite bind_run. simpl. rewrite ask_bind. simpl. rewrite Hon. simpl.
  rewrite !probe_run, bind_run. simpl. rewrite bind_run.
  destruct (start_join_is_alive _ _ _) as [[alive| |] w1]; try reflexivity.
  rewrite ask_bind. destruct (unhealthy alive w1); [| reflexivity].
  rewrite probe_run, bind_run. simpl. rewrite bind_run.
  destruct (start_join_is_alive _ _ _) as [[alive2| |] w2]; try reflexivity.
  rewrite ask_bind. by destruct (unhealthy alive2 w2).
Qed.

Lemma added_app w w' evs : trace w' = trace w ++ evs -> added w w' = evs.
Proof. unfold added. intros ->. by rewrite drop_app_length. Qed.

Lemma no_thread_among_calls evs :
  Forall (fun e => touches_token e = true) evs -> List.filter is_thread evs = [].
Proof.
  induction 1 as [|e evs He _ IH]; [done|]. simpl.
  destruct e; simpl in *; done.
Qed.

(** What [healthy_session] does, whatever the token answers. *)
Lemma healthy_session_summary w :
  exists rh w1 probes,
    healthy_session false w = (rh, w1)
    /\ (rh = Return tt \/ rh = Raise gave_up)
    /\ trace w1 = trace w ++ EvHealthy :: probes
    /\ Forall (fun e => is_lock_event e = false) probes
    /\ frame not_lock grows w w1
    /\ (support_recreate_session (self w) = true -> rh = Return tt ->
        _session_status (self w1) = 0 /\ EvThread false ∈ probes)
    /\ (support_recreate_session (self w) = false ->
        rh = Return tt /\ probes = []).
Proof.
  destruct (sound_healthy_session false w) as [Hfr _].
  destruct (support_recreate_session (self w)) eqn:Hflag.
  - rewrite (healthy_session_on false w Hflag) in *.
    destruct (probe_spec false false (log EvHealthy w))
      as (alive1 & w1 & evs1 & Hp1 & _ & Ht1 & He1 & _ & _).
    rewrite Hp1 in *.
    simpl in Ht1. rewrite <- app_assoc in Ht1. simpl in Ht1.
    assert (Forall (fun e => is_lock_event e = false) evs1) as He1'.
    { eapply Forall_impl; [exact He1|]. by intros []. }
    destruct (unhealthy alive1 w1) eqn:Hu1.
    + destruct (probe_spec true false w1)
        as (alive2 & w2 & evs2 & Hp2 & _ & Ht2 & He2 & _ & _).
      rewrite Hp2 in *.
      assert (Forall (fun e => is_lock_event e = false) evs2) as He2'.
      { eapply Forall_impl; [exact He2|]. by intros []. }
      rewrite Ht1, <- app_assoc in Ht2. simpl in Ht2.
      destruct (unhealthy alive2 w2) eqn:Hu2; simpl in *;
        eexists _, w2, _; (split; [reflexivity|]);
        (split; [auto|]); (split; [exact Ht2|]);
        (split; [constructor; [done|]; apply Forall_app; split;
                 [done | by constructor] |]);
        (split; [done|]); (split; [| done]); intros _ Hr; [done|].
      split; [| by left].
      unfold unhealthy in Hu2. apply orb_false_elim in Hu2 as [_ Hs].
      apply negb_false_iff, Z.eqb_eq in Hs. done.
    + simpl in *. eexists _, w1, _. split; [reflexivity|].
      split; [auto|]. split; [exact Ht1|].
      split; [by constructor|]. split; [done|]. split; [| done].
      intros _ _. split; [| by left].
      unfold unhealthy in Hu1. apply orb_false_elim in Hu1 as [_ Hs].
      apply negb_false_iff, Z.eqb_eq in Hs. done.
  - rewrite (healthy_session_off false w Hflag) in *.
    eexists _, _, []. split; [reflexivity|].
    split; [by left|]. split; [done|]. split; [done|].
    split; [done|]. split; [done | by split].
Qed.

(** ** Methods that work under the lock

    [guarded m]: run on an instance that talks to its own token,
    with the lock free, [m] takes the lock, runs the health probe,
    then does its own work, and gives the lock back on every path;
    it comes back to its caller.  In the log, [probes] are the
    events of the health probe and [own] those of the work proper. *)
Definition guarded {A} (m : M A) : Prop :=
  forall w,
    base_url (self w) = None -> lock (self w) = false -> deadline w = None ->
    exists rh w1 probes own,
      healthy_session false (acquired w) = (rh, w1)
      /\ (m w).1 <> Pending
      /\ trace (m w).2 =
         trace w ++ EvAcquire :: EvHealthy :: probes ++ own ++ [EvRelease]
      /\ Forall (fun e => is_lock_event e = false) (probes ++ own)
      /\ lock (self (m w).2) = false
      /\ (forall e, rh = Raise e -> own = [] /\ (m w).1 = Raise e)
      /\ (support_recreate_session (self w) = true -> rh = Return tt ->
          _session_status (self w1) = 0 /\ EvThread false ∈ probes)
      /\ (support_recreate_session (self w) = false ->
          rh = Return tt /\ probes = []).

Lemma guarded_async_lock {A} (rest : M A) :
  sound not_lock any_change rest ->
  forall w,
    lock (self w) = false -> deadline w = None ->
    exists rh w1 probes own,
      healthy_session false (acquired w) = (rh, w1)
      /\ (async_lock (healthy_session false ;; rest) w).1 <> Pending
      /\ trace (async_lock (healthy_session false ;; rest) w).2 =
         trace w ++ EvAcquire :: EvHealthy :: probes ++ own ++ [EvRelease]
      /\ Forall (fun e => is_lock_event e = false) (probes ++ own)
      /\ lock (self (async_lock (healthy_session false ;; rest) w).2) = false
      /\ (forall e, rh = Raise e ->
          own = [] /\ (async_lock (healthy_session false ;; rest) w).1 = Raise e)
      /\ (support_recreate_session (self w) = true -> rh = Return tt ->
          _session_status (self w1) = 0 /\ EvThread false ∈ probes)
      /\ (support_recreate_session (self w) = false ->
          rh = Return tt /\ probes = []).
Proof.
  intros Hrest w Hl Hd.
  rewrite (async_lock_run _ w Hl), bind_run.
  destruct (healthy_session_summary (acquired w))
    as (rh & w1 & probes & Hh & Hrh & Ht & Hp & Hfr & Hon & Hoff).
  rewrite Hh. simpl in Ht. rewrite <- app_assoc in Ht. simpl in Ht.
  exists rh, w1, probes.
  destruct Hrh as [-> | ->].
  - destruct (Hrest w1) as [[_ _ _ _ _ _ (own & Hto & Hown) _] Hnp].
    assert (deadline w1 = None) as Hd1.
    { by rewrite (fr_deadline _ _ _ _ Hfr). }
    specialize (Hnp Hd1).
    assert (Forall (fun e => is_lock_event e = false) own) as Hown'.
    { eapply Forall_impl; [exact Hown|]. intros e. unfold not_lock.
      by destruct (is_lock_event e). }
    exists own. split; [done|].
    destruct (rest w1) as [[a|e|] w2]; simpl in *; [ | | done].
    all: split; [done|]; split;
      [rewrite Hto, Ht, <- ?app_assoc; simpl; by rewrite <- ?app_assoc |].
    all: split; [by apply Forall_app |]; split; [done|].
    all: split; [done | by split].
  - exists []. split; [done|]. simpl. split; [done|].
    split; [by rewrite Ht, <- ?app_assoc |].
    split; [by rewrite app_nil_r |]. split; [done|].
    split; [by intros e [= <-] | by split].
Qed.


End Health.

End Health.

(* ================================================================== *)
(** * The lock around every method *)
(* ================================================================== *)

Module Locking.
Import Pkcs11 Handle Health.

Section Methods.
Context `{Externals}.

(** The shape every public method has: the remote branch when
    [base_url] is set, and otherwise the work under the lock, after the
    health probe. *)
Lemma guarded_method {A} (remote_branch : M A) (rest : M A) :
  sound not_lock any_change rest ->
  guarded (w ← ask ;
           if base_url (self w) is Some _ then remote_branch
           else async_lock (healthy_session false ;; rest)).
Proof.
  intros Hrest w Hb Hl Hd. rewrite ask_bind, Hb.
  by apply guarded_async_lock.
Qed.

Lemma guarded_import_certificate cert_pem cert_label :
  guarded (import_certificate cert_pem cert_label).
Proof. apply guarded_method. sound_tac. Qed.

Lemma guarded_export_certificate cert_label :
  guarded (export_certificate cert_label).
Proof. apply guarded_method. sound_tac. Qed.

Lemma guarded_delete_certificate cert_label :
  guarded (delete_certificate cert_label).
Proof. apply guarded_method. sound_tac. Qed.

Lemma guarded_import_keypair public_key private_key key_label key_type :
  guarded (import_keypair public_key private_key key_label key_type).
Proof.
  apply guarded_method. unfold must_be_absent, _get_pub_key. sound_tac.
Qed.

Lemma guarded_create_keypair key_label key_type :
  guarded (create_keypair key_label key_type).
Proof.
  apply guarded_method. unfold must_be_absent, _get_pub_key, generate.
  sound_tac.
Qed.

Lemma guarded_key_labels : guarded key_labels.
Proof. apply guarded_method. simpl. sound_tac. Qed.

Lemma guarded_verify key_label data signature key_type :
  guarded (verify key_label data signature key_type).
Proof.
  apply guarded_method. unfold _get_pub_key, raw_signature. sound_tac.
Qed.

Lemma guarded_delete_keypair key_label key_type :
  guarded (delete_keypair key_label key_type).
Proof. apply guarded_method. sound_tac. Qed.

Lemma guarded_public_key_data key_label key_type :
  guarded (public_key_data key_label key_type).
Proof. apply guarded_method. unfold _get_pub_key. sound_tac. Qed.

Lemma guarded__sign key_label data verify_signature mechanism key_type :
  forall w,
    lock (self w) = false -> deadline w = None ->
    exists rh w1 probes own,
      healthy_session false (acquired w) = (rh, w1)
      /\ (_sign key_label data verify_signature mechanism key_type w).1 <> Pending
      /\ trace (_sign key_label data verify_signature mechanism key_type w).2 =
         trace w ++ EvAcquire :: EvHealthy :: probes ++ own ++ [EvRelease]
      /\ Forall (fun e => is_lock_event e = false) (probes ++ own)
      /\ lock (self (_sign key_label data verify_signature mechanism key_type w).2)
         = false
      /\ (forall e, rh = Raise e ->
          own = [] /\
          (_sign key_label data verify_signature mechanism key_type w).1 = Raise e)
      /\ (support_recreate_session (self w) = true -> rh = Return tt ->
          _session_status (self w1) = 0 /\ EvThread false ∈ probes)
      /\ (support_recreate_session (self w) = false ->
          rh = Return tt /\ probes = []).
Proof.
  unfold _sign. apply guarded_async_lock. unfold _get_pub_key. sound_tac.
Qed.

Lemma guarded_sign key_label data verify_signature key_type :
  guarded (sign key_label data verify_signature key_type).
Proof.
  intros w Hb Hl Hd. unfold sign. rewrite ask_bind, Hb.
  destruct (mech_and_data key_type data) as [mech data'].
  rewrite bind_run.
  destruct (guarded__sign key_label data' verify_signature mech key_type w Hl Hd)
    as (rh & w1 & probes & own & Hh & Hnp & Ht & Hev & Hlk & Hraise & Hon & Hoff).
  exists rh, w1, probes, own. split; [done|].
  destruct (_sign key_label data' verify_signature mech key_type w)
    as [[sg|e|] w2]; simpl in *; [| | done].
  - destruct (is_in key_type _); simpl;
      (do 4 (split; [done|])); (split; [| by split]);
      intros e' He; by destruct (Hraise e' He).
  - do 4 (split; [done|]). split; [| by split].
    intros e' He. by destruct (Hraise e' He).
Qed.

End Methods.


(** ** Several tasks, one lock

    A schedule is the order in which the events of several tasks
    happen; each event is tagged with the task it belongs to. *)
Definition Schedule : Type := list (nat * Event).

(** What the lock itself guarantees: [acquire] returns only while the
    lock is free. *)
Fixpoint lock_respected (held : bool) (s : Schedule) : bool :=
  match s with
  | [] => true
  | (_, EvAcquire) :: s' => negb held && lock_respected true s'
  | (_, EvRelease) :: s' => lock_respected false s'
  | _ :: s' => lock_respected held s'
  end.

(** The events of one task, in order. *)
Definition of_task (i : nat) (s : Schedule) : list Event :=
  map snd (List.filter (fun x => bool_decide (fst x = i)) s).

(** What the methods guarantee of one task: it calls into the token
    only between an acquire and the release that follows it. *)
Fixpoint well_locked (inside : bool) (evs : list Event) : bool :=
  match evs with
  | [] => true
  | EvAcquire :: evs' => negb inside && well_locked true evs'
  | EvRelease :: evs' => inside && well_locked false evs'
  | e :: evs' => (inside || negb (touches_token e)) && well_locked inside evs'
  end.

(** The conclusion: replaying the schedule, the lock has at most one
    holder at any time, it is released by its holder, and every call
    into the token is made by the holder. *)
Fixpoint exclusive (holder : option nat) (s : Schedule) : bool :=
  match s with
  | [] => true
  | (i, EvAcquire) :: s' =>
      bool_decide (holder = None) && exclusive (Some i) s'
  | (i, EvRelease) :: s' =>
      bool_decide (holder = Some i) && exclusive None s'
  | (i, e) :: s' =>
      (bool_decide (holder = Some i) || negb (touches_token e))
      && exclusive holder s'
  end.

Lemma of_task_cons_same i e s : of_task i ((i, e) :: s) = e :: of_task i s.
Proof. unfold of_task. simpl. by rewrite bool_decide_eq_true_2. Qed.

Lemma of_task_cons_other i j e s : j <> i -> of_task i ((j, e) :: s) = of_task i s.
Proof. intros Hne. unfold of_task. simpl. by rewrite bool_decide_eq_false_2. Qed.

Lemma exclusive_from (s : Schedule) : forall holder,
  lock_respected (bool_decide (is_Some holder)) s = true ->
  (forall i, well_locked (bool_decide (holder = Some i)) (of_task i s) = true) ->
  exclusive holder s = true.
Proof.
  induction s as [|[i e] s IH]; intros holder Hlock Htasks; [done|].
  pose proof (Htasks i) as Hi. rewrite of_task_cons_same in Hi.
  assert (forall j, j <> i ->
            well_locked (bool_decide (holder = Some j)) (of_task j s) = true)
    as Hothers.
  { intros j Hne. specialize (Htasks j).
    by rewrite of_task_cons_other in Htasks. }
  destruct e; simpl in Hlock, Hi |- *;
    try (apply andb_true_iff in Hi as [Hin Hi];
         apply andb_true_iff; split;
         [ first [ done | by rewrite orb_false_r in Hin ] |];
         apply IH; [done|]; intros j;
         destruct (decide (j = i)) as [->|Hne]; [done | by apply Hothers]).
  - (* acquire *)
    apply andb_true_iff in Hlock as [Hfree Hlock].
    apply andb_true_iff in Hi as [_ Hi].
    assert (holder = None) as ->.
    { destruct holder; [done | done]. }
    apply andb_true_iff. split; [done|]. apply IH; [done|].
    intros j. destruct (decide (j = i)) as [->|Hne].
    + by rewrite bool_decide_eq_true_2.
    + rewrite bool_decide_eq_false_2 by congruence.
      specialize (Hothers j Hne). by rewrite bool_decide_eq_false_2 in Hothers.
  - (* release *)
    apply andb_true_iff in Hi as [Hin Hi].
    apply bool_decide_eq_true in Hin as ->.
    apply andb_true_iff. split; [by rewrite bool_decide_eq_true_2 |].
    apply IH; [done|].
    intros j. destruct (decide (j = i)) as [->|Hne].
    + by rewrite bool_decide_eq_false_2.
    + rewrite bool_decide_eq_false_2 by done.
      specialize (Hothers j Hne).
      rewrite bool_decide_eq_false_2 in Hothers; [done | congruence].
Qed.

(** The events one guarded method adds keep a task well locked. *)
Lemma well_locked_body (mid rest : list Event) :
  Forall (fun e => is_lock_event e = false) mid ->
  well_locked true (mid ++ EvRelease :: rest) = well_locked false rest.
Proof.
  induction 1 as [|e mid He _ IH]; [done|].
  destruct e; simpl in *; done.
Qed.

Lemma well_locked_method (probes own rest : list Event) :
  Forall (fun e => is_lock_event e = false) (probes ++ own) ->
  well_locked false
    ((EvAcquire :: EvHealthy :: probes ++ own ++ [EvRelease]) ++ rest)
  = well_locked false rest.
Proof.
  intros Hev. simpl.
  rewrite app_assoc, <- app_assoc. simpl.
  by apply well_locked_body.
Qed.

(** What the claim says every call observes: by the time the method's
    own work starts, a probe thread has run in this very call and has
    left [_session_status] at 0. *)
Definition freshly_validated `{Externals} (w : World) : Prop :=
  forall rh w1,
    healthy_session false (acquired w) = (rh, w1) -> rh = Return tt ->
    _session_status (self w1) = 0 /\ EvThread false ∈ added w w1.



End Locking.

(* ================================================================== *)
(** * Running the methods on a healthy session *)
(* ================================================================== *)

Module Runs.
Import Pkcs11 Handle Health.

(** A world in which calls are answered: no thread is being joined and
    the token does not fault. *)
Definition calm (w : World) : Prop := deadline w = None /\ faultless w.

Lemma calm_answered e w : calm w -> calm (answered e w).
Proof. intros [Hd Hf]. split; [done | by apply faultless_answered]. Qed.

Lemma calm_set_token t w : calm w -> calm (set_token t w).
Proof. by intros [Hd Hf]. Qed.

Lemma calm_call {A} e (op : Token -> Outcome A * Token) w :
  calm w ->
  call e op w = (fst (op (token w)), set_token (snd (op (token w))) (answered e w)).
Proof.
  intros [Hd Hf]. rewrite (call_run e op w Hd).
  by rewrite (faultless_head w Hf).
Qed.

Section Runs.
Context `{Externals}.

Lemma get_key_run kt cls label w :
  calm w ->
  session_get_key kt cls label w =
  (get_key kt cls label (token w), answered (EvGetKey kt cls label) w).
Proof. intros Hc. unfold session_get_key. by rewrite calm_call. Qed.

Lemma generate_run kt bits params label w :
  calm w ->
  session_generate_keypair kt bits params label w =
  (Return (generate_keypair kt bits params label
             (C_GenerateKeyPair kt bits params (next_handle (token w)))
             (token w)).1,
   set_token
     (generate_keypair kt bits params label
        (C_GenerateKeyPair kt bits params (next_handle (token w)))
        (token w)).2
     (answered (EvGenerate kt label) w)).
Proof. intros Hc. unfold session_generate_keypair. by rewrite calm_call. Qed.

Lemma destroy_run o w :
  calm w ->
  object_destroy o w =
  (Return tt, set_token (destroy o (token w)) (answered (EvDestroy (handle o)) w)).
Proof. intros Hc. unfold object_destroy. by rewrite calm_call. Qed.

Lemma sign_run key data mech w :
  calm w ->
  key_sign key data mech w =
  (Return (C_Sign key mech data), answered (EvSign (handle key) mech data) w).
Proof. intros Hc. unfold key_sign. by rewrite calm_call. Qed.

Lemma verify_run key data sg mech w :
  calm w ->
  key_verify key data sg mech w =
  (Return (C_Verify key mech data sg),
   answered (EvVerify (handle key) mech data sg) w).
Proof. intros Hc. unfold key_verify. by rewrite calm_call. Qed.

(** The world the health probe hands over to the method's own work. *)
Lemma after_healthy w rh w1 :
  healthy_session false (acquired w) = (rh, w1) ->
  deadline w1 = deadline w
  /\ grows (token w) (token w1)
  /\ lock (self w1) = true
  /\ base_url (self w1) = base_url (self w).
Proof.
  intros Hh.
  destruct (sound_healthy_session false (acquired w)) as [[a b c d e f g h] _].
  rewrite Hh in *. simpl in *. done.
Qed.

Lemma locked_run {A} (rest : M A) w w1 :
  lock (self w) = false ->
  healthy_session false (acquired w) = (Return tt, w1) ->
  async_lock (healthy_session false ;; rest) w =
  match rest w1 with
  | (Pending, w2) => (Pending, w2)
  | (r, w2) => (r, released w2)
  end.
Proof.
  intros Hl Hh. rewrite (async_lock_run _ w Hl), bind_run, Hh.
  by destruct (rest w1) as [[a|e|] w2].
Qed.

(** A method whose health probe passes is its own work, run on the
    world the probe leaves, followed by the release of the lock. *)
Lemma method_run {A} (remote_branch rest : M A) w w1 :
  base_url (self w) = None -> lock (self w) = false ->
  healthy_session false (acquired w) = (Return tt, w1) ->
  (w ← ask ;
   if base_url (self w) is Some _ then remote_branch
   else async_lock (healthy_session false ;; rest)) w =
  match rest w1 with
  | (Pending, w2) => (Pending, w2)
  | (r, w2) => (r, released w2)
  end.
Proof.
  intros Hb Hl Hh. rewrite ask_bind, Hb, (async_lock_run _ w Hl), bind_run, Hh.
  by destruct (rest w1) as [[a|e|] w2].
Qed.

End Runs.

End Runs.

(* ================================================================== *)
(** * Key pairs: create, read back, delete *)
(* ================================================================== *)

Module Keys.
Import Pkcs11 Handle Health Runs.

(** [o] is a key of class [cls] and device key type [kt] under [label]. *)
Definition stored_as (cls : ObjectClass) (kt : KeyType) (label : string)
    (o : Object) : Prop :=
  CLASS o = cls /\ KEY_TYPE o = Some kt /\ LABEL o = label.

Lemma matches_key_template kt cls label o :
  matches (key_template kt cls label) o = true <-> stored_as cls kt label o.
Proof.
  unfold matches, key_template, stored_as, agrees. simpl.
  rewrite andb_true_r, !andb_true_iff, !bool_decide_eq_true.
  split; [intros [[? ?] ?] | intros (? & ? & ?)]; repeat split; congruence.
Qed.

Lemma get_objects_present kt cls label o t :
  o ∈ objects t -> stored_as cls kt label o ->
  get_objects (key_template kt cls label) t <> [].
Proof.
  intros Hin Hst Hnil. unfold get_objects in Hnil.
  assert (In o (List.filter (matches (key_template kt cls label)) (objects t))) as Hf.
  { apply List.filter_In. split; [by apply list_elem_of_In |].
    by apply matches_key_template. }
  rewrite Hnil in Hf. destruct Hf.
Qed.

Lemma get_key_present kt cls label t :
  get_objects (key_template kt cls label) t <> [] ->
  (exists o, get_key kt cls label t = Return o)
  \/ get_key kt cls label t = Raise MultipleObjectsReturned.
Proof.
  unfold get_key. destruct (get_objects _ t) as [|o [|o' l]]; [done | eauto | eauto].
Qed.

Lemma get_key_absent kt cls label t :
  get_objects (key_template kt cls label) t = [] ->
  get_key kt cls label t = Raise NoSuchKey.
Proof. unfold get_key. by intros ->. Qed.

Lemma grows_elem t t' o : grows t t' -> o ∈ objects t -> o ∈ objects t'.
Proof.
  intros (_ & _ & extra & -> & _) Hin. apply elem_of_app. by left.
Qed.

Section Keys.
Context `{Externals}.

(** The modulus size and the curve parameters [create_keypair] asks
    for, by key type. *)
Definition key_bits (key_type : KEYTYPES) : Z :=
  if is_in key_type [RSA2048; RSA4096] then modulus_bits key_type else 0.

Definition key_params (key_type : KEYTYPES) : bytes :=
  if is_in key_type [RSA2048; RSA4096] then []
  else if is_in key_type [ED25519; ED448] then
    encode_named_curve_parameters (dotted (value key_type))
  else encode_named_curve_parameters (value key_type).

(** The pair of objects a token [t] makes for [create_keypair]. *)
Definition new_pair (key_label : string) (key_type : KEYTYPES) (t : Token)
  : Object * Object :=
  (generate_keypair (family key_type) (key_bits key_type) (key_params key_type)
     key_label
     (C_GenerateKeyPair (family key_type) (key_bits key_type)
        (key_params key_type) (next_handle t)) t).1.

Lemma generate_eq key_label key_type :
  generate key_label key_type =
  ('(key_pub, _) ← session_generate_keypair (family key_type)
                     (key_bits key_type) (key_params key_type) key_label ;
   mret key_pub).
Proof. by destruct key_type. Qed.

Lemma create_keypair_present key_label key_type w w1 :
  base_url (self w) = None -> lock (self w) = false -> deadline w = None ->
  healthy_session false (acquired w) = (Return tt, w1) ->
  faultless w1 ->
  (exists o, o ∈ objects (token w)
             /\ stored_as PUBLIC_KEY (KEY_TYPE_VALUES key_type) key_label o) ->
  create_keypair key_label key_type w =
  (Raise MultipleObjectsReturned,
   released (answered (EvGetKey (KEY_TYPE_VALUES key_type) PUBLIC_KEY key_label) w1)).
Proof.
  intros Hb Hl Hd Hh Hf (o & Hin & Hst).
  destruct (after_healthy w _ w1 Hh) as (Hd1 & Hg & _ & _).
  assert (calm w1) as Hc by (split; [congruence | done]).
  unfold create_keypair. rewrite (method_run _ _ w w1 Hb Hl Hh).
  rewrite bind_run. unfold try_except, must_be_absent, _get_pub_key.
  rewrite bind_run, (get_key_run _ _ _ w1 Hc).
  destruct (get_key_present (KEY_TYPE_VALUES key_type) PUBLIC_KEY key_label (token w1))
    as [[o' ->] | ->]; [| done | done].
  eapply get_objects_present; [| exact Hst]. by eapply grows_elem.
Qed.

Lemma create_keypair_absent key_label key_type w w1 :
  base_url (self w) = None -> lock (self w) = false -> deadline w = None ->
  healthy_session false (acquired w) = (Return tt, w1) ->
  faultless w1 ->
  get_objects (key_template (KEY_TYPE_VALUES key_type) PUBLIC_KEY key_label)
    (token w1) = [] ->
  (create_keypair key_label key_type w).1 =
    Return (_public_key_data (new_pair key_label key_type (token w1)).1 key_type)
  /\ objects (token (create_keypair key_label key_type w).2) =
     objects (token w1) ++ [ (new_pair key_label key_type (token w1)).1;
                             (new_pair key_label key_type (token w1)).2 ].
Proof.
  intros Hb Hl Hd Hh Hf Hnone.
  destruct (after_healthy w _ w1 Hh) as (Hd1 & Hg & _ & _).
  assert (calm w1) as Hc by (split; [congruence | done]).
  unfold create_keypair. rewrite (method_run _ _ w w1 Hb Hl Hh).
  rewrite bind_run. unfold try_except, must_be_absent, _get_pub_key.
  rewrite bind_run, (get_key_run _ _ _ w1 Hc), (get_key_absent _ _ _ _ Hnone).
  rewrite generate_eq, bind_run, generate_run by by apply calm_answered.
  done.
Qed.


(** Whatever lib.py's table is, it cannot make [create_keypair] both
    detect a second RSA-4096 key under a label and let an RSA-4096 key
    be created next to an RSA-2048 key under the same label: both keys
    are stored with [KeyType.RSA]. *)
Definition rsa_pair (bits : Z) : list Object :=
  [ {| handle := 1; CLASS := PUBLIC_KEY; KEY_TYPE := Some RSA; LABEL := "k";
       key_length := bits; EC_PARAMS := []; VALUE := [x04; x01] |};
    {| handle := 2; CLASS := PRIVATE_KEY; KEY_TYPE := Some RSA; LABEL := "k";
       key_length := bits; EC_PARAMS := []; VALUE := [x05; x01] |} ].

Definition rsa_world (bits : Z) : World :=
  Demo.world false
    {| token_label := "my_test_token_1"; user_pin := "1234";
       objects := rsa_pair bits; next_handle := 3; sessions := 1 |} [].

Lemma no_table_tells_rsa_sizes_apart :
  ~ ((create_keypair "k" RSA4096 (rsa_world 4096)).1 = Raise MultipleObjectsReturned
     /\ exists r, (create_keypair "k" RSA4096 (rsa_world 2048)).1 = Return r).
Proof.
  intros [Hdup [r Hnew]].
  assert (forall bits,
            healthy_session false (acquired (rsa_world bits)) =
            (Return tt, log EvHealthy (acquired (rsa_world bits)))) as Hh.
  { intros bits. by apply healthy_session_off. }
  assert (forall bits, faultless (log EvHealthy (acquired (rsa_world bits)))) as Hf.
  { intros bits. by constructor. }
  destruct (KEY_TYPE_VALUES RSA4096) eqn:Hkv.
  - rewrite (create_keypair_present "k" RSA4096 (rsa_world 2048) _
               eq_refl eq_refl eq_refl (Hh 2048) (Hf 2048)) in Hnew; [done|].
    eexists. split; [apply list_elem_of_here |]. by rewrite Hkv.
  - destruct (create_keypair_absent "k" RSA4096 (rsa_world 4096) _
                eq_refl eq_refl eq_refl (Hh 4096) (Hf 4096)) as [Hr _];
      [by rewrite Hkv | congruence].
  - destruct (create_keypair_absent "k" RSA4096 (rsa_world 4096) _
                eq_refl eq_refl eq_refl (Hh 4096) (Hf 4096)) as [Hr _];
      [by rewrite Hkv | congruence].
Qed.

Lemma public_key_data_identifier key_pub key_type :
  (_public_key_data key_pub key_type).2 = Sha1.sha1 (VALUE key_pub).
Proof. by destruct key_type. Qed.

Lemma public_key_data_run key_label key_type w w1 key_pub :
  base_url (self w) = None -> lock (self w) = false -> deadline w = None ->
  healthy_session false (acquired w) = (Return tt, w1) ->
  faultless w1 ->
  get_key (KEY_TYPE_VALUES key_type) PUBLIC_KEY key_label (token w1) = Return key_pub ->
  public_key_data key_label key_type w =
  (Return (_public_key_data key_pub key_type),
   released (answered (EvGetKey (KEY_TYPE_VALUES key_type) PUBLIC_KEY key_label) w1)).
Proof.
  intros Hb Hl Hd Hh Hf Hk.
  destruct (after_healthy w _ w1 Hh) as (Hd1 & _).
  assert (calm w1) as Hc by (split; [congruence | done]).
  unfold public_key_data. rewrite (method_run _ _ w w1 Hb Hl Hh).
  unfold _get_pub_key. by rewrite bind_run, (get_key_run _ _ _ w1 Hc), Hk.
Qed.

(** C4.  For every key type, on a session the probe finds healthy and a
    token that answers: the second component [create_keypair] returns
    is the SHA-1 digest of the encoded public key ([VALUE]) of the
    public key object it has just stored, and the second component
    [public_key_data] returns is the SHA-1 digest of the encoded public
    key of the object stored under the label. *)
Theorem key_identifier_is_sha1 key_label key_type w w1 :
  base_url (self w) = None -> lock (self w) = false -> deadline w = None ->
  healthy_session false (acquired w) = (Return tt, w1) ->
  faultless w1 ->
  (get_objects (key_template (KEY_TYPE_VALUES key_type) PUBLIC_KEY key_label)
     (token w1) = [] ->
   exists pem,
     (create_keypair key_label key_type w).1 =
       Return (pem, Sha1.sha1 (VALUE (new_pair key_label key_type (token w1)).1))
     /\ (new_pair key_label key_type (token w1)).1
          ∈ objects (token (create_keypair key_label key_type w).2))
  /\ (forall key_pub,
        get_key (KEY_TYPE_VALUES key_type) PUBLIC_KEY key_label (token w1)
          = Return key_pub ->
        exists pem,
          (public_key_data key_label key_type w).1 =
            Return (pem, Sha1.sha1 (VALUE key_pub))).
Proof.
  intros Hb Hl Hd Hh Hf. split.
  - intros Hnone.
    destruct (create_keypair_absent key_label key_type w w1 Hb Hl Hd Hh Hf Hnone)
      as [Hr Ho].
    exists (_public_key_data (new_pair key_label key_type (token w1)).1 key_type).1.
    split.
    + rewrite Hr, <- (public_key_data_identifier _ key_type).
      by rewrite <- surjective_pairing.
    + rewrite Ho. apply elem_of_app. right. apply list_elem_of_here.
  - intros key_pub Hk.
    rewrite (public_key_data_run key_label key_type w w1 key_pub Hb Hl Hd Hh Hf Hk).
    exists (_public_key_data key_pub key_type).1. cbn [fst].
    rewrite <- (public_key_data_identifier _ key_type).
    by rewrite <- surjective_pairing.
Qed.

Lemma call_trace {A} e (op : Token -> Outcome A * Token) w :
  trace (call e op w).2 = trace w ++ [e].
Proof.
  unfold call, mbind, M_bind, emit, modify, next_response, wait, raise. cbn.
  destruct (script w) as [|r rest]; cbn;
    destruct (deadline w) as [t|]; cbn;
    repeat match goal with
           | |- context [if ?b then _ else _] => destruct b; cbn
           | |- context [let '(_, _) := ?x in _] => destruct x; cbn
           end; reflexivity.
Qed.

(** The [finally] block of [delete_keypair] logs its lookup of the
    private key whatever world it starts in. *)
Lemma delete_private_is_attempted key_label key_type w :
  exists evs,
    trace ((key ← session_get_key (KEY_TYPE_VALUES key_type) PRIVATE_KEY key_label ;
            object_destroy key) w).2 =
    trace w ++ EvGetKey (KEY_TYPE_VALUES key_type) PRIVATE_KEY key_label :: evs.
Proof.
  rewrite bind_run. unfold session_get_key.
  pose proof (call_trace
                (EvGetKey (KEY_TYPE_VALUES key_type) PRIVATE_KEY key_label)
                (fun t => (get_key (KEY_TYPE_VALUES key_type) PRIVATE_KEY key_label t, t))
                w) as Ht.
  destruct (call _ _ w) as [[key|e|] w2]; simpl in *;
    [| exists []; done | exists []; done].
  unfold object_destroy. rewrite call_trace, Ht, <- app_assoc. eauto.
Qed.

(** C10.  Once the lock is held and the health probe has passed,
    [delete_keypair] always goes on to look up the private key in order
    to destroy it, whatever became of the public key.  So when the
    public key is missing the call fails with [NoSuchKey] and yet the
    private key is gone; and when the token faults while destroying the
    public key the call fails with [GeneralError], the public key is
    still there and the private key is gone. *)
Theorem delete_keypair_is_not_atomic key_label key_type w w1 :
  base_url (self w) = None -> lock (self w) = false -> deadline w = None ->
  healthy_session false (acquired w) = (Return tt, w1) ->
  EvGetKey (KEY_TYPE_VALUES key_type) PRIVATE_KEY key_label
    ∈ added w1 (delete_keypair key_label key_type w).2
  /\ (forall key_priv,
        faultless w1 ->
        get_key (KEY_TYPE_VALUES key_type) PUBLIC_KEY key_label (token w1)
          = Raise NoSuchKey ->
        get_key (KEY_TYPE_VALUES key_type) PRIVATE_KEY key_label (token w1)
          = Return key_priv ->
        (delete_keypair key_label key_type w).1 = Raise NoSuchKey
        /\ objects (token (delete_keypair key_label key_type w).2)
           = objects (destroy key_priv (token w1)))
  /\ (forall key_pub key_priv l0 l1 rest,
        script w1 = {| latency := l0; fault := false |}
                    :: {| latency := l1; fault := true |} :: rest ->
        Forall (fun r => fault r = false) rest ->
        get_key (KEY_TYPE_VALUES key_type) PUBLIC_KEY key_label (token w1)
          = Return key_pub ->
        get_key (KEY_TYPE_VALUES key_type) PRIVATE_KEY key_label (token w1)
          = Return key_priv ->
        (delete_keypair key_label key_type w).1 = Raise GeneralError
        /\ objects (token (delete_keypair key_label key_type w).2)
           = objects (destroy key_priv (token w1))).
Proof.
  intros Hb Hl Hd Hh.
  destruct (after_healthy w _ w1 Hh) as (Hd1 & _).
  rewrite Hd in Hd1.
  unfold delete_keypair. rewrite (method_run _ _ w w1 Hb Hl Hh).
  split; [| split].
  - unfold try_finally.
    assert (sound not_lock any_change
              (key ← session_get_key (KEY_TYPE_VALUES key_type) PUBLIC_KEY key_label ;
               object_destroy key)) as Hbody by sound_tac.
    assert (sound not_lock any_change
              (key ← session_get_key (KEY_TYPE_VALUES key_type) PRIVATE_KEY key_label ;
               object_destroy key)) as Hfin by sound_tac.
    destruct (Hbody w1) as [[_ _ _ _ Hd2 _ (evs & Ht & _) _] Hnp].
    specialize (Hnp Hd1).
    destruct ((key ← session_get_key (KEY_TYPE_VALUES key_type) PUBLIC_KEY key_label ;
               object_destroy key) w1) as [r w2]; simpl in *.
    destruct (delete_private_is_attempted key_label key_type w2) as (evs' & Ht').
    destruct (Hfin w2) as [_ Hnp'].
    assert (deadline w2 = None) as Hd2' by congruence.
    specialize (Hnp' Hd2').
    destruct ((key ← session_get_key (KEY_TYPE_VALUES key_type) PRIVATE_KEY key_label ;
               object_destroy key) w2) as [r' w3]; simpl in *.
    assert (EvGetKey (KEY_TYPE_VALUES key_type) PRIVATE_KEY key_label
              ∈ added w1 (released w3)) as Hin.
    { unfold added, released. simpl.
      rewrite Ht', Ht, <- !app_assoc, drop_app_length.
      apply elem_of_app. right. apply list_elem_of_here. }
    destruct r as [[]|e|]; [ | | done]; destruct r' as [[]|e'|]; done.
  - intros key_priv Hf Hpub Hpriv.
    assert (calm w1) as Hc by done.
    unfold try_finally.
    rewrite bind_run, (get_key_run _ _ _ w1 Hc), Hpub.
    rewrite bind_run, get_key_run by by apply calm_answered.
    cbn [token answered]. rewrite Hpriv.
    rewrite destroy_run by by do 2 apply calm_answered.
    done.
  - intros key_pub key_priv l0 l1 rest Hs Hrest Hpub Hpriv.
    assert (head_response w1 = {| latency := l0; fault := false |}) as Hr0.
    { unfold head_response. by rewrite Hs. }
    eassert (try_finally _ _ w1 = _) as Hrun; [| rewrite Hrun].
    { unfold try_finally, session_get_key, object_destroy.
      rewrite bind_run, (call_run _ _ w1 Hd1), Hr0. cbn [fault fst snd].
      rewrite Hpub, call_run by done.
      unfold head_response at 1. cbn [script answered set_token]. rewrite Hs.
      cbn [tail fault].
      assert (calm (answered (EvDestroy (handle key_pub))
                      (set_token (token w1)
                         (answered (EvGetKey (KEY_TYPE_VALUES key_type) PUBLIC_KEY key_label)
                            w1)))) as Hc.
      { split; [done|]. unfold faultless. cbn [script answered set_token].
        by rewrite Hs. }
      rewrite bind_run, calm_call by done.
      cbn [fst snd token answered set_token]. rewrite Hpriv.
      rewrite calm_call by (by apply calm_set_token, calm_answered).
      cbn [fst snd]. reflexivity. }
    done.
Qed.

(** ** Signing *)

(** The table of the specification: the mechanism, the bytes handed to
    the token, and what is made of the token's answer, by key type. *)
Definition spec_mechanism (key_type : KEYTYPES) : Mechanism :=
  match key_type with
  | ED25519 | ED448 => EDDSA
  | SECP256r1 | SECP384r1 | SECP521r1 => ECDSA
  | RSA2048 => SHA256_RSA_PKCS
  | RSA4096 => SHA512_RSA_PKCS
  end.

Definition spec_signed_bytes (key_type : KEYTYPES) (data : bytes) : bytes :=
  match key_type with
  | SECP256r1 => sha256 data
  | SECP384r1 => sha384 data
  | SECP521r1 => sha512 data
  | _ => data
  end.

Definition spec_returned (key_type : KEYTYPES) (signature : bytes) : bytes :=
  match key_type with
  | SECP256r1 | SECP384r1 | SECP521r1 =>
      convert_rs_ec_signature signature (value key_type)
  | _ => signature
  end.

Lemma mech_and_data_spec key_type data :
  mech_and_data key_type data =
  (spec_mechanism key_type, spec_signed_bytes key_type data).
Proof. by destruct key_type. Qed.

Lemma sign_returned key_type (signature : bytes) w :
  (if is_in key_type [SECP256r1; SECP384r1; SECP521r1]
   then mret (convert_rs_ec_signature signature (value key_type)) : M bytes
   else mret signature) w = (Return (spec_returned key_type signature), w).
Proof. by destruct key_type. Qed.

(** C5.  On a session the probe finds healthy and a token that answers,
    with the private key stored under the label: [sign] hands the token
    the mechanism and the bytes of the specification's table (EdDSA on
    the data itself for Ed25519 and Ed448; ECDSA on the SHA-256, SHA-384
    or SHA-512 digest for P-256, P-384, P-521; SHA256-RSA-PKCS for
    RSA-2048 and SHA512-RSA-PKCS for RSA-4096, both on the data itself)
    and returns the token's answer, passed through
    [convert_rs_ec_signature] for the three curves and as it is
    otherwise.  With [verify_signature] set, the same call is made and
    the same value returned if the token verifies it. *)
Theorem sign_selects_mechanism key_label data key_type w w1 key_priv :
  base_url (self w) = None -> lock (self w) = false -> deadline w = None ->
  healthy_session false (acquired w) = (Return tt, w1) ->
  faultless w1 ->
  get_key (KEY_TYPE_VALUES key_type) PRIVATE_KEY key_label (token w1)
    = Return key_priv ->
  sign key_label data false key_type w =
    (Return (spec_returned key_type
               (C_Sign key_priv (spec_mechanism key_type)
                  (spec_signed_bytes key_type data))),
     released
       (answered (EvSign (handle key_priv) (spec_mechanism key_type)
                    (spec_signed_bytes key_type data))
          (answered (EvGetKey (KEY_TYPE_VALUES key_type) PRIVATE_KEY key_label)
             w1)))
  /\ (forall key_pub,
        get_key (KEY_TYPE_VALUES key_type) PUBLIC_KEY key_label (token w1)
          = Return key_pub ->
        (sign key_label data true key_type w).1 =
          (if C_Verify key_pub (spec_mechanism key_type)
                (spec_signed_bytes key_type data)
                (C_Sign key_priv (spec_mechanism key_type)
                   (spec_signed_bytes key_type data))
           then Return (spec_returned key_type
                          (C_Sign key_priv (spec_mechanism key_type)
                             (spec_signed_bytes key_type data)))
           else Raise SignatureInvalid)
        /\ EvSign (handle key_priv) (spec_mechanism key_type)
             (spec_signed_bytes key_type data)
             ∈ added w1 (sign key_label data true key_type w).2).
Proof.
  intros Hb Hl Hd Hh Hf Hpriv.
  destruct (after_healthy w _ w1 Hh) as (Hd1 & _).
  assert (calm w1) as Hc by (split; [congruence | done]).
  split.
  - unfold sign. rewrite ask_bind, Hb, mech_and_data_spec. cbv beta iota.
    rewrite bind_run. unfold _sign. rewrite (locked_run _ w w1 Hl Hh).
    rewrite bind_run, (get_key_run _ _ _ w1 Hc), Hpriv.
    rewrite sign_run by by apply calm_answered.
    by rewrite sign_returned.
  - intros key_pub Hpub.
    eassert (sign key_label data true key_type w = _) as Hrun; [| rewrite Hrun].
    { unfold sign. rewrite ask_bind, Hb, mech_and_data_spec. cbv beta iota.
      rewrite bind_run. unfold _sign, _get_pub_key.
      rewrite (locked_run _ w w1 Hl Hh).
      rewrite bind_run, (get_key_run _ _ _ w1 Hc), Hpriv.
      rewrite bind_run, get_key_run by by apply calm_answered.
      cbn [token answered]. rewrite Hpub.
      rewrite bind_run, sign_run by by do 2 apply calm_answered.
      rewrite bind_run, verify_run by by do 3 apply calm_answered.
      reflexivity. }
    destruct (C_Verify key_pub _ _ _); cbn [negb raise mret M_ret fst snd];
      rewrite ?sign_returned; (split; [reflexivity|]);
      unfold added, released; cbn [fst snd trace log set_self answered];
      rewrite <- !app_assoc, drop_app_length; cbn [app];
      rewrite !elem_of_cons; repeat first [left; reflexivity | right].
Qed.

End Keys.

End Keys.

(* ================================================================== *)
(** * root_ca.py *)
(* ================================================================== *)

Module RootCa.
Import Handle.

(** [asn1_x509.BasicConstraints] *)
Record BasicConstraints : Type := {
  ca : bool;
  path_len_constraint : option Z
}.

(** [asn1_x509.KeyUsage], a named bit string: the bits, first bit first. *)
Definition KeyUsage : Type := list bool.

Inductive ExtensionValue : Type :=
| basic_constraints_value (b_c : BasicConstraints)
| key_usage_value (k_u : KeyUsage).

(** [asn1_x509.Extension] *)
Record Extension : Type := {
  extn_id : string;
  critical : bool;
  extn_value : ExtensionValue
}.

(** [asn1_csr.CRIAttribute]: [values] is a SetOfExtensions, each member
    an Extensions sequence. *)
Record CRIAttribute : Type := {
  type : string;
  values : list (list Extension)
}.

(** The bits of [KeyUsage((s1, s2, ...))]: asn1crypto joins the members
    of the tuple into one string of '0' and '1' and drops the trailing
    zeros of a named bit string. *)
Fixpoint bits_of (s : string) : list bool :=
  match s with
  | EmptyString => []
  | String c rest => Ascii.eqb c "1"%char :: bits_of rest
  end.

Fixpoint rstrip_zeros (bits : list bool) : list bool :=
  match bits with
  | [] => []
  | b :: rest =>
      match rstrip_zeros rest with
      | [] => if b then [true] else []
      | rest' => b :: rest'
      end
  end.

Definition KeyUsage_of (value : list string) : KeyUsage :=
  rstrip_zeros (bits_of (String.concat "" value)).

(** The named bits of KeyUsage (RFC 5280, asn1crypto's map). *)
Definition digital_signature : nat := 0.
Definition key_cert_sign : nat := 5.
Definition crl_sign : nat := 6.

Definition has_bit (n : nat) (k_u : KeyUsage) : bool := nth n k_u false.

Section RootCa.
(** [asn1_csr.Name] and its [build], from asn1crypto. *)
Context {Name : Type} (Name_build : list (string * string) -> Name).

(** [asn1_csr.CertificationRequestInfo]; a field not yet set is [None],
    and the attributes not yet set have length 0. *)
Record CertificationRequestInfo : Type := {
  version : option Z;
  subject : option Name;
  subject_pk_info : option PublicKeyInfo;
  attributes : list CRIAttribute
}.

Definition empty_tbs : CertificationRequestInfo :=
  {| version := None; subject := None; subject_pk_info := None;
     attributes := [] |}.

Definition _set_tbs_version (tbs : CertificationRequestInfo)
  : CertificationRequestInfo :=
  {| version := Some 0; subject := subject tbs;
     subject_pk_info := subject_pk_info tbs; attributes := attributes tbs |}.

Definition _set_tbs_subject (tbs : CertificationRequestInfo)
    (subject_name : list (string * string)) : CertificationRequestInfo :=
  {| version := version tbs; subject := Some (Name_build subject_name);
     subject_pk_info := subject_pk_info tbs; attributes := attributes tbs |}.

Definition _set_tbs_subject_pk_info (tbs : CertificationRequestInfo)
    (pk_info : PublicKeyInfo) : CertificationRequestInfo :=
  {| version := version tbs; subject := subject tbs;
     subject_pk_info := Some pk_info; attributes := attributes tbs |}.

(** The tail both setters share: wrap the extension into an
    extension-request attribute and add it to the attributes. *)
Definition add_extension_request (tbs : CertificationRequestInfo)
    (ext : Extension) : CertificationRequestInfo :=
  let exts := [ext] in
  let ses := [exts] in
  let cria := {| type := "1.2.840.113549.1.9.14"; values := ses |} in
  if (length (attributes tbs) =? 0)%nat then
    {| version := version tbs; subject := subject tbs;
       subject_pk_info := subject_pk_info tbs; attributes := [cria] |}
  else
    {| version := version tbs; subject := subject tbs;
       subject_pk_info := subject_pk_info tbs;
       attributes := attributes tbs ++ [cria] |}.

Definition _set_tbs_basic_constraints (tbs : CertificationRequestInfo)
  : CertificationRequestInfo :=
  let b_c := {| ca := true; path_len_constraint := None |} in
  let ext := {| extn_id := "2.5.29.19"; critical := true;
                extn_value := basic_constraints_value b_c |} in
  add_extension_request tbs ext.

Definition _set_tbs_key_usage (tbs : CertificationRequestInfo)
  : CertificationRequestInfo :=
  (* Bit 0, 5 ,6, from left to right *)
  let k_u := KeyUsage_of ["100001100"] in
  let ext := {| extn_id := "2.5.29.15"; critical := true;
                extn_value := key_usage_value k_u |} in
  add_extension_request tbs ext.

Definition _create_tbs (subject_name : list (string * string))
    (pk_info : PublicKeyInfo) : CertificationRequestInfo :=
  let tbs := empty_tbs in
  let tbs := _set_tbs_version tbs in
  let tbs := _set_tbs_subject tbs subject_name in
  let tbs := _set_tbs_subject_pk_info tbs pk_info in
  let tbs := _set_tbs_basic_constraints tbs in
  let tbs := _set_tbs_key_usage tbs in
  tbs.

(** The two attributes the builder adds. *)
Definition basic_constraints_request : CRIAttribute :=
  {| type := "1.2.840.113549.1.9.14";
     values := [[ {| extn_id := "2.5.29.19"; critical := true;
                     extn_value :=
                       basic_constraints_value
                         {| ca := true; path_len_constraint := None |} |} ]] |}.

Definition key_usage_request : CRIAttribute :=
  {| type := "1.2.840.113549.1.9.14";
     values := [[ {| extn_id := "2.5.29.15"; critical := true;
                     extn_value :=
                       key_usage_value
                         [true; false; false; false; false; true; true] |} ]] |}.

Lemma add_extension_request_appends tbs ext :
  attributes (add_extension_request tbs ext) =
  attributes tbs ++ [ {| type := "1.2.840.113549.1.9.14"; values := [[ext]] |} ].
Proof.
  unfold add_extension_request.
  destruct (attributes tbs) as [|a l] eqn:Ha; simpl; by rewrite ?Ha.
Qed.

(** C9.  For every subject name and public key info, the request info
    built by [_create_tbs] has version 0, the subject built from the
    name and the given public key info, and exactly two attributes, both
    PKCS#9 extension requests (1.2.840.113549.1.9.14): the first carries
    Basic Constraints (2.5.29.19), critical, with CA true; the second
    carries Key Usage (2.5.29.15), critical, with exactly the bits
    digitalSignature (0), keyCertSign (5) and cRLSign (6) set.  Each
    setter adds its attribute after the ones already there, whatever
    they are, so neither overwrites the other. *)
Theorem create_tbs_carries_both_requests subject_name pk_info :
  version (_create_tbs subject_name pk_info) = Some 0
  /\ subject (_create_tbs subject_name pk_info) = Some (Name_build subject_name)
  /\ subject_pk_info (_create_tbs subject_name pk_info) = Some pk_info
  /\ attributes (_create_tbs subject_name pk_info) =
     [basic_constraints_request; key_usage_request]
  /\ (forall n, has_bit n (KeyUsage_of ["100001100"]) = true <->
                n = digital_signature \/ n = key_cert_sign \/ n = crl_sign)
  /\ (forall tbs,
        attributes (_set_tbs_basic_constraints tbs) =
          attributes tbs ++ [basic_constraints_request]
        /\ attributes (_set_tbs_key_usage tbs) =
           attributes tbs ++ [key_usage_request]).
Proof.
  do 4 (split; [reflexivity|]). split.
  - intros n. unfold digital_signature, key_cert_sign, crl_sign.
    do 7 (destruct n as [|n]; [vm_compute; intuition (discriminate || auto) |]).
    split; [| lia]. unfold has_bit. vm_compute. by destruct n.
  - intros tbs. split; apply add_extension_request_appends.
Qed.

End RootCa.

End RootCa.

(* ================================================================== *)
(** * The OCSP builders and the OCSP data extractor *)
(* ================================================================== *)

Module Ocsp.
Import Pkcs11 Handle.

(** An OCSP extension as the builder receives it: its identifier
    (dotted) and its value. *)
Record Extension : Type := {
  extn_id : string;
  extn_value : bytes
}.

Definition NONCE : string := "1.3.6.1.5.5.7.48.1.2".

Record CertId : Type := {
  issuer_name_hash : bytes;
  issuer_key_hash : bytes;
  serial_number : Z
}.

Inductive CertStatus : Type :=
| good
| revoked (revocation_time : Z) (revocation_reason : Z)
| unknown.

Record SingleResponse : Type := {
  cert_id : CertId;
  cert_status : CertStatus;
  this_update : Z
}.

Record ResponseData : Type := {
  responder_id : list (string * string);
  produced_at : nat;
  responses : list SingleResponse;
  response_extensions : list Extension
}.

Record BasicOCSPResponse : Type := {
  tbs_response_data : ResponseData;
  signature : bytes
}.

(** [response_bytes] is [None] when the response carries no body. *)
Record OCSPResponse : Type := {
  response_status : Z;
  response_bytes : option BasicOCSPResponse
}.

(** The defined response-status codes: successful, malformed-request,
    internal-error, try-later, sig-required, unauthorized. *)
Definition defined_status (status : Z) : bool :=
  bool_decide (status ∈ [0; 1; 2; 3; 5; 6]).

Fixpoint has_duplicates (ids : list string) : bool :=
  match ids with
  | [] => false
  | i :: rest => bool_decide (i ∈ rest) || has_duplicates rest
  end.

Definition oversized_nonce (e : Extension) : bool :=
  bool_decide (extn_id e = NONCE) && (32 <? length (extn_value e))%nat.

(** The certificate as the extractor sees it once parsed. *)
Record AccessDescription : Type := {
  access_method : string;
  access_location : string
}.

Inductive CertificateExtension : Type :=
| authority_key_identifier (key_identifier : bytes)
| authority_information_access (descriptions : list AccessDescription)
| other_extension (id : string).

Record Certificate : Type := {
  issuer : bytes;                        (* the issuer name, encoded *)
  serial : Z;
  extensions : list CertificateExtension
}.

Definition is_ocsp (d : AccessDescription) : bool :=
  bool_decide (access_method d = "ocsp").

(** The key identifiers of the Authority-Key-Identifier extensions. *)
Definition authority_key_identifiers (cert : Certificate) : list bytes :=
  omap (fun e => match e with
                 | authority_key_identifier k => Some k
                 | _ => None
                 end) (extensions cert).

(** The OCSP locations, one per Authority-Information-Access extension
    that holds an access description with the OCSP method. *)
Definition ocsp_locations (cert : Certificate) : list string :=
  omap (fun e => match e with
                 | authority_information_access ds =>
                     match List.filter is_ocsp ds with
                     | d :: _ => Some (access_location d)
                     | [] => None
                     end
                 | _ => None
                 end) (extensions cert).

Section Ocsp.
Context `{Externals}.
(** The DER encoder of the response data, and the PEM parser of a
    certificate, from asn1crypto. *)
Context (dump_response_data : ResponseData -> bytes).
Context (load_certificate : string -> Exception + Certificate).

(** Modelled from the spec: the OCSP response builder [response] of
    ocsp.py, which is not among the sources (section 4.3).  A status
    code outside the defined enumeration fails with an invalid-argument
    error; a status code other than 0 gives a response with no body
    regardless of the other inputs; for status 0, duplicate extension
    identifiers fail with [DuplicateExtensionException] and a nonce
    value over 32 bytes fails with an invalid-argument error, both
    before anything is signed; otherwise the response data (responder,
    produced-at, responses, extensions) is signed with the given key and
    wrapped. *)
Definition response (key_label : string) (responder : list (string * string))
    (single_responses : list SingleResponse) (status : Z)
    (extra_extensions : list Extension) (key_type : KEYTYPES)
  : M OCSPResponse :=
  if negb (defined_status status) then
    raise (ValueError "Invalid response status")
  else if negb (status =? 0) then
    mret {| response_status := status; response_bytes := None |}
  else if has_duplicates (map extn_id extra_extensions) then
    raise DuplicateExtensionException
  else if existsb oversized_nonce extra_extensions then
    raise (ValueError "Nonce length error")
  else
    w ← ask ;
    let tbs := {| responder_id := responder; produced_at := clock w;
                  responses := single_responses;
                  response_extensions := extra_extensions |} in
    sig ← sign key_label (dump_response_data tbs) false key_type ;
    mret {| response_status := 0;
            response_bytes :=
              Some {| tbs_response_data := tbs; signature := sig |} |}.

(** Modelled from the spec: the extractor [certificate_ocsp_data] of
    ocsp.py, which is not among the sources (section 4.4).  It requires
    exactly one Authority-Key-Identifier extension and exactly one
    Authority-Information-Access extension with an OCSP access
    description, and fails with [DuplicateExtensionException] otherwise;
    the issuer name hash is the SHA-1 of the encoded issuer name, the
    issuer key hash is the key identifier of the Authority-Key-Identifier
    extension, the serial number is read as it is. *)
Definition ocsp_data (cert : Certificate)
  : Exception + (bytes * bytes * Z * string) :=
  match authority_key_identifiers cert, ocsp_locations cert with
  | [key_identifier], [ocsp_url] =>
      inr (Sha1.sha1 (issuer cert), key_identifier, serial cert, ocsp_url)
  | _, _ => inl DuplicateExtensionException
  end.

Definition certificate_ocsp_data (pem : string)
  : Exception + (bytes * bytes * Z * string) :=
  match load_certificate pem with
  | inl e => inl e
  | inr cert => ocsp_data cert
  end.

Lemma has_duplicates_spec (ids : list string) :
  has_duplicates ids = true <-> ~ NoDup ids.
Proof.
  induction ids as [|i rest IH]; simpl.
  - split; [done | intros Hn; destruct Hn; constructor].
  - rewrite orb_true_iff, bool_decide_eq_true, IH, NoDup_cons.
    split.
    + intros [Hin | Hdup] [Hnin Hnd]; auto.
    + intros Hn. destruct (decide (i ∈ rest)) as [Hin | Hnin]; [by left |].
      right. intros Hnd. by apply Hn.
Qed.

Lemma oversized_nonce_found (exts : list Extension) :
  (exists e, e ∈ exts /\ extn_id e = NONCE
             /\ (32 < length (extn_value e))%nat) ->
  existsb oversized_nonce exts = true.
Proof.
  intros (e & Hin & Hid & Hlen). apply existsb_exists. exists e.
  split; [by apply list_elem_of_In |].
  unfold oversized_nonce. rewrite bool_decide_eq_true_2 by done.
  by apply Nat.ltb_lt.
Qed.

(** C6.  Whatever the other arguments: a response status outside
    {0, 1, 2, 3, 5, 6} (4 and 99 among them) makes the builder fail with
    an invalid-argument error, and a status in {1, 2, 3, 5, 6} makes it
    return a response with that status and no body; in both cases
    nothing else happens. *)
Theorem response_status_decides key_label responder single_responses status
    extra_extensions key_type w :
  ((status ∉ [0; 1; 2; 3; 5; 6]) ->
   response key_label responder single_responses status extra_extensions
     key_type w
   = (Raise (ValueError "Invalid response status"), w))
  /\ ((status ∈ [1; 2; 3; 5; 6]) ->
      response key_label responder single_responses status extra_extensions
        key_type w
      = (Return {| response_status := status; response_bytes := None |}, w))
  /\ (4 ∉ [0; 1; 2; 3; 5; 6]) /\ (99 ∉ [0; 1; 2; 3; 5; 6]).
Proof.
  split; [| split; [| split]].
  - intros Hout. unfold response, defined_status.
    by rewrite bool_decide_eq_false_2.
  - intros Hin. unfold response, defined_status.
    rewrite bool_decide_eq_true_2 by (apply elem_of_cons; by right).
    assert ((status =? 0) = false) as ->; [| done].
    apply Z.eqb_neq. intros ->.
    rewrite !elem_of_cons, elem_of_nil in Hin. lia.
  - rewrite !elem_of_cons, elem_of_nil. lia.
  - rewrite !elem_of_cons, elem_of_nil. lia.
Qed.


(** C8, as amended.  For a certificate that parses: unless it has
    exactly one Authority-Key-Identifier extension and exactly one
    Authority-Information-Access extension with an OCSP access
    description, [certificate_ocsp_data] fails with
    [DuplicateExtensionException]; when it has, the call returns the
    SHA-1 of the encoded issuer name, which is 20 bytes long, the key
    identifier of the Authority-Key-Identifier extension as the issuer
    key hash, whatever its length, the serial number, and the OCSP
    location. *)
Theorem certificate_ocsp_data_requires_one_of_each pem cert :
  load_certificate pem = inr cert ->
  ((length (authority_key_identifiers cert) <> 1%nat
    \/ length (ocsp_locations cert) <> 1%nat) ->
   certificate_ocsp_data pem = inl DuplicateExtensionException)
  /\ (forall key_identifier ocsp_url,
        authority_key_identifiers cert = [key_identifier] ->
        ocsp_locations cert = [ocsp_url] ->
        certificate_ocsp_data pem =
          inr (Sha1.sha1 (issuer cert), key_identifier, serial cert, ocsp_url)
        /\ length (Sha1.sha1 (issuer cert)) = 20%nat).
Proof.
  intros Hload. unfold certificate_ocsp_data, ocsp_data. rewrite Hload. split.
  - intros Hnot.
    destruct (authority_key_identifiers cert) as [|k [|k' ks]];
      destruct (ocsp_locations cert) as [|u [|u' us]]; simpl in *;
      try done; by destruct Hnot.
  - intros key_identifier ocsp_url -> ->. split; [done|].
    apply Sha1.sha1_length.
Qed.

End Ocsp.

End Ocsp.

(* ================================================================== *)
(** * The theorems at work on the demonstration token *)
(* ================================================================== *)

Module Runs_on_demo.
Import Pkcs11 Handle Health Runs Keys Locking.

(** A token that already holds an RSA-2048 pair under "k", session
    recreation off, every call answered; and the world the health probe
    hands over there. *)
Definition w_rsa : World := rsa_world 2048.
Definition w_rsa_probed : World := log EvHealthy (acquired w_rsa).

(** An empty token, session recreation on. *)
Definition w_empty_on : World := Demo.world true Demo.empty_token [].




Lemma key_identifier_is_sha1_witness :
  base_url (self w_rsa) = None /\ lock (self w_rsa) = false
  /\ deadline w_rsa = None
  /\ healthy_session false (acquired w_rsa) = (Return tt, w_rsa_probed)
  /\ faultless w_rsa_probed
  /\ (exists pem,
        (public_key_data "k" RSA2048 w_rsa).1 =
          Return (pem, Sha1.sha1 [x04; x01]))
  /\ (exists pem key_pub,
        (create_keypair "p" SECP256r1 w_rsa).1 =
          Return (pem, Sha1.sha1 (VALUE key_pub))
        /\ key_pub ∈ objects (token (create_keypair "p" SECP256r1 w_rsa).2)).
Proof.
  do 3 (split; [reflexivity |]).
  split; [reflexivity |].
  split; [by constructor |].
  pose proof (key_identifier_is_sha1 "k" RSA2048 w_rsa w_rsa_probed
                eq_refl eq_refl eq_refl eq_refl (Forall_nil_2 _)) as [_ Hread].
  pose proof (key_identifier_is_sha1 "p" SECP256r1 w_rsa w_rsa_probed
                eq_refl eq_refl eq_refl eq_refl (Forall_nil_2 _)) as [Hnew _].
  split; [exact (Hread _ eq_refl) |].
  destruct (Hnew eq_refl) as (pem & Hret & Hin).
  exists pem. eexists. split; [exact Hret | exact Hin].
Defined.

Lemma sign_selects_mechanism_witness :
  base_url (self w_rsa) = None /\ lock (self w_rsa) = false
  /\ deadline w_rsa = None
  /\ healthy_session false (acquired w_rsa) = (Return tt, w_rsa_probed)
  /\ faultless w_rsa_probed
  /\ exists key_priv,
       get_key RSA PRIVATE_KEY "k" (token w_rsa_probed) = Return key_priv
       /\ (sign "k" [x61] false RSA2048 w_rsa).1 =
          Return (C_Sign key_priv SHA256_RSA_PKCS [x61])
       /\ EvSign (handle key_priv) SHA256_RSA_PKCS [x61]
            ∈ trace (sign "k" [x61] false RSA2048 w_rsa).2.
Proof.
  do 3 (split; [reflexivity |]).
  split; [reflexivity |].
  split; [by constructor |].
  eexists. split; [reflexivity |].
  pose proof (sign_selects_mechanism "k" [x61] RSA2048 w_rsa w_rsa_probed _
                eq_refl eq_refl eq_refl eq_refl (Forall_nil_2 _) eq_refl)
    as [Hrun _].
  rewrite Hrun. split; [reflexivity |].
  apply list_elem_of_In. vm_compute. repeat first [left; reflexivity | right].
Defined.

Lemma delete_keypair_is_not_atomic_witness :
  let w := Demo.world false
             {| token_label := "my_test_token_1"; user_pin := "1234";
                objects := drop 1 (rsa_pair 2048); next_handle := 3;
                sessions := 1 |} [] in
  base_url (self w) = None /\ lock (self w) = false /\ deadline w = None
  /\ healthy_session false (acquired w) = (Return tt, log EvHealthy (acquired w))
  /\ objects (token w) <> []
  /\ (delete_keypair "k" RSA2048 w).1 = Raise NoSuchKey
  /\ objects (token (delete_keypair "k" RSA2048 w).2) = [].
Proof.
  intros w.
  do 3 (split; [reflexivity |]).
  split; [reflexivity |].
  split; [done |].
  pose proof (delete_keypair_is_not_atomic "k" RSA2048 w
                (log EvHealthy (acquired w)) eq_refl eq_refl eq_refl eq_refl)
    as (_ & Hmissing & _).
  destruct (Hmissing _ (Forall_nil_2 _) eq_refl eq_refl) as [Hr Ho].
  split; [exact Hr | exact Ho].
Defined.

(** ** OCSP *)

(** A stand-in for the DER encoder of the response data. *)
Definition dump_response_data (tbs : Ocsp.ResponseData) : bytes :=
  flat_map Ocsp.extn_value (Ocsp.response_extensions tbs).

Definition nonce (n : nat) : Ocsp.Extension :=
  {| Ocsp.extn_id := Ocsp.NONCE; Ocsp.extn_value := replicate n x2a |}.

Definition one_good : list Ocsp.SingleResponse :=
  [ {| Ocsp.cert_id := {| Ocsp.issuer_name_hash := []; Ocsp.issuer_key_hash := [];
                          Ocsp.serial_number := 7 |};
       Ocsp.cert_status := Ocsp.good; Ocsp.this_update := 0 |} ].

Lemma response_status_decides_witness :
  (4 ∉ [0; 1; 2; 3; 5; 6]) /\ (1 ∈ [1; 2; 3; 5; 6])
  /\ Ocsp.response dump_response_data "k" [] one_good 4 [] RSA2048 w_rsa
     = (Raise (ValueError "Invalid response status"), w_rsa)
  /\ Ocsp.response dump_response_data "k" [] one_good 1 [] RSA2048 w_rsa
     = (Return {| Ocsp.response_status := 1; Ocsp.response_bytes := None |}, w_rsa).
Proof.
  pose proof (Ocsp.response_status_decides dump_response_data
                "k" [] one_good 4 [] RSA2048 w_rsa) as (Hbad & _ & H4 & _).
  pose proof (Ocsp.response_status_decides dump_response_data
                "k" [] one_good 1 [] RSA2048 w_rsa) as (_ & Hnobody & _).
  assert (1 ∈ [1; 2; 3; 5; 6]) as H1 by apply list_elem_of_here.
  split; [exact H4 |]. split; [exact H1 |].
  split; [exact (Hbad H4) | exact (Hnobody H1)].
Defined.


(** A parsed certificate with one Authority-Key-Identifier and one
    Authority-Information-Access extension that names an OCSP responder;
    the key identifier is the one of the certificate in the tests. *)
Definition cert_with (key_identifier : bytes) : Ocsp.Certificate :=
  {| Ocsp.issuer := encode "CN=ca-test.sunet.se";
     Ocsp.serial := 440320505043419981128735462508870123525487964711;
     Ocsp.extensions :=
       [ Ocsp.other_extension "2.5.29.15";
         Ocsp.authority_information_access
           [ {| Ocsp.access_method := "ca_issuers";
                Ocsp.access_location := "http://localhost:8000/ca/3a9e" |};
             {| Ocsp.access_method := "ocsp";
                Ocsp.access_location := "http://localhost:8000/ocsp/" |} ];
         Ocsp.authority_key_identifier key_identifier ] |}.

Definition test_key_identifier : bytes :=
  [ xad; xd0; x88; x44; x57; x96; x27; xce; xf4; x22;
    xc6; xc7; x37; x57; xc9; xef; x69; xa4; x5b; x8b ].

Definition load (cert : Ocsp.Certificate) (pem : string)
  : Exception + Ocsp.Certificate := inr cert.

Lemma certificate_ocsp_data_requires_one_of_each_witness :
  load (cert_with test_key_identifier) "PEM" = inr (cert_with test_key_identifier)
  /\ Ocsp.certificate_ocsp_data (load (cert_with test_key_identifier)) "PEM"
     = inr (Sha1.sha1 (encode "CN=ca-test.sunet.se"), test_key_identifier,
            440320505043419981128735462508870123525487964711,
            "http://localhost:8000/ocsp/").
Proof.
  split; [reflexivity |].
  exact (proj1 (proj2 (Ocsp.certificate_ocsp_data_requires_one_of_each
                         (load (cert_with test_key_identifier)) "PEM"
                         (cert_with test_key_identifier) eq_refl)
                  test_key_identifier "http://localhost:8000/ocsp/"
                  eq_refl eq_refl)).
Defined.

(** C8 fails as stated: a certificate whose Authority-Key-Identifier
    holds a key identifier of four bytes has exactly one extension of
    each kind, and the issuer key hash returned for it is four bytes
    long, not twenty. *)
Lemma issuer_key_hash_need_not_be_20_bytes :
  let cert := cert_with [x01; x02; x03; x04] in
  length (Ocsp.authority_key_identifiers cert) = 1%nat
  /\ length (Ocsp.ocsp_locations cert) = 1%nat
  /\ exists name_hash key_hash serial_number ocsp_url,
       Ocsp.certificate_ocsp_data (load cert) "PEM"
         = inr (name_hash, key_hash, serial_number, ocsp_url)
       /\ length name_hash = 20%nat
       /\ length key_hash <> 20%nat.
Proof.
  split; [reflexivity |]. split; [reflexivity |].
  eexists _, _, _, _. split; [reflexivity |].
  split; [apply Sha1.sha1_length | by vm_compute].
Qed.

End Runs_on_demo.
(* ================================================================== *)
(** * The health probe, run by run *)
(* ================================================================== *)

Module Probe.
Import Pkcs11 Handle Health Runs Keys.

(** The three variables [_open_session] reads from the environment. *)
Definition complete (env : gmap string string) : Prop :=
  is_Some (env !! "PKCS11_MODULE") /\ is_Some (env !! "PKCS11_TOKEN")
  /\ is_Some (env !! "PKCS11_PIN").

(** A token that answers every coming call at once and without fault. *)
Definition prompt (w : World) : Prop :=
  Forall (fun r => fault r = false /\ latency r = 0%nat) (script w).

(** No thread is being joined, or the joiner is still waiting. *)
Definition in_time (w : World) : Prop :=
  match deadline w with
  | Some t => (clock w <= t)%nat
  | None => True
  end.

(** What the token holds under the probe's label. *)
Definition sentinel (t : Token) : Outcome Object :=
  get_key RSA PUBLIC_KEY SENTINEL t.

Lemma get_key_objects kt cls label t t' :
  objects t' = objects t -> get_key kt cls label t' = get_key kt cls label t.
Proof. intros Ho. unfold get_key, get_objects. by rewrite Ho. Qed.

Lemma get_key_Return kt cls label t o :
  get_key kt cls label t = Return o ->
  o ∈ objects t /\ stored_as cls kt label o
  /\ get_objects (key_template kt cls label) t = [o].
Proof.
  unfold get_key. destruct (get_objects _ t) as [|o' [|o'' l]] eqn:Hg; try done.
  intros [= ->].
  assert (In o (get_objects (key_template kt cls label) t)) as Hin.
  { rewrite Hg. by left. }
  unfold get_objects in Hin. apply List.filter_In in Hin as [Hin Hm].
  split; [by apply list_elem_of_In |]. split; [by apply matches_key_template | done].
Qed.

(** One call into the token, whatever the token does: it is still
    running when the joiner leaves, or the token faults, or the
    operation is carried out.  The instance and the environment are as
    they were. *)
Lemma call_cases {A} e (op : Token -> Outcome A * Token) w :
  exists w',
    (call e op w = (Pending, w')
     \/ call e op w = (Raise GeneralError, w')
     \/ call e op w = ((op (token w)).1, set_token (op (token w)).2 w'))
    /\ self w' = self w /\ token w' = token w /\ environ w' = environ w
    /\ deadline w' = deadline w /\ trace w' = trace w ++ [e].
Proof.
  unfold call, mbind, M_bind, emit, modify, next_response, wait, raise. cbn.
  destruct (script w) as [|r rest]; cbn;
    destruct (deadline w) as [t|] eqn:Hd; cbn;
    repeat match goal with
           | |- context [if ?b then _ else _] => destruct b; cbn
           end;
    try (destruct (op (token w)) as [o t'] eqn:Hop; cbn);
    eexists; (split; [eauto |]); done.
Qed.

Section Probe.
Context `{Externals}.

(** The block of [_open_session] that reloads the library and opens a
    new session, and the handlers around the body. *)
Definition reload : M unit :=
  _ ← getenv "PKCS11_MODULE" ;
  call EvLib (fun t => (Return tt, t)) ;;
  label ← getenv "PKCS11_TOKEN" ;
  call EvGetToken (fun t => (get_token label t, t)) ;;
  pin ← getenv "PKCS11_PIN" ;
  h ← call EvOpen (open pin) ;
  modify (set_self (with_session (Some h))).

Definition look_up : M unit :=
  _ ← session_get_key RSA PUBLIC_KEY SENTINEL ;
  set_status 0.

Definition handlers (e : Exception) : M unit :=
  match e with
  | NoSuchKey => generate_sentinel
  | GeneralError => mret tt
  | _ => raise e
  end.

Lemma _open_session_eq force sim :
  _open_session force sim =
  ((if sim then wait (TIMEOUT + 1) else mret tt) ;;
   set_status 9 ;;
   try_except
     ( w ← ask ;
       (if force || bool_decide (session (self w) = None) then reload
        else mret tt) ;;
       look_up )
     handlers).
Proof. reflexivity. Qed.

Ltac fin :=
  intros [= <- <-]; cbn in *; repeat split; try (intros ?; split);
  try first [congruence | done].

Ltac on_call H :=
  match goal with
  | |- context [call ?e ?op ?w] =>
      let w' := fresh "w" in
      destruct (call_cases e op w) as (w' & H & ? & ? & ? & ? & ?)
  end.

(** A reload leaves the objects and the status alone; it ends well only
    if the environment is complete, never with [NoSuchKey], and opens
    no session if the environment is not complete. *)
Lemma reload_cases w r w' :
  reload w = (r, w') ->
  objects (token w') = objects (token w)
  /\ _session_status (self w') = _session_status (self w)
  /\ environ w' = environ w
  /\ match r with
     | Return _ => complete (environ w)
     | Raise e => e <> NoSuchKey
     | Pending => True
     end
  /\ (~ complete (environ w) ->
      sessions (token w') = sessions (token w)
      /\ session (self w') = session (self w)).
Proof.
  unfold reload, getenv, complete. rewrite bind_run, ask_bind.
  destruct (environ w !! "PKCS11_MODULE") as [m|] eqn:Hm; cbn; [| by fin].
  rewrite bind_run. on_call Hc. destruct Hc as [-> | [-> | ->]]; [by fin.. |].
  cbn. rewrite bind_run, ask_bind. cbn.
  replace (environ w0) with (environ w) by done.
  destruct (environ w !! "PKCS11_TOKEN") as [label|] eqn:Hl; cbn;
    [| fin; by intros [_ [[] _]]].
  rewrite bind_run. on_call Hc. destruct Hc as [-> | [-> | ->]]; [by fin.. |].
  cbn. unfold get_token. case_bool_decide; cbn; [| by fin].
  rewrite bind_run, ask_bind. cbn in *.
  replace (environ w1) with (environ w) by congruence.
  destruct (environ w !! "PKCS11_PIN") as [pin|] eqn:Hp; cbn;
    [| fin; by intros [_ [_ []]]].
  rewrite bind_run. on_call Hc. destruct Hc as [-> | [-> | ->]]; [by fin.. |].
  cbn. unfold open. case_bool_decide; cbn; [| by fin].
  intros [= <- <-]; cbn in *. repeat split; try congruence; try done.
  all: exfalso; match goal with Hn : ~ _ |- _ => apply Hn; done end.
Qed.

(** The pair of keys the probe generates on a token [t]. *)
Definition sentinel_pair (t : Token) : Object * Object :=
  (generate_keypair RSA 512 [] SENTINEL
     (C_GenerateKeyPair RSA 512 [] (next_handle t)) t).1.

Lemma generate_sentinel_cases w r w' :
  generate_sentinel w = (r, w') ->
  sessions (token w') = sessions (token w)
  /\ session (self w') = session (self w)
  /\ environ w' = environ w
  /\ ((_session_status (self w') = _session_status (self w)
       /\ objects (token w') = objects (token w)
       /\ (r = Pending \/ r = Return tt))
      \/ (r = Return tt /\ _session_status (self w') = 0
          /\ objects (token w') =
             objects (token w) ++ [ (sentinel_pair (token w)).1;
                                    (sentinel_pair (token w)).2 ])).
Proof.
  unfold generate_sentinel, try_except, session_generate_keypair.
  rewrite bind_run. on_call Hc. destruct Hc as [-> | [-> | ->]]; cbn.
  - intros [= <- <-]. repeat split; try congruence. left. split; [congruence|].
    split; [congruence | by left].
  - intros [= <- <-]. repeat split; try congruence. left. split; [congruence|].
    split; [congruence | by right].
  - intros [= <- <-]. cbn. repeat split; try congruence. right. done.
Qed.

Lemma look_up_cases w r w' :
  look_up w = (r, w') ->
  token w' = token w /\ session (self w') = session (self w)
  /\ environ w' = environ w
  /\ ((r = Return tt /\ _session_status (self w') = 0
       /\ exists o, sentinel (token w) = Return o)
      \/ (_session_status (self w') = _session_status (self w)
          /\ (r = Pending \/ r = Raise GeneralError
              \/ exists e, r = Raise e /\ sentinel (token w) = Raise e))).
Proof.
  unfold look_up, session_get_key. rewrite bind_run.
  on_call Hc. destruct Hc as [-> | [-> | ->]]; cbn.
  - intros [= <- <-]. repeat split; try congruence. right. split; [congruence | by left].
  - intros [= <- <-]. repeat split; try congruence. right.
    split; [congruence | right; by left].
  - fold (sentinel (token w)).
    pose proof (get_key_not_pending RSA PUBLIC_KEY SENTINEL (token w)) as Hnp.
    fold (sentinel (token w)) in Hnp.
    destruct (sentinel (token w)) as [o|e|] eqn:Hs; [| | done]; intros [= <- <-]; cbn.
    + repeat split; try congruence. left. eauto.
    + repeat split; try congruence. right. split; [congruence|]. right. right. eauto.
Qed.

Lemma wait_cases d w :
  exists c, wait d w = (Pending, set_clock c w) \/ wait d w = (Return tt, set_clock c w).
Proof.
  unfold wait. destruct (deadline w) as [t|]; [destruct (t <? clock w + d)%nat |];
    eauto.
Qed.

Lemma sentinel_objects t t' :
  objects t' = objects t -> sentinel t' = sentinel t.
Proof. apply get_key_objects. Qed.

(** What every run of [_open_session] from [w] that ends in [w'] with
    outcome [r] satisfies: the environment is as it was; the objects
    are as they were, or the sentinel was missing and one pair of RSA
    keys of 512 bits has been added under its label; the status is 0
    only if the run came back with the sentinel on the token, found or
    made (and, for a forced run, only under a complete environment),
    and it is 9 otherwise; and no session is opened when the environment
    is incomplete, nor by an unforced run that has a session. *)
Definition open_session_post (force : bool) (w : World)
    (r : Outcome unit) (w' : World) : Prop :=
  environ w' = environ w
  /\ (objects (token w') = objects (token w)
      \/ (sentinel (token w) = Raise NoSuchKey
          /\ exists pub priv,
               objects (token w') = objects (token w) ++ [pub; priv]
               /\ stored_as PUBLIC_KEY RSA SENTINEL pub
               /\ stored_as PRIVATE_KEY RSA SENTINEL priv
               /\ key_length pub = 512))
  /\ (r <> Pending -> _session_status (self w') = 0 ->
      r = Return tt
      /\ (exists o, o ∈ objects (token w')
                    /\ stored_as PUBLIC_KEY RSA SENTINEL o)
      /\ sentinel (token w) <> Raise MultipleObjectsReturned
      /\ (force = true \/ session (self w) = None -> complete (environ w)))
  /\ (r <> Pending -> _session_status (self w') <> 0 ->
      _session_status (self w') = 9)
  /\ (~ complete (environ w) \/ (force = false /\ is_Some (session (self w))) ->
      sessions (token w') = sessions (token w)
      /\ session (self w') = session (self w)).

Lemma post_failed force w r w' :
  environ w' = environ w -> objects (token w') = objects (token w) ->
  r = Pending \/ _session_status (self w') = 9 ->
  (~ complete (environ w) \/ (force = false /\ is_Some (session (self w))) ->
   sessions (token w') = sessions (token w)
   /\ session (self w') = session (self w)) ->
  open_session_post force w r w'.
Proof.
  intros He Ho Hs Hn. split; [done|]. split; [by left|].
  split; [| split; [| done]].
  - intros Hr Hz. destruct Hs as [-> | Hs]; [done | congruence].
  - intros Hr Hz. destruct Hs as [-> | Hs]; done.
Qed.

Lemma _open_session_cases force sim w r w' :
  _open_session force sim w = (r, w') -> open_session_post force w r w'.
Proof.
  rewrite _open_session_eq, bind_run.
  assert (exists c,
            (if sim then wait (TIMEOUT + 1) else mret tt) w = (Pending, set_clock c w)
            \/ (if sim then wait (TIMEOUT + 1) else mret tt) w = (Return tt, set_clock c w))
    as (c & [-> | ->]).
  { destruct sim; [apply wait_cases |]. exists (clock w). right. by destruct w. }
  { intros [= <- <-]. apply post_failed; auto. }
  rewrite bind_run. cbn [set_status modify]. unfold try_except.
  rewrite ask_bind, bind_run.
  set (w9 := set_self (with_status 9) (set_clock c w)).
  assert (exists r1 w1,
            (if force || bool_decide (session (self w9) = None)
             then reload else mret tt) w9 = (r1, w1)
            /\ objects (token w1) = objects (token w)
            /\ _session_status (self w1) = 9
            /\ environ w1 = environ w
            /\ match r1 with
               | Return _ =>
                   force = true \/ session (self w) = None -> complete (environ w)
               | Raise e => e <> NoSuchKey
               | Pending => True
               end
            /\ (~ complete (environ w)
                \/ (force = false /\ is_Some (session (self w))) ->
                sessions (token w1) = sessions (token w)
                /\ session (self w1) = session (self w)))
    as (r1 & w1 & -> & Ho1 & Hs1 & He1 & Hr1 & Hn1).
  { destruct (force || bool_decide (session (self w9) = None)) eqn:Hcond.
    - destruct (reload w9) as [r1 w1] eqn:Hr.
      apply reload_cases in Hr as (Ho & Hs & He & Hr & Hn).
      exists r1, w1. split; [done|]. split; [done|]. split; [done|].
      split; [done|]. split; [by destruct r1 |].
      intros [Hc | [-> [h Hh]]]; [by apply Hn |].
      cbn in Hcond. rewrite Hh in Hcond. done.
    - exists (Return tt), w9. split; [done|]. split; [done|]. split; [done|].
      split; [done|]. split; [| done].
      apply orb_false_elim in Hcond as [-> Hsome].
      apply bool_decide_eq_false in Hsome. intros [? | ?]; done. }
  destruct r1 as [[]|e|].
  - destruct (look_up w1) as [r2 w2] eqn:Hl.
    apply look_up_cases in Hl as (Ht2 & Hse2 & He2 & Hl).
    assert (~ complete (environ w)
            \/ (force = false /\ is_Some (session (self w))) ->
            sessions (token w2) = sessions (token w)
            /\ session (self w2) = session (self w)) as Hn2.
    { intros Hc. destruct (Hn1 Hc). split; congruence. }
    assert (sentinel (token w1) = sentinel (token w)) as Hsame
      by by apply sentinel_objects.
    destruct Hl as [(-> & Hst & o & Ho) | (Hst & Hl)].
    + intros [= <- <-]. split; [congruence|]. split; [left; congruence|].
      split; [| split; [done | done]].
      intros _ _. split; [done|]. split; [| split; [congruence | done]].
      apply get_key_Return in Ho as (Hin & Hso & _).
      exists o. split; [congruence | done].
    + destruct Hl as [-> | [-> | (e & -> & Hl)]].
      * intros [= <- <-]. apply post_failed; auto; congruence.
      * intros [= <- <-]. apply post_failed; auto; try congruence.
        right. congruence.
      * destruct (decide (e = NoSuchKey)) as [-> | Hne].
        -- cbn [handlers].
           destruct (generate_sentinel w2) as [r3 w3] eqn:Hg.
           apply generate_sentinel_cases in Hg as (Hss3 & Hse3 & He3 & Hg).
           assert (~ complete (environ w)
                   \/ (force = false /\ is_Some (session (self w))) ->
                   sessions (token w3) = sessions (token w)
                   /\ session (self w3) = session (self w)) as Hn3.
           { intros Hc. destruct (Hn2 Hc). split; congruence. }
           intros [= <- <-].
           destruct Hg as [(Hst3 & Ho3 & Hr3) | (-> & Hst3 & Ho3)].
           ++ apply post_failed; auto; try congruence.
              destruct Hr3 as [-> | ->]; [by left | right; congruence].
           ++ split; [congruence|]. split.
              { right. split; [congruence|].
                eexists _, _. split; [rewrite Ho3; f_equal; congruence |].
                done. }
              split; [| split; [done | done]].
              intros _ _. split; [done|]. split; [| split; [congruence | done]].
              eexists. split; [rewrite Ho3; apply elem_of_app; right;
                               apply list_elem_of_here | done].
        -- assert (handlers e w2 = (Return tt, w2) \/ handlers e w2 = (Raise e, w2))
             as [-> | ->] by (destruct e; auto; done).
           all: intros [= <- <-]; apply post_failed; auto; try congruence.
           all: right; congruence.
  - assert (handlers e w1 = (Return tt, w1) \/ handlers e w1 = (Raise e, w1))
      as [-> | ->] by (destruct e; auto; done).
    all: intros [= <- <-]; apply post_failed; auto.
  - intros [= <- <-]. apply post_failed; auto.
Qed.

(** One attempt of [healthy_session], in terms of the run of
    [_open_session] its thread makes. *)
Lemma probe_cases force sim w :
  exists r w',
    probe force sim w =
      (Return (if r is Pending then true else false), set_deadline (deadline w) w')
    /\ open_session_post force w r w'.
Proof.
  rewrite probe_run. unfold start_join_is_alive.
  destruct (_open_session force sim _) as [r w'] eqn:Hrun.
  apply _open_session_cases in Hrun.
  exists r, w'. split; [by destruct r | exact Hrun].
Qed.

(** An attempt that is found healthy has come back, and the sentinel
    is on the token. *)
Lemma probe_healthy force sim w alive w1 :
  probe force sim w = (Return alive, w1) -> unhealthy alive w1 = false ->
  (exists o, o ∈ objects (token w1) /\ stored_as PUBLIC_KEY RSA SENTINEL o)
  /\ sentinel (token w) <> Raise MultipleObjectsReturned
  /\ (force = true \/ session (self w) = None -> complete (environ w)).
Proof.
  destruct (probe_cases force sim w) as (r & w' & -> & _ & _ & Hok & _).
  intros [= <- <-] Hu. unfold unhealthy in Hu.
  apply orb_false_elim in Hu as [Hr Hs].
  apply negb_false_iff, Z.eqb_eq in Hs. cbn in Hs.
  destruct Hok as (_ & Ho & Hm & Hc); [by destruct r | done | done].
Qed.

(** An attempt changes the objects of the token only by adding the
    sentinel where it was missing. *)
Lemma probe_objects force sim w alive w1 :
  probe force sim w = (Return alive, w1) ->
  environ w1 = environ w
  /\ (objects (token w1) = objects (token w)
      \/ (sentinel (token w) = Raise NoSuchKey
          /\ exists pub priv,
               objects (token w1) = objects (token w) ++ [pub; priv]
               /\ stored_as PUBLIC_KEY RSA SENTINEL pub
               /\ stored_as PRIVATE_KEY RSA SENTINEL priv
               /\ key_length pub = 512))
  /\ (~ complete (environ w) \/ (force = false /\ is_Some (session (self w))) ->
      sessions (token w1) = sessions (token w)
      /\ session (self w1) = session (self w)).
Proof.
  destruct (probe_cases force sim w) as (r & w' & -> & He & Ho & _ & _ & Hn).
  intros [= <- <-]. done.
Qed.

(** X1.  Whatever the token does and whatever the flags are,
    [healthy_session] keeps every object the token holds, as it is and
    in its place, and adds nothing but RSA keys labelled
    test_pkcs11_device_do_not_use; it leaves the lock, the base URL, the
    recreate flag and the environment as they are, takes or releases no
    lock, and lets time only advance. *)
Theorem healthy_session_keeps_the_token (sim : bool) (w : World) :
  (exists extra,
     objects (token (healthy_session sim w).2) = objects (token w) ++ extra
     /\ Forall sentinel_like extra)
  /\ token_label (token (healthy_session sim w).2) = token_label (token w)
  /\ user_pin (token (healthy_session sim w).2) = user_pin (token w)
  /\ lock (self (healthy_session sim w).2) = lock (self w)
  /\ base_url (self (healthy_session sim w).2) = base_url (self w)
  /\ support_recreate_session (self (healthy_session sim w).2)
     = support_recreate_session (self w)
  /\ environ (healthy_session sim w).2 = environ w
  /\ (clock w <= clock (healthy_session sim w).2)%nat
  /\ exists evs, trace (healthy_session sim w).2 = trace w ++ evs
                 /\ Forall (fun e => is_lock_event e = false) evs.
Proof.
  destruct (sound_healthy_session sim w)
    as [[Hb Hf Hl He _ Hc (evs & Ht & Hev) (Htl & Hp & Hg)] _].
  split; [done|]. do 7 (split; [done|]).
  exists evs. split; [done|].
  eapply Forall_impl; [exact Hev|]. intros e. unfold not_lock.
  by destruct (is_lock_event e).
Qed.

Lemma sentinel_multiple_app t t' extra :
  objects t' = objects t ++ extra ->
  sentinel t = Raise MultipleObjectsReturned ->
  sentinel t' = Raise MultipleObjectsReturned.
Proof.
  unfold sentinel, get_key, get_objects. intros ->. rewrite List.filter_app.
  destruct (List.filter _ (objects t)) as [|o [|o' l]]; done.
Qed.

(** X3.  When the token holds more than one RSA public key under the
    sentinel's label, [healthy_session] with session recreation on
    raises [PKCS11UnknownErrorException], whatever else the token does:
    [MultipleObjectsReturned] is caught by neither handler of
    [_open_session], so neither attempt sets the status to 0.  The
    objects of the token are left as they are. *)
Theorem two_sentinels_defeat_the_probe (sim : bool) (w : World) :
  support_recreate_session (self w) = true ->
  sentinel (token w) = Raise MultipleObjectsReturned ->
  (healthy_session sim w).1 = Raise gave_up
  /\ objects (token (healthy_session sim w).2) = objects (token w).
Proof.
  intros Hon Hm. rewrite (healthy_session_on sim w Hon).
  destruct (probe_spec false sim (log EvHealthy w)) as (alive1 & w1 & ? & Hp1 & _).
  rewrite Hp1.
  destruct (probe_objects _ _ _ _ _ Hp1) as (_ & [Ho1 | [Hn _]] & _);
    [| cbn in Hn; congruence].
  cbn in Ho1.
  destruct (unhealthy alive1 w1) eqn:Hu1; [| cbn].
  - destruct (probe_spec true sim w1) as (alive2 & w2 & ? & Hp2 & _).
    rewrite Hp2.
    assert (sentinel (token w1) = Raise MultipleObjectsReturned) as Hm1.
    { by rewrite (sentinel_objects _ _ Ho1). }
    destruct (probe_objects _ _ _ _ _ Hp2) as (_ & [Ho2 | [Hn _]] & _);
      [| congruence].
    destruct (unhealthy alive2 w2) eqn:Hu2; cbn; [split; [done | congruence] |].
    by destruct (probe_healthy _ _ _ _ _ Hp2 Hu2) as (_ & Hnm & _).
  - by destruct (probe_healthy _ _ _ _ _ Hp1 Hu1) as (_ & Hnm & _).
Qed.


(** An attempt under [simulate_pkcs11_timeout] is abandoned at its
    deadline, before it has done anything. *)
Lemma probe_times_out force w :
  probe force true w =
  (Return true, set_clock (clock w + TIMEOUT) (log (EvThread force) w)).
Proof.
  rewrite probe_run. unfold start_join_is_alive.
  rewrite _open_session_eq, bind_run. unfold wait. cbn [deadline set_deadline].
  assert ((clock (log (EvThread force) w) + TIMEOUT
           <? clock (set_deadline (Some (clock (log (EvThread force) w) + TIMEOUT)%nat)
                       (log (EvThread force) w)) + (TIMEOUT + 1))%nat = true) as ->.
  { apply Nat.ltb_lt. unfold TIMEOUT. cbn. lia. }
  unfold set_clock, set_deadline, log, TIMEOUT. cbn. do 2 f_equal. lia.
Qed.

(** X5.  With [simulate_pkcs11_timeout] set and session recreation on,
    [healthy_session] always fails: it starts the unforced and then the
    forced attempt, waits the full [TIMEOUT] for each, so that exactly
    2 * [TIMEOUT] pass, and raises [PKCS11UnknownErrorException],
    whatever the token holds and however fast it would answer. *)
Theorem simulated_timeout_gives_up (w : World) :
  support_recreate_session (self w) = true ->
  (healthy_session true w).1 = Raise gave_up
  /\ clock (healthy_session true w).2 = (clock w + 2 * TIMEOUT)%nat
  /\ List.filter is_thread (added w (healthy_session true w).2)
     = [EvThread false; EvThread true].
Proof.
  intros Hon. rewrite (healthy_session_on true w Hon), !probe_times_out.
  cbn. split; [done|]. split; [unfold TIMEOUT; lia |].
  unfold added. cbn. rewrite <- !app_assoc, drop_app_length. done.
Qed.

(** When [healthy_session] returns with session recreation on, the
    sentinel is on the token. *)
Lemma healthy_session_sentinel sim w w1 :
  support_recreate_session (self w) = true ->
  healthy_session sim w = (Return tt, w1) ->
  exists o, o ∈ objects (token w1) /\ stored_as PUBLIC_KEY RSA SENTINEL o.
Proof.
  intros Hon. rewrite (healthy_session_on sim w Hon).
  destruct (probe_spec false sim (log EvHealthy w)) as (alive1 & wa & ? & Hp1 & _).
  rewrite Hp1. destruct (unhealthy alive1 wa) eqn:Hu1.
  - destruct (probe_spec true sim wa) as (alive2 & wb & ? & Hp2 & _).
    rewrite Hp2. destruct (unhealthy alive2 wb) eqn:Hu2; [done|].
    intros [= <-]. by destruct (probe_healthy _ _ _ _ _ Hp2 Hu2) as (Ho & _).
  - intros [= <-]. by destruct (probe_healthy _ _ _ _ _ Hp1 Hu1) as (Ho & _).
Qed.

Lemma wait_in_time w : in_time w -> wait 0 w = (Return tt, set_clock (clock w + 0) w).
Proof.
  unfold in_time, wait. destruct (deadline w) as [t|]; [| done].
  intros Ht. by assert ((t <? clock w + 0)%nat = false) as ->
    by (apply Nat.ltb_ge; lia).
Qed.

(** A call into a prompt token, made in time, is carried out at once. *)
Lemma prompt_call {A} e (op : Token -> Outcome A * Token) w :
  prompt w -> in_time w ->
  exists w',
    call e op w = ((op (token w)).1, set_token (op (token w)).2 w')
    /\ self w' = self w /\ token w' = token w /\ environ w' = environ w
    /\ deadline w' = deadline w /\ clock w' = clock w
    /\ trace w' = trace w ++ [e] /\ prompt w'.
Proof.
  intros Hp Ht. unfold call. rewrite bind_run. cbn [emit modify].
  rewrite bind_run. unfold next_response. cbn [script log].
  unfold prompt in *.
  destruct (script w) as [|r rest] eqn:Hs.
  - cbn [latency fault]. rewrite bind_run, wait_in_time by done.
    cbn. destruct (op (token w)) as [o t']. eexists.
    split; [reflexivity|]. cbn. rewrite Hs.
    repeat split; try done; lia.
  - inversion Hp as [|? ? [Hf Hl] Hrest]; subst. rewrite Hf, Hl.
    rewrite bind_run, wait_in_time by done.
    cbn. destruct (op (token w)) as [o t']. eexists.
    split; [reflexivity|]. cbn.
    repeat split; try done; lia.
Qed.

(** The unforced attempt on an instance that has a session and a
    token that answers at once. *)
Lemma _open_session_prompt w h :
  session (self w) = Some h -> prompt w -> in_time w ->
  (forall o, sentinel (token w) = Return o ->
     exists w',
       _open_session false false w = (Return tt, w')
       /\ _session_status (self w') = 0 /\ session (self w') = Some h
       /\ token w' = token w
       /\ trace w' = trace w ++ [EvGetKey RSA PUBLIC_KEY SENTINEL])
  /\ (sentinel (token w) = Raise NoSuchKey ->
      exists w',
        _open_session false false w = (Return tt, w')
        /\ _session_status (self w') = 0 /\ session (self w') = Some h
        /\ sessions (token w') = sessions (token w)
        /\ objects (token w') =
           objects (token w) ++ [ (sentinel_pair (token w)).1;
                                  (sentinel_pair (token w)).2 ]
        /\ trace w' = trace w ++ [EvGetKey RSA PUBLIC_KEY SENTINEL;
                                  EvGenerate RSA SENTINEL]).
Proof.
  intros Hse Hp Ht.
  rewrite _open_session_eq, bind_run. cbn [mret M_ret].
  rewrite bind_run. cbn [set_status modify]. unfold try_except.
  rewrite ask_bind, bind_run. cbn [self set_self with_status session].
  rewrite Hse. cbn [orb bool_decide decide_rel]. 
  rewrite bool_decide_eq_false_2 by done. cbn [mret M_ret].
  unfold look_up, session_get_key. rewrite bind_run.
  destruct (prompt_call (EvGetKey RSA PUBLIC_KEY SENTINEL)
              (fun t => (get_key RSA PUBLIC_KEY SENTINEL t, t))
              (set_self (with_status 9) w))
    as (w1 & -> & Hs1 & Ht1 & _ & Hd1 & Hc1 & Htr1 & Hp1); [done | done |].
  cbn [fst snd token set_self]. fold (sentinel (token w)).
  split.
  - intros o ->. eexists. split; [reflexivity|]. cbn in *.
    repeat split; try congruence. by rewrite Hs1.
  - intros ->. cbn [handlers]. unfold generate_sentinel, try_except,
      session_generate_keypair. rewrite bind_run.
    destruct (prompt_call (EvGenerate RSA SENTINEL)
                (fun t =>
                   let '(keys, t') :=
                     generate_keypair RSA 512 [] SENTINEL
                       (C_GenerateKeyPair RSA 512 [] (next_handle t)) t in
                   (Return keys, t'))
                (set_token (token w) w1))
      as (w2 & -> & Hs2 & Ht2 & _ & Hd2 & Hc2 & Htr2 & Hp2).
    { done. }
    { unfold in_time in *. cbn. rewrite Hd1, Hc1. done. }
    cbn. eexists. split; [reflexivity|]. cbn in *.
    rewrite Htr2, Htr1, <- app_assoc. repeat split; try congruence.
    all: by rewrite Hs2, Hs1.
Qed.

(** X2.  With session recreation on, a session open and a token that
    answers at once: if the sentinel is on the token, [healthy_session]
    returns after one attempt that makes one call, the lookup, and
    leaves the token as it is; if the sentinel is missing, the same
    attempt goes on to generate it, so the health check itself writes
    an RSA key pair of 512 bits labelled test_pkcs11_device_do_not_use
    to the token.  In both cases the status is 0 afterwards and no
    session is opened. *)
Theorem probe_finds_or_makes_the_sentinel (w : World) (h : nat) :
  support_recreate_session (self w) = true ->
  session (self w) = Some h ->
  prompt w -> deadline w = None ->
  (forall o, sentinel (token w) = Return o ->
     (healthy_session false w).1 = Return tt
     /\ _session_status (self (healthy_session false w).2) = 0
     /\ session (self (healthy_session false w).2) = Some h
     /\ token (healthy_session false w).2 = token w
     /\ added w (healthy_session false w).2 =
        [EvHealthy; EvThread false; EvGetKey RSA PUBLIC_KEY SENTINEL])
  /\ (sentinel (token w) = Raise NoSuchKey ->
      (healthy_session false w).1 = Return tt
      /\ _session_status (self (healthy_session false w).2) = 0
      /\ session (self (healthy_session false w).2) = Some h
      /\ sessions (token (healthy_session false w).2) = sessions (token w)
      /\ objects (token (healthy_session false w).2) =
         objects (token w) ++ [ (sentinel_pair (token w)).1;
                                (sentinel_pair (token w)).2 ]
      /\ stored_as PUBLIC_KEY RSA SENTINEL (sentinel_pair (token w)).1
      /\ stored_as PRIVATE_KEY RSA SENTINEL (sentinel_pair (token w)).2
      /\ key_length (sentinel_pair (token w)).1 = 512
      /\ added w (healthy_session false w).2 =
         [EvHealthy; EvThread false; EvGetKey RSA PUBLIC_KEY SENTINEL;
          EvGenerate RSA SENTINEL]).
Proof.
  intros Hon Hse Hp Hd.
  rewrite (healthy_session_on false w Hon), probe_run.
  unfold start_join_is_alive.
  destruct (_open_session_prompt
              (set_deadline
                 (Some (clock (log (EvThread false) (log EvHealthy w)) + TIMEOUT)%nat)
                 (log (EvThread false) (log EvHealthy w))) h)
    as [Hfound Hmade]; [done | done | unfold in_time; cbn; lia |].
  split.
  - intros o Ho. destruct (Hfound o Ho) as (w' & -> & Hst & Hs & Ht & Htr).
    unfold unhealthy. cbn. rewrite Hst. cbn.
    do 4 (split; [done|]). apply added_app. cbn. rewrite Htr. cbn.
    by rewrite <- !app_assoc.
  - intros Ho. destruct (Hmade Ho) as (w' & -> & Hst & Hs & Hss & Hob & Htr).
    unfold unhealthy. cbn. rewrite Hst. cbn.
    do 5 (split; [done|]). do 3 (split; [done|]).
    apply added_app. cbn. rewrite Htr. cbn. by rewrite <- !app_assoc.
Qed.

(** The keys the probe makes. *)
Definition sentinel_key (o : Object) : Prop :=
  stored_as PUBLIC_KEY RSA SENTINEL o \/ stored_as PRIVATE_KEY RSA SENTINEL o.

Lemma probe_adds_keys force sim w alive w1 :
  probe force sim w = (Return alive, w1) ->
  exists extra, objects (token w1) = objects (token w) ++ extra
                /\ Forall sentinel_key extra.
Proof.
  intros Hp.
  destruct (probe_objects _ _ _ _ _ Hp)
    as (_ & [Ho | (_ & pub & priv & Ho & Hpub & Hpriv & _)] & _).
  - exists []. by rewrite app_nil_r.
  - exists [pub; priv]. split; [done|].
    constructor; [by left|]. constructor; [by right | done].
Qed.

Lemma healthy_session_adds_keys sim w :
  exists extra,
    objects (token (healthy_session sim w).2) = objects (token w) ++ extra
    /\ Forall sentinel_key extra.
Proof.
  destruct (support_recreate_session (self w)) eqn:Hflag.
  - rewrite (healthy_session_on sim w Hflag).
    destruct (probe_spec false sim (log EvHealthy w)) as (alive1 & w1 & ? & Hp1 & _).
    rewrite Hp1. destruct (probe_adds_keys _ _ _ _ _ Hp1) as (x1 & Ho1 & Hx1).
    cbn in Ho1.
    destruct (unhealthy alive1 w1); [| by exists x1].
    destruct (probe_spec true sim w1) as (alive2 & w2 & ? & Hp2 & _).
    rewrite Hp2. destruct (probe_adds_keys _ _ _ _ _ Hp2) as (x2 & Ho2 & Hx2).
    exists (x1 ++ x2).
    split; [| by apply Forall_app].
    destruct (unhealthy alive2 w2); cbn; by rewrite Ho2, Ho1, app_assoc.
  - rewrite (healthy_session_off sim w Hflag). exists []. by rewrite app_nil_r.
Qed.

(** A search that no sentinel key answers finds the same objects
    before and after the probe. *)
Lemma get_objects_after_probe tpl sim w :
  (forall o, sentinel_key o -> matches tpl o = false) ->
  get_objects tpl (token (healthy_session sim w).2) = get_objects tpl (token w).
Proof.
  intros Hno. destruct (healthy_session_adds_keys sim w) as (extra & Ho & Hx).
  unfold get_objects. rewrite Ho, List.filter_app.
  assert (List.filter (matches tpl) extra = []) as ->; [| by rewrite app_nil_r].
  clear Ho. induction Hx as [|o extra Hk _ IH]; [done|].
  cbn. by rewrite (Hno o Hk).
Qed.

(** The method's own work starts in [w1]: the instance talks to its
    own token, the lock was free, the health probe has passed and left
    [w1], and the token answers the calls that follow. *)
Definition enters (w w1 : World) : Prop :=
  base_url (self w) = None /\ lock (self w) = false /\ deadline w = None
  /\ healthy_session false (acquired w) = (Return tt, w1)
  /\ faultless w1.

Lemma enters_calm w w1 : enters w w1 -> calm w1.
Proof.
  intros (_ & _ & Hd & Hh & Hf).
  destruct (after_healthy w _ w1 Hh) as (Hd1 & _).
  split; [congruence | done].
Qed.

Lemma enters_run {A} (remote_branch rest : M A) w w1 :
  enters w w1 ->
  (w ← ask ;
   if base_url (self w) is Some _ then remote_branch
   else async_lock (healthy_session false ;; rest)) w =
  match rest w1 with
  | (Pending, w2) => (Pending, w2)
  | (r, w2) => (r, released w2)
  end.
Proof. intros (Hb & Hl & _ & Hh & _). by apply method_run. Qed.

Lemma get_objects_run tpl w :
  calm w ->
  session_get_objects tpl w =
  (Return (get_objects tpl (token w)), answered (EvGetObjects tpl) w).
Proof.
  intros Hc. unfold session_get_objects. rewrite calm_call by done.
  by destruct w.
Qed.

Lemma create_object_run o w :
  calm w ->
  session_create_object o w =
  (Return tt,
   set_token (create_object o (token w))
     (answered (EvCreateObject (CLASS o) (LABEL o)) w)).
Proof. intros Hc. unfold session_create_object. by rewrite calm_call. Qed.

End Probe.

End Probe.

(* ================================================================== *)
(** * Certificates: import, export, delete *)
(* ================================================================== *)

Module Certificates.
Import Pkcs11 Handle Health Runs Keys Probe.

(** An object as the token stores it under the handle [h]. *)
Definition placed (h : nat) (o : Object) : Object :=
  {| handle := h; CLASS := CLASS o; KEY_TYPE := KEY_TYPE o; LABEL := LABEL o;
     key_length := key_length o; EC_PARAMS := EC_PARAMS o; VALUE := VALUE o |}.

Lemma create_object_objects o t :
  objects (create_object o t) = objects t ++ [placed (next_handle t) o].
Proof. reflexivity. Qed.

(** [for cert in certs: cert.destroy()] on the token. *)
Definition destroy_all (certs : list Object) (t : Token) : Token :=
  foldl (fun t c => destroy c t) t certs.

Lemma destroy_all_objects certs : forall t,
  objects (destroy_all certs t) =
  List.filter (fun o => negb (bool_decide (handle o ∈ map handle certs)))
    (objects t).
Proof.
  induction certs as [|c certs IH]; intros t.
  - cbn. induction (objects t) as [|o l IHl]; [done|]. cbn.
    rewrite bool_decide_eq_false_2 by apply not_elem_of_nil. cbn. by f_equal.
  - change (destroy_all (c :: certs) t) with (destroy_all certs (destroy c t)).
    rewrite IH. cbn. clear IH.
    induction (objects t) as [|o l IHl]; [done|]. cbn.
    destruct (decide (handle o = handle c)) as [Heq | Hne].
    + rewrite (bool_decide_eq_true_2 (handle o = handle c)) by done. cbn.
      rewrite (bool_decide_eq_true_2 (handle o ∈ handle c :: map handle certs)).
      * cbn. apply IHl.
      * rewrite Heq. apply list_elem_of_here.
    + rewrite (bool_decide_eq_false_2 (handle o = handle c)) by done. cbn.
      destruct (decide (handle o ∈ map handle certs)) as [Hin | Hnin].
      * rewrite !bool_decide_eq_true_2; [| by apply list_elem_of_further | done].
        cbn. apply IHl.
      * rewrite !bool_decide_eq_false_2; [| | done].
        -- cbn. f_equal. apply IHl.
        -- rewrite elem_of_cons. intros [? | ?]; done.
Qed.

Lemma same_handle_same_object (l : list Object) o o' :
  NoDup (map handle l) -> o ∈ l -> o' ∈ l -> handle o = handle o' -> o = o'.
Proof.
  induction l as [|x l IH]; [by rewrite elem_of_nil |].
  cbn. rewrite NoDup_cons, !elem_of_cons. intros [Hx Hl] [-> | Ho] [-> | Ho'] Hh.
  - done.
  - exfalso. apply Hx. rewrite Hh. by apply list_elem_of_fmap_2.
  - exfalso. apply Hx. rewrite <- Hh. by apply list_elem_of_fmap_2.
  - by apply IH.
Qed.

(** On a token whose handles are distinct, destroying the objects a
    search found leaves exactly the objects the search did not find. *)
Lemma destroy_found tpl t :
  NoDup (map handle (objects t)) ->
  objects (destroy_all (get_objects tpl t) t) =
  List.filter (fun o => negb (matches tpl o)) (objects t).
Proof.
  intros Hnd. rewrite destroy_all_objects. unfold get_objects.
  apply List.filter_ext_in. intros o Hin. f_equal.
  apply list_elem_of_In in Hin.
  destruct (matches tpl o) eqn:Hm.
  - apply bool_decide_eq_true_2, list_elem_of_fmap_2, list_elem_of_In.
    apply List.filter_In. split; [by apply list_elem_of_In | done].
  - apply bool_decide_eq_false_2. intros Hh.
    apply list_elem_of_fmap in Hh as (c & Hhc & Hc).
    apply list_elem_of_In, List.filter_In in Hc as [Hc Hmc].
    apply list_elem_of_In in Hc.
    assert (o = c) by by eapply same_handle_same_object. congruence.
Qed.

Section Certificates.
Context `{Externals}.

(** The bytes [import_certificate] decodes: the text, with its PEM
    armour taken off when it has one. *)
Definition der_of (cert_pem : string) : bytes :=
  let data := encode cert_pem in
  if detect data then unarmor data else data.

Definition already_exists : Exception :=
  ValueError "Certificate with that label already exists in the PKCS11 device".

Definition no_such_certificate : Exception :=
  ValueError "No such certificate in the PKCS11 device".

Lemma destroy_each_run certs : forall w,
  calm w ->
  exists w',
    for_each certs object_destroy w = (Return tt, w')
    /\ token w' = destroy_all certs (token w)
    /\ self w' = self w /\ calm w'
    /\ trace w' = trace w ++ map (fun c => EvDestroy (handle c)) certs.
Proof.
  induction certs as [|c certs IH]; intros w Hc.
  - exists w. cbn. rewrite app_nil_r. done.
  - cbn [for_each]. rewrite bind_run, destroy_run by done.
    destruct (IH (set_token (destroy c (token w))
                    (answered (EvDestroy (handle c)) w)))
      as (w' & -> & Ht & Hs & Hc' & Htr).
    { by apply calm_set_token, calm_answered. }
    exists w'. split; [done|]. split; [done|]. split; [done|]. split; [done|].
    rewrite Htr. cbn. by rewrite <- app_assoc.
Qed.

Lemma import_certificate_run cert_pem cert_label w w1 :
  enters w w1 ->
  import_certificate cert_pem cert_label w =
  match get_objects (certificate_template cert_label) (token w1) with
  | [] =>
      (Return tt,
       released
         (set_token
            (create_object
               (with_label cert_label (decode_x509_certificate (der_of cert_pem)))
               (token w1))
            (answered
               (EvCreateObject
                  (CLASS (decode_x509_certificate (der_of cert_pem))) cert_label)
               (answered (EvGetObjects (certificate_template cert_label)) w1))))
  | _ :: _ =>
      (Raise already_exists,
       released (answered (EvGetObjects (certificate_template cert_label)) w1))
  end.
Proof.
  intros Hin. pose proof (enters_calm _ _ Hin) as Hc.
  unfold import_certificate. rewrite (enters_run _ _ w w1 Hin).
  rewrite bind_run, get_objects_run by done.
  destruct (get_objects _ (token w1)) as [|c l]; [| done].
  fold (der_of cert_pem).
  rewrite create_object_run by by apply calm_answered.
  done.
Qed.


Lemma export_certificate_run cert_label w w1 :
  enters w w1 ->
  export_certificate cert_label w =
  (match get_objects (certificate_template cert_label) (token w1) with
   | cert :: _ => Return (decode (armor "CERTIFICATE" (VALUE cert)))
   | [] => Raise no_such_certificate
   end,
   released (answered (EvGetObjects (certificate_template cert_label)) w1)).
Proof.
  intros Hin. pose proof (enters_calm _ _ Hin) as Hc.
  unfold export_certificate. rewrite (enters_run _ _ w w1 Hin).
  rewrite bind_run, get_objects_run by done.
  by destruct (get_objects _ (token w1)) as [|c l].
Qed.


Lemma no_sentinel_is_a_certificate cert_label o :
  sentinel_key o -> matches (certificate_template cert_label) o = false.
Proof.
  unfold matches, certificate_template, agrees. cbn.
  intros [(Hc & _) | (Hc & _)]; rewrite Hc; done.
Qed.


Lemma delete_certificate_run cert_label w w1 :
  enters w w1 ->
  exists w2,
    delete_certificate cert_label w = (Return tt, released w2)
    /\ token w2 =
       destroy_all (get_objects (certificate_template cert_label) (token w1))
         (token w1).
Proof.
  intros Hin. pose proof (enters_calm _ _ Hin) as Hc.
  unfold delete_certificate. rewrite (enters_run _ _ w w1 Hin).
  rewrite bind_run, get_objects_run by done.
  destruct (destroy_each_run
              (get_objects (certificate_template cert_label) (token w1))
              (answered (EvGetObjects (certificate_template cert_label)) w1))
    as (w2 & -> & Ht & _); [by apply calm_answered |].
  by exists w2.
Qed.

(** X9.  Once the probe has passed and with a token that answers:
    [delete_certificate] returns normally whether or not the token
    holds a certificate under the label; afterwards the token holds
    none under it, however many there were, and holds no object it did
    not hold before.  On a token whose handles are distinct it holds
    exactly the objects that are not certificates under that label, in
    their order. *)
Theorem delete_certificate_removes_all cert_label w w1 :
  enters w w1 ->
  (delete_certificate cert_label w).1 = Return tt
  /\ get_objects (certificate_template cert_label)
       (token (delete_certificate cert_label w).2) = []
  /\ (forall o, o ∈ objects (token (delete_certificate cert_label w).2) ->
                o ∈ objects (token w1))
  /\ (NoDup (map handle (objects (token w1))) ->
      objects (token (delete_certificate cert_label w).2) =
      List.filter (fun o => negb (matches (certificate_template cert_label) o))
        (objects (token w1))).
Proof.
  intros Hin.
  destruct (delete_certificate_run cert_label w w1 Hin) as (w2 & -> & Ht).
  cbn [fst snd token released log set_self]. rewrite Ht.
  split; [done|]. split; [| split].
  - unfold get_objects at 1. rewrite destroy_all_objects.
    destruct (List.filter _ (List.filter _ _)) as [|o l] eqn:Hf; [done|].
    assert (In o (o :: l)) as Ho by by left.
    rewrite <- Hf in Ho. apply List.filter_In in Ho as [Ho Hm].
    apply List.filter_In in Ho as [Ho Hh].
    apply negb_true_iff, bool_decide_eq_false in Hh.
    exfalso. apply Hh. apply list_elem_of_fmap_2, list_elem_of_In.
    apply List.filter_In. done.
  - intros o. rewrite destroy_all_objects. intros Ho.
    apply list_elem_of_In, List.filter_In in Ho as [Ho _].
    by apply list_elem_of_In.
  - apply destroy_found.
Qed.

End Certificates.

End Certificates.

(* ================================================================== *)
(** * Key pairs: import, read back, verify, delete, list *)
(* ================================================================== *)

Module KeyPairs.
Import Pkcs11 Handle Health Runs Keys Probe Certificates.

Section KeyPairs.
Context `{Externals}.

(** The objects [import_keypair] hands to the token. *)
Definition imported_public (public_key : bytes) (key_label : string)
    (key_type : KEYTYPES) : Object :=
  with_label key_label (decode_key (family key_type) PUBLIC_KEY public_key).

Definition imported_private (private_key : bytes) (key_label : string)
    (key_type : KEYTYPES) : Object :=
  with_label key_label (decode_key (family key_type) PRIVATE_KEY private_key).

Lemma import_keypair_run public_key private_key key_label key_type w w1 :
  enters w w1 ->
  import_keypair public_key private_key key_label key_type w =
  match get_key (KEY_TYPE_VALUES key_type) PUBLIC_KEY key_label (token w1) with
  | Return _ =>
      (Raise MultipleObjectsReturned,
       released (answered (EvGetKey (KEY_TYPE_VALUES key_type) PUBLIC_KEY key_label) w1))
  | Raise NoSuchKey =>
      (Return tt,
       released
         (set_token
            (create_object (imported_private private_key key_label key_type)
               (create_object (imported_public public_key key_label key_type)
                  (token w1)))
            (answered
               (EvCreateObject
                  (CLASS (imported_private private_key key_label key_type)) key_label)
               (set_token
                  (create_object (imported_public public_key key_label key_type)
                     (token w1))
                  (answered
                     (EvCreateObject
                        (CLASS (imported_public public_key key_label key_type))
                        key_label)
                     (answered
                        (EvGetKey (KEY_TYPE_VALUES key_type) PUBLIC_KEY key_label)
                        w1))))))
  | Raise e =>
      (Raise e,
       released (answered (EvGetKey (KEY_TYPE_VALUES key_type) PUBLIC_KEY key_label) w1))
  | Pending =>
      (Pending, answered (EvGetKey (KEY_TYPE_VALUES key_type) PUBLIC_KEY key_label) w1)
  end.
Proof.
  intros Hin. pose proof (enters_calm _ _ Hin) as Hc.
  unfold import_keypair. rewrite (enters_run _ _ w w1 Hin).
  rewrite bind_run. unfold try_except, must_be_absent, _get_pub_key.
  rewrite !bind_run, (get_key_run _ _ _ w1 Hc).
  destruct (get_key _ _ _ (token w1)) as [o|e|]; [done | | done].
  destruct e; try done.
  fold (imported_public public_key key_label key_type).
  fold (imported_private private_key key_label key_type).
  cbn [mret M_ret].
  rewrite bind_run, create_object_run by by apply calm_answered.
  rewrite create_object_run by by apply calm_set_token, calm_answered, calm_answered.
  done.
Qed.


Lemma create_keypair_run key_label key_type w w1 :
  enters w w1 ->
  get_objects (key_template (KEY_TYPE_VALUES key_type) PUBLIC_KEY key_label)
    (token w1) = [] ->
  create_keypair key_label key_type w =
  (Return (_public_key_data (new_pair key_label key_type (token w1)).1 key_type),
   released
     (set_token
        (generate_keypair (family key_type) (key_bits key_type)
           (key_params key_type) key_label
           (C_GenerateKeyPair (family key_type) (key_bits key_type)
              (key_params key_type) (next_handle (token w1)))
           (token w1)).2
        (answered (EvGenerate (family key_type) key_label)
           (answered (EvGetKey (KEY_TYPE_VALUES key_type) PUBLIC_KEY key_label)
              w1)))).
Proof.
  intros Hin Hnone. pose proof (enters_calm _ _ Hin) as Hc.
  unfold create_keypair. rewrite (enters_run _ _ w w1 Hin).
  rewrite bind_run. unfold try_except, must_be_absent, _get_pub_key.
  rewrite bind_run, (get_key_run _ _ _ w1 Hc), (get_key_absent _ _ _ _ Hnone).
  rewrite generate_eq, bind_run, generate_run by by apply calm_answered.
  done.
Qed.

Lemma no_sentinel_under_another_name kt cls label o :
  label <> SENTINEL \/ kt <> RSA ->
  sentinel_key o -> matches (key_template kt cls label) o = false.
Proof.
  intros Hother Hs. apply not_true_iff_false. intros Hm.
  apply matches_key_template in Hm as (_ & Hk & Hl).
  destruct Hs as [(_ & Hk' & Hl') | (_ & Hk' & Hl')];
    destruct Hother; congruence.
Qed.

(** X11.  Create, then read back: when the table of lib.py gives the
    device key type under which [create_keypair] generates, and the
    label is not the RSA label the health probe keeps for itself,
    [public_key_data] returns for a fresh key pair exactly the PEM text
    and the key identifier that [create_keypair] returned for it,
    whatever the probe of the second call did in between. *)
Theorem create_then_public_key_data key_label key_type w w1 w3 :
  enters w w1 ->
  get_objects (key_template (KEY_TYPE_VALUES key_type) PUBLIC_KEY key_label)
    (token w1) = [] ->
  KEY_TYPE_VALUES key_type = family key_type ->
  key_label <> SENTINEL \/ family key_type <> RSA ->
  healthy_session false (acquired (create_keypair key_label key_type w).2)
    = (Return tt, w3) ->
  faultless w3 ->
  (public_key_data key_label key_type (create_keypair key_label key_type w).2).1
  = (create_keypair key_label key_type w).1.
Proof.
  intros Hin Hnone Htable Hother.
  pose proof Hin as (Hb & Hl & Hd & Hh & Hf).
  destruct (after_healthy w _ w1 Hh) as (Hd1 & _ & _ & Hb1).
  rewrite (create_keypair_run _ _ w w1 Hin Hnone). cbn [fst snd].
  set (w2 := released _). intros Hh3 Hf3.
  assert (base_url (self w2) = None) as Hb2 by (cbn; congruence).
  assert (deadline w2 = None) as Hd2 by (cbn; congruence).
  assert (get_key (KEY_TYPE_VALUES key_type) PUBLIC_KEY key_label (token w3)
          = Return (new_pair key_label key_type (token w1)).1) as Hk.
  { unfold get_key.
    pose proof (get_objects_after_probe
                  (key_template (KEY_TYPE_VALUES key_type) PUBLIC_KEY key_label)
                  false (acquired w2)) as Hsame.
    rewrite Hh3 in Hsame. cbn [snd] in Hsame. rewrite Hsame.
    2:{ intros o. apply no_sentinel_under_another_name. by rewrite Htable. }
    unfold get_objects in *.
    cbn [token acquired released w2 log set_self set_token generate_keypair
           snd with_objects objects].
    rewrite List.filter_app, Hnone. cbn [app List.filter].
    unfold matches, agrees, key_template. cbn. rewrite Htable.
    rewrite !bool_decide_eq_true_2 by done. cbn. done. }
  by rewrite (public_key_data_run key_label key_type w2 w3 _ Hb2 eq_refl Hd2
                Hh3 Hf3 Hk).
Qed.

Lemma create_keypair_refuses key_label key_type w w1 :
  enters w w1 ->
  get_objects (key_template (KEY_TYPE_VALUES key_type) PUBLIC_KEY key_label)
    (token w1) <> [] ->
  create_keypair key_label key_type w =
  (Raise MultipleObjectsReturned,
   released (answered (EvGetKey (KEY_TYPE_VALUES key_type) PUBLIC_KEY key_label) w1)).
Proof.
  intros Hin Hsome. pose proof (enters_calm _ _ Hin) as Hc.
  unfold create_keypair. rewrite (enters_run _ _ w w1 Hin).
  rewrite bind_run. unfold try_except, must_be_absent, _get_pub_key.
  rewrite bind_run, (get_key_run _ _ _ w1 Hc).
  destruct (get_key_present _ _ _ _ Hsome) as [[o ->] | ->]; done.
Qed.

(** X12.  The label test_pkcs11_device_do_not_use is taken: with
    session recreation on, once the health probe has passed, the token
    holds an RSA public key under that label, so [create_keypair] and
    [import_keypair] with that label and a key type that the table of
    lib.py maps to RSA raise [MultipleObjectsReturned] and store
    nothing. *)
Theorem sentinel_label_is_reserved key_type public_key private_key w w1 :
  enters w w1 ->
  support_recreate_session (self w) = true ->
  KEY_TYPE_VALUES key_type = RSA ->
  (exists o, o ∈ objects (token w1) /\ stored_as PUBLIC_KEY RSA SENTINEL o)
  /\ (create_keypair SENTINEL key_type w).1 = Raise MultipleObjectsReturned
  /\ token (create_keypair SENTINEL key_type w).2 = token w1
  /\ (import_keypair public_key private_key SENTINEL key_type w).1
     = Raise MultipleObjectsReturned
  /\ token (import_keypair public_key private_key SENTINEL key_type w).2
     = token w1.
Proof.
  intros Hin Hon Htable.
  pose proof Hin as (_ & _ & _ & Hh & _).
  destruct (healthy_session_sentinel false (acquired w) w1 Hon Hh) as (o & Ho & Hs).
  assert (get_objects (key_template (KEY_TYPE_VALUES key_type) PUBLIC_KEY SENTINEL)
            (token w1) <> []) as Hsome.
  { rewrite Htable. by eapply get_objects_present. }
  split; [eauto|].
  rewrite (create_keypair_refuses _ _ w w1 Hin Hsome).
  rewrite (import_keypair_run _ _ _ _ w w1 Hin).
  destruct (get_key_present _ _ _ _ Hsome) as [[o' ->] | ->]; done.
Qed.

(** ** Verifying *)

(** The three NIST curves, whose signatures are converted. *)
Definition nist (key_type : KEYTYPES) : bool :=
  is_in key_type [SECP256r1; SECP384r1; SECP521r1].

Lemma raw_signature_run key_type signature w :
  raw_signature key_type signature w =
  (if nist key_type then
     match convert_asn1_ec_signature signature (value key_type) with
     | inr converted => Return converted
     | inl IndexError | inl (ValueError _) => Return signature
     | inl e => Raise e
     end
   else Return signature, w).
Proof.
  unfold raw_signature, nist. destruct (is_in key_type _); [| done].
  destruct (convert_asn1_ec_signature _ _) as [[] | c]; done.
Qed.

Lemma verify_run_local key_label data signature key_type w w1 key_pub raw :
  enters w w1 ->
  get_key (KEY_TYPE_VALUES key_type) PUBLIC_KEY key_label (token w1)
    = Return key_pub ->
  (raw_signature key_type signature
     (answered (EvGetKey (KEY_TYPE_VALUES key_type) PUBLIC_KEY key_label) w1)).1
    = Return raw ->
  verify key_label data signature key_type w =
  (Return (C_Verify key_pub (spec_mechanism key_type)
             (spec_signed_bytes key_type data) raw),
   released
     (answered (EvVerify (handle key_pub) (spec_mechanism key_type)
                  (spec_signed_bytes key_type data) raw)
        (answered (EvGetKey (KEY_TYPE_VALUES key_type) PUBLIC_KEY key_label) w1))).
Proof.
  intros Hin Hk Hraw. pose proof (enters_calm _ _ Hin) as Hc.
  unfold verify. rewrite (enters_run _ _ w w1 Hin).
  unfold _get_pub_key. rewrite bind_run, (get_key_run _ _ _ w1 Hc), Hk.
  rewrite bind_run. rewrite raw_signature_run in *. cbn [fst] in Hraw.
  rewrite Hraw, mech_and_data_spec. cbn [fst snd].
  rewrite bind_run, verify_run by by apply calm_answered.
  by destruct (C_Verify _ _ _ _).
Qed.

(** X13.  Once the probe has passed and with a token that answers:
    [verify] fails with [NoSuchKey], before the token is asked to
    verify anything, when the public key is not there.  When it is,
    [verify] returns the token's own verdict, true or false, and never
    raises [SignatureInvalid]: for the Edwards and RSA types on the
    data and the signature as given; for the three NIST curves on the
    digest of the data and on the signature as
    [convert_asn1_ec_signature] converts it, or, when that conversion
    fails with [IndexError] or [ValueError], on the signature as
    given. *)
Theorem verify_returns_the_verdict key_label data signature key_type w w1 :
  enters w w1 ->
  (get_key (KEY_TYPE_VALUES key_type) PUBLIC_KEY key_label (token w1)
     = Raise NoSuchKey ->
   (verify key_label data signature key_type w).1 = Raise NoSuchKey
   /\ added w1 (verify key_label data signature key_type w).2
      = [EvGetKey (KEY_TYPE_VALUES key_type) PUBLIC_KEY key_label; EvRelease])
  /\ (forall key_pub,
        get_key (KEY_TYPE_VALUES key_type) PUBLIC_KEY key_label (token w1)
          = Return key_pub ->
        (nist key_type = false ->
         (verify key_label data signature key_type w).1 =
           Return (C_Verify key_pub (spec_mechanism key_type) data signature))
        /\ (nist key_type = true ->
            forall converted,
              convert_asn1_ec_signature signature (value key_type)
                = inr converted ->
              (verify key_label data signature key_type w).1 =
                Return (C_Verify key_pub ECDSA (hashed key_type data) converted))
        /\ (nist key_type = true ->
            convert_asn1_ec_signature signature (value key_type) = inl IndexError
            \/ (exists msg,
                  convert_asn1_ec_signature signature (value key_type)
                    = inl (ValueError msg)) ->
            (verify key_label data signature key_type w).1 =
              Return (C_Verify key_pub ECDSA (hashed key_type data) signature))).
Proof.
  intros Hin. pose proof (enters_calm _ _ Hin) as Hc. split.
  - intros Hk. unfold verify. rewrite (enters_run _ _ w w1 Hin).
    unfold _get_pub_key. rewrite bind_run, (get_key_run _ _ _ w1 Hc), Hk.
    split; [done|]. apply added_app. cbn. by rewrite <- app_assoc.
  - intros key_pub Hk. split; [| split].
    + intros Hn.
      rewrite (verify_run_local _ _ _ _ w w1 key_pub signature Hin Hk).
      * destruct key_type; done.
      * by rewrite raw_signature_run, Hn.
    + intros Hn converted Hconv.
      rewrite (verify_run_local _ _ _ _ w w1 key_pub converted Hin Hk).
      * destruct key_type; done.
      * by rewrite raw_signature_run, Hn, Hconv.
    + intros Hn Hfail.
      rewrite (verify_run_local _ _ _ _ w w1 key_pub signature Hin Hk).
      * destruct key_type; done.
      * rewrite raw_signature_run, Hn.
        destruct Hfail as [-> | [msg ->]]; done.
Qed.

(** ** Signing *)

Lemma sign_run_local key_label data key_type w w1 key_priv :
  enters w w1 ->
  get_key (KEY_TYPE_VALUES key_type) PRIVATE_KEY key_label (token w1)
    = Return key_priv ->
  sign key_label data false key_type w =
  (Return (spec_returned key_type
             (C_Sign key_priv (spec_mechanism key_type)
                (spec_signed_bytes key_type data))),
   released
     (answered (EvSign (handle key_priv) (spec_mechanism key_type)
                  (spec_signed_bytes key_type data))
        (answered (EvGetKey (KEY_TYPE_VALUES key_type) PRIVATE_KEY key_label)
           w1))).
Proof.
  intros Hin Hk. pose proof (enters_calm _ _ Hin) as Hc.
  pose proof Hin as (Hb & Hl & _ & Hh & _).
  unfold sign. rewrite ask_bind, Hb, mech_and_data_spec. cbv beta iota.
  rewrite bind_run. unfold _sign. rewrite (locked_run _ w w1 Hl Hh).
  rewrite bind_run, (get_key_run _ _ _ w1 Hc), Hk.
  rewrite sign_run by by apply calm_answered.
  by rewrite sign_returned.
Qed.

(** X14.  Sign, then verify: [verify] hands the token the mechanism
    and the bytes that [sign] handed it, and, when for the three NIST
    curves [convert_asn1_ec_signature] undoes
    [convert_rs_ec_signature], the very signature the token produced.  So the verdict on what [sign]
    returned is the token's verdict on its own signature, for every key
    type, whatever the health probe of the second call did in
    between. *)
Theorem sign_then_verify key_label data key_type w w1 w3 key_priv key_pub :
  enters w w1 ->
  get_key (KEY_TYPE_VALUES key_type) PRIVATE_KEY key_label (token w1)
    = Return key_priv ->
  (nist key_type = true ->
   forall raw,
     convert_asn1_ec_signature
       (convert_rs_ec_signature raw (value key_type)) (value key_type)
     = inr raw) ->
  healthy_session false (acquired (sign key_label data false key_type w).2)
    = (Return tt, w3) ->
  faultless w3 ->
  get_key (KEY_TYPE_VALUES key_type) PUBLIC_KEY key_label (token w3)
    = Return key_pub ->
  exists signature,
    (sign key_label data false key_type w).1 = Return signature
    /\ (verify key_label data signature key_type
          (sign key_label data false key_type w).2).1
       = Return (C_Verify key_pub (spec_mechanism key_type)
                   (spec_signed_bytes key_type data)
                   (C_Sign key_priv (spec_mechanism key_type)
                      (spec_signed_bytes key_type data))).
Proof.
  intros Hin Hpriv Hround.
  pose proof Hin as (Hb & Hl & Hd & Hh & Hf).
  destruct (after_healthy w _ w1 Hh) as (Hd1 & _ & _ & Hb1).
  rewrite (sign_run_local _ _ _ w w1 key_priv Hin Hpriv). cbn [fst snd].
  set (w2 := released _). intros Hh3 Hf3 Hpub.
  assert (enters w2 w3) as Hin2.
  { split; [cbn; congruence|]. split; [done|]. split; [cbn; congruence|]. done. }
  eexists. split; [reflexivity|].
  rewrite (verify_run_local _ _ _ _ w2 w3 key_pub
             (C_Sign key_priv (spec_mechanism key_type)
                (spec_signed_bytes key_type data)) Hin2 Hpub); [done|].
  rewrite raw_signature_run. cbn [fst].
  unfold nist, spec_returned in *.
  destruct key_type; cbn in *; try done; by rewrite Hround.
Qed.

(** X15.  Once the probe has passed and with a token that answers:
    [sign] looks the keys up before it asks for a signature.  When the
    private key is missing it raises [NoSuchKey] after that one lookup;
    when [verify_signature] is set and the public key is missing it
    raises [NoSuchKey] after the two lookups.  In neither case is the
    token asked to sign, and the token is left as it was. *)
Theorem sign_needs_its_keys_first key_label data key_type w w1 :
  enters w w1 ->
  (get_key (KEY_TYPE_VALUES key_type) PRIVATE_KEY key_label (token w1)
     = Raise NoSuchKey ->
   forall verify_signature,
     (sign key_label data verify_signature key_type w).1 = Raise NoSuchKey
     /\ token (sign key_label data verify_signature key_type w).2 = token w1
     /\ added w1 (sign key_label data verify_signature key_type w).2
        = [EvGetKey (KEY_TYPE_VALUES key_type) PRIVATE_KEY key_label; EvRelease])
  /\ (forall key_priv,
        get_key (KEY_TYPE_VALUES key_type) PRIVATE_KEY key_label (token w1)
          = Return key_priv ->
        get_key (KEY_TYPE_VALUES key_type) PUBLIC_KEY key_label (token w1)
          = Raise NoSuchKey ->
        (sign key_label data true key_type w).1 = Raise NoSuchKey
        /\ token (sign key_label data true key_type w).2 = token w1
        /\ added w1 (sign key_label data true key_type w).2
           = [EvGetKey (KEY_TYPE_VALUES key_type) PRIVATE_KEY key_label;
              EvGetKey (KEY_TYPE_VALUES key_type) PUBLIC_KEY key_label;
              EvRelease]).
Proof.
  intros Hin. pose proof (enters_calm _ _ Hin) as Hc.
  pose proof Hin as (Hb & Hl & _ & Hh & _).
  split.
  - intros Hk verify_signature.
    eassert (sign key_label data verify_signature key_type w = _) as ->.
    { unfold sign. rewrite ask_bind, Hb, mech_and_data_spec. cbv beta iota.
      rewrite bind_run. unfold _sign. rewrite (locked_run _ w w1 Hl Hh).
      rewrite bind_run, (get_key_run _ _ _ w1 Hc), Hk. reflexivity. }
    split; [done|]. split; [done|].
    apply added_app. cbn. by rewrite <- app_assoc.
  - intros key_priv Hpriv Hpub.
    eassert (sign key_label data true key_type w = _) as ->.
    { unfold sign. rewrite ask_bind, Hb, mech_and_data_spec. cbv beta iota.
      rewrite bind_run. unfold _sign, _get_pub_key.
      rewrite (locked_run _ w w1 Hl Hh).
      rewrite bind_run, (get_key_run _ _ _ w1 Hc), Hpriv.
      rewrite bind_run, get_key_run by by apply calm_answered.
      cbn [token answered]. rewrite Hpub. reflexivity. }
    split; [done|]. split; [done|].
    apply added_app. cbn. by rewrite <- !app_assoc.
Qed.

(** ** Deleting *)

Lemma filter_comm {A} (P Q : A -> bool) (l : list A) :
  List.filter P (List.filter Q l) = List.filter Q (List.filter P l).
Proof.
  induction l as [|x l IH]; [done|]. cbn.
  destruct (P x) eqn:HP, (Q x) eqn:HQ; cbn; rewrite ?HP, ?HQ, IH; done.
Qed.

Lemma get_objects_destroy tpl o t :
  get_objects tpl (destroy o t) =
  List.filter (fun o' => negb (bool_decide (handle o' = handle o)))
    (get_objects tpl t).
Proof. unfold get_objects, destroy. cbn. apply filter_comm. Qed.

Lemma get_key_destroy_other kt cls label o key t :
  get_key kt cls label t = Return key -> handle key <> handle o ->
  get_key kt cls label (destroy o t) = Return key.
Proof.
  intros Hk Hne. apply get_key_Return in Hk as (_ & _ & Hg).
  unfold get_key. rewrite get_objects_destroy, Hg. cbn.
  by rewrite bool_decide_eq_false_2.
Qed.

Lemma get_key_destroy_self kt cls label key t :
  get_key kt cls label t = Return key ->
  get_key kt cls label (destroy key t) = Raise NoSuchKey.
Proof.
  intros Hk. apply get_key_Return in Hk as (_ & _ & Hg).
  unfold get_key. rewrite get_objects_destroy, Hg. cbn.
  by rewrite bool_decide_eq_true_2.
Qed.

Lemma get_key_destroy_none kt cls label o t :
  get_key kt cls label t = Raise NoSuchKey ->
  get_key kt cls label (destroy o t) = Raise NoSuchKey.
Proof.
  unfold get_key. rewrite get_objects_destroy.
  destruct (get_objects _ t) as [|a [|b l]]; done.
Qed.

Lemma delete_keypair_run key_label key_type w w1 :
  enters w w1 ->
  delete_keypair key_label key_type w =
  match
    try_finally
      ( key ← session_get_key (KEY_TYPE_VALUES key_type) PUBLIC_KEY key_label ;
        object_destroy key )
      ( key ← session_get_key (KEY_TYPE_VALUES key_type) PRIVATE_KEY key_label ;
        object_destroy key ) w1
  with
  | (Pending, w2) => (Pending, w2)
  | (r, w2) => (r, released w2)
  end.
Proof. intros Hin. unfold delete_keypair. by rewrite (enters_run _ _ w w1 Hin). Qed.

(** X16.  Once the probe has passed and with a token that answers:
    when both keys are under the label, [delete_keypair] returns
    normally and the token holds what it held except the objects with
    the handles of the two keys, so that neither key can be found
    afterwards; on a token whose handles are distinct exactly the two
    keys are gone.  When only the public key is under the label it is
    destroyed and the call still raises [NoSuchKey]; when neither key
    is there the call raises [NoSuchKey] and the token is as it was. *)
Theorem delete_keypair_removes_both key_label key_type w w1 :
  enters w w1 ->
  (forall key_pub key_priv,
     get_key (KEY_TYPE_VALUES key_type) PUBLIC_KEY key_label (token w1)
       = Return key_pub ->
     get_key (KEY_TYPE_VALUES key_type) PRIVATE_KEY key_label (token w1)
       = Return key_priv ->
     handle key_pub <> handle key_priv ->
     (delete_keypair key_label key_type w).1 = Return tt
     /\ token (delete_keypair key_label key_type w).2
        = destroy key_priv (destroy key_pub (token w1))
     /\ get_key (KEY_TYPE_VALUES key_type) PUBLIC_KEY key_label
          (token (delete_keypair key_label key_type w).2) = Raise NoSuchKey
     /\ get_key (KEY_TYPE_VALUES key_type) PRIVATE_KEY key_label
          (token (delete_keypair key_label key_type w).2) = Raise NoSuchKey
     /\ (NoDup (map handle (objects (token w1))) ->
         forall o,
           o ∈ objects (token (delete_keypair key_label key_type w).2)
           <-> o ∈ objects (token w1) /\ o <> key_pub /\ o <> key_priv))
  /\ (forall key_pub,
        get_key (KEY_TYPE_VALUES key_type) PUBLIC_KEY key_label (token w1)
          = Return key_pub ->
        get_key (KEY_TYPE_VALUES key_type) PRIVATE_KEY key_label (token w1)
          = Raise NoSuchKey ->
        (delete_keypair key_label key_type w).1 = Raise NoSuchKey
        /\ token (delete_keypair key_label key_type w).2
           = destroy key_pub (token w1))
  /\ (get_key (KEY_TYPE_VALUES key_type) PUBLIC_KEY key_label (token w1)
        = Raise NoSuchKey ->
      get_key (KEY_TYPE_VALUES key_type) PRIVATE_KEY key_label (token w1)
        = Raise NoSuchKey ->
      (delete_keypair key_label key_type w).1 = Raise NoSuchKey
      /\ token (delete_keypair key_label key_type w).2 = token w1).
Proof.
  intros Hin. pose proof (enters_calm _ _ Hin) as Hc.
  rewrite (delete_keypair_run _ _ w w1 Hin). unfold try_finally.
  rewrite bind_run, (get_key_run _ _ _ w1 Hc).
  split; [| split].
  - intros key_pub key_priv Hpub Hpriv Hne. rewrite Hpub.
    rewrite destroy_run by by apply calm_answered.
    rewrite bind_run, get_key_run
      by by apply calm_set_token, calm_answered, calm_answered.
    cbn [token set_token answered].
    rewrite (get_key_destroy_other _ _ _ key_pub key_priv _ Hpriv) by done.
    rewrite destroy_run
      by by apply calm_answered, calm_set_token, calm_answered, calm_answered.
    cbn [fst snd token released set_token answered log set_self].
    split; [done|]. split; [done|]. split; [| split].
    + apply get_key_destroy_none. by apply get_key_destroy_self.
    + apply get_key_destroy_self. by apply get_key_destroy_other.
    + intros Hnd o.
      apply get_key_Return in Hpub as (Hpin & _ & _).
      apply get_key_Return in Hpriv as (Hqin & _ & _).
      unfold destroy. cbn.
      rewrite !list_elem_of_In, !List.filter_In, !negb_true_iff,
        !bool_decide_eq_false, <- !list_elem_of_In.
      split.
      * intros [[Ho Hh1] Hh2]. split; [done|]. split; congruence.
      * intros (Ho & Hn1 & Hn2). split; [split; [done|] |]; intros Hh.
        -- apply Hn1. by eapply same_handle_same_object.
        -- apply Hn2. by eapply same_handle_same_object.
  - intros key_pub Hpub Hpriv. rewrite Hpub.
    rewrite destroy_run by by apply calm_answered.
    rewrite bind_run, get_key_run
      by by apply calm_set_token, calm_answered, calm_answered.
    cbn [token set_token answered].
    by rewrite (get_key_destroy_none _ _ _ key_pub _ Hpriv).
  - intros Hpub Hpriv. rewrite Hpub.
    rewrite bind_run, get_key_run by by apply calm_answered.
    cbn [token answered]. by rewrite Hpriv.
Qed.

(** ** Listing *)

(** The name [key_labels] gives an RSA key, by the length of its
    modulus. *)
Definition rsa_name (obj : Object) : string :=
  if key_length obj =? 2048 then "rsa_2048"
  else if key_length obj =? 4096 then "rsa_4096"
  else "rsa_512".

(** The six searches of [key_labels], in the order it makes them, each
    with the name it assigns. *)
Definition searches : list (Template * (Object -> string)) :=
  [ (public_key_template (KEY_TYPE_VALUES RSA2048) None, rsa_name);
    (public_key_template (KEY_TYPE_VALUES ED25519)
       (Some (encode_named_curve_parameters "1.3.101.112")),
     fun _ => "ed25519");
    (public_key_template (KEY_TYPE_VALUES ED448)
       (Some (encode_named_curve_parameters "1.3.101.113")),
     fun _ => "ed448");
    (public_key_template (KEY_TYPE_VALUES SECP256r1)
       (Some (encode_named_curve_parameters (value SECP256r1))),
     fun _ => value SECP256r1);
    (public_key_template (KEY_TYPE_VALUES SECP384r1)
       (Some (encode_named_curve_parameters (value SECP384r1))),
     fun _ => value SECP384r1);
    (public_key_template (KEY_TYPE_VALUES SECP521r1)
       (Some (encode_named_curve_parameters (value SECP521r1))),
     fun _ => value SECP521r1) ].

(** The dictionary they build on a token. *)
Definition listing (t : Token) : gmap string string :=
  foldl (fun d s => label_all (get_objects s.1 t) s.2 d) ∅ searches.

Lemma key_labels_run w w1 :
  enters w w1 ->
  exists w2,
    key_labels w = (Return (listing (token w1)), released w2)
    /\ token w2 = token w1
    /\ trace w2 = trace w1 ++ map (fun s => EvGetObjects s.1) searches.
Proof.
  intros Hin. pose proof (enters_calm _ _ Hin) as Hc.
  unfold key_labels. rewrite (enters_run _ _ w w1 Hin).
  cbn [foldl].
  do 6 (rewrite ?bind_run; cbn [mret M_ret];
        rewrite ?bind_run;
        rewrite get_objects_run by (repeat apply calm_answered; done)).
  cbn [mret M_ret].
  eexists. split; [reflexivity|]. split; [done|].
  cbn. by rewrite <- !app_assoc.
Qed.

Lemma label_all_snoc objs x name d :
  label_all (objs ++ [x]) name d = <[LABEL x := name x]> (label_all objs name d).
Proof. unfold label_all. by rewrite foldl_snoc. Qed.

Lemma label_all_lookup objs name d l v :
  label_all objs name d !! l = Some v ->
  d !! l = Some v \/ exists o, o ∈ objs /\ LABEL o = l /\ name o = v.
Proof.
  induction objs as [|x objs IH] using rev_ind; [by left|].
  rewrite label_all_snoc, lookup_insert.
  destruct (decide (LABEL x = l)) as [Heq | Hne].
  - intros [= <-]. right. exists x. split; [| done].
    apply elem_of_app. right. apply list_elem_of_here.
  - intros Hl. destruct (IH Hl) as [? | (o & Ho & ? & ?)]; [by left|].
    right. exists o. split; [| done]. apply elem_of_app. by left.
Qed.

Lemma label_all_is_Some objs name d l :
  is_Some (label_all objs name d !! l) <->
  is_Some (d !! l) \/ exists o, o ∈ objs /\ LABEL o = l.
Proof.
  induction objs as [|x objs IH] using rev_ind.
  - cbn. split; [by left|]. intros [? | (o & Ho & _)]; [done|].
    by apply elem_of_nil in Ho.
  - rewrite label_all_snoc, lookup_insert_is_Some, IH. split.
    + intros [Heq | [Hne [? | (o & Ho & Hl)]]].
      * right. exists x. split; [| done]. apply elem_of_app. right.
        apply list_elem_of_here.
      * by left.
      * right. exists o. split; [| done]. apply elem_of_app. by left.
    + intros [Hd | (o & Ho & Hl)].
      * destruct (decide (LABEL x = l)); [by left | right; split; [done|]; by left].
      * destruct (decide (LABEL x = l)); [by left | right; split; [done|]].
        apply elem_of_app in Ho as [Ho | Ho]; [right; eauto |].
        apply list_elem_of_singleton in Ho. congruence.
Qed.

Lemma label_all_other objs name d l :
  (forall o, o ∈ objs -> LABEL o <> l) -> label_all objs name d !! l = d !! l.
Proof.
  induction objs as [|x objs IH] using rev_ind; [done|]. intros Hno.
  rewrite label_all_snoc, lookup_insert_ne.
  - apply IH. intros o Ho. apply Hno, elem_of_app. by left.
  - apply Hno, elem_of_app. right. apply list_elem_of_here.
Qed.

Lemma label_all_only objs name d o :
  o ∈ objs -> (forall o', o' ∈ objs -> LABEL o' = LABEL o -> o' = o) ->
  label_all objs name d !! LABEL o = Some (name o).
Proof.
  induction objs as [|x objs IH] using rev_ind;
    [by intros ?%elem_of_nil |].
  intros Ho Honly. rewrite label_all_snoc, lookup_insert.
  destruct (decide (LABEL x = LABEL o)) as [Heq | Hne].
  - rewrite (Honly x); [done | | done]. apply elem_of_app. right.
    apply list_elem_of_here.
  - apply IH.
    + apply elem_of_app in Ho as [Ho | Ho]; [done|].
      apply list_elem_of_singleton in Ho. congruence.
    + intros o' Ho'. apply Honly, elem_of_app. by left.
Qed.

Lemma elem_of_get_objects tpl t o :
  o ∈ get_objects tpl t <-> o ∈ objects t /\ matches tpl o = true.
Proof.
  unfold get_objects. rewrite !list_elem_of_In, List.filter_In. done.
Qed.

(** The dictionary of a run of searches, search by search. *)
Definition listing_of (t : Token) (d : gmap string string)
    (ss : list (Template * (Object -> string))) : gmap string string :=
  foldl (fun d s => label_all (get_objects s.1 t) s.2 d) d ss.

Lemma listing_of_snoc t d ss s :
  listing_of t d (ss ++ [s]) =
  label_all (get_objects s.1 t) s.2 (listing_of t d ss).
Proof. unfold listing_of. by rewrite foldl_snoc. Qed.

Lemma listing_of_cons t d s ss :
  listing_of t d (s :: ss) =
  listing_of t (label_all (get_objects s.1 t) s.2 d) ss.
Proof. reflexivity. Qed.

Lemma listing_of_is_Some t d ss l :
  is_Some (listing_of t d ss !! l) <->
  is_Some (d !! l)
  \/ exists s o, s ∈ ss /\ o ∈ objects t /\ matches s.1 o = true /\ LABEL o = l.
Proof.
  induction ss as [|s ss IH] using rev_ind.
  - cbn. split; [by left|]. intros [? | (s & o & Hs & _)]; [done|].
    by apply elem_of_nil in Hs.
  - rewrite listing_of_snoc, label_all_is_Some, IH. split.
    + intros [[? | (s' & o & Hs & ?)] | (o & Ho & Hl)].
      * by left.
      * right. exists s', o. split; [| done]. apply elem_of_app. by left.
      * right. apply elem_of_get_objects in Ho as [Ho Hm].
        exists s, o. split; [| done]. apply elem_of_app. right.
        apply list_elem_of_here.
    + intros [? | (s' & o & Hs & Ho & Hm & Hl)]; [left; by left|].
      apply elem_of_app in Hs as [Hs | Hs].
      * left. right. by exists s', o.
      * apply list_elem_of_singleton in Hs as ->. right. exists o.
        split; [| done]. by apply elem_of_get_objects.
Qed.

Lemma listing_of_lookup t d ss l v :
  listing_of t d ss !! l = Some v ->
  d !! l = Some v
  \/ exists s o, s ∈ ss /\ o ∈ objects t /\ matches s.1 o = true
                 /\ LABEL o = l /\ s.2 o = v.
Proof.
  induction ss as [|s ss IH] using rev_ind; [by left|].
  rewrite listing_of_snoc. intros Hl.
  apply label_all_lookup in Hl as [Hl | (o & Ho & ? & ?)].
  - destruct (IH Hl) as [? | (s' & o & Hs & ?)]; [by left|].
    right. exists s', o. split; [| done]. apply elem_of_app. by left.
  - right. apply elem_of_get_objects in Ho as [Ho Hm].
    exists s, o. split; [| done]. apply elem_of_app. right.
    apply list_elem_of_here.
Qed.

Lemma listing_of_other t d ss l :
  (forall s o, s ∈ ss -> o ∈ objects t -> matches s.1 o = true -> LABEL o <> l) ->
  listing_of t d ss !! l = d !! l.
Proof.
  induction ss as [|s ss IH] using rev_ind; [done|]. intros Hno.
  rewrite listing_of_snoc, label_all_other.
  - apply IH. intros s' o Hs. apply Hno, elem_of_app. by left.
  - intros o Ho. apply elem_of_get_objects in Ho as [Ho Hm].
    apply (Hno s o); [| done | done]. apply elem_of_app. right.
    apply list_elem_of_here.
Qed.

Lemma listing_eq t : listing t = listing_of t ∅ searches.
Proof. reflexivity. Qed.

(** A key on the curve that [key_labels] searches for under [key_type]. *)
Definition on_curve (key_type : KEYTYPES) (oid : string) (o : Object) : Prop :=
  KEY_TYPE o = Some (KEY_TYPE_VALUES key_type)
  /\ EC_PARAMS o = encode_named_curve_parameters oid.

(** The objects [key_labels] reports. *)
Definition listed (o : Object) : Prop :=
  CLASS o = PUBLIC_KEY
  /\ (KEY_TYPE o = Some (KEY_TYPE_VALUES RSA2048)
      \/ on_curve ED25519 "1.3.101.112" o
      \/ on_curve ED448 "1.3.101.113" o
      \/ on_curve SECP256r1 "secp256r1" o
      \/ on_curve SECP384r1 "secp384r1" o
      \/ on_curve SECP521r1 "secp521r1" o).

(** The names [key_labels] gives. *)
Definition names : list string :=
  [ "rsa_2048"; "rsa_4096"; "rsa_512"; "ed25519"; "ed448";
    "secp256r1"; "secp384r1"; "secp521r1" ].

Lemma matches_public_key_template kt params o :
  matches (public_key_template kt params) o = true <->
  CLASS o = PUBLIC_KEY /\ KEY_TYPE o = Some kt
  /\ match params with
     | Some p => EC_PARAMS o = p
     | None => True
     end.
Proof.
  unfold matches, public_key_template, agrees.
  destruct params as [p|]; cbn;
    rewrite ?andb_true_r, !andb_true_iff, !bool_decide_eq_true;
    intuition congruence.
Qed.

Lemma listed_iff o :
  listed o <-> exists s, s ∈ searches /\ matches s.1 o = true.
Proof.
  unfold listed, on_curve, searches. split.
  - intros (Hc & [Hk | [[Hk Hp] | [[Hk Hp] | [[Hk Hp] | [[Hk Hp] | [Hk Hp]]]]]]).
    + exists (public_key_template (KEY_TYPE_VALUES RSA2048) None, rsa_name).
      split; [rewrite !elem_of_cons; auto 10 |].
      by apply matches_public_key_template.
    + exists (public_key_template (KEY_TYPE_VALUES ED25519)
                (Some (encode_named_curve_parameters "1.3.101.112")),
              fun _ => "ed25519").
      split; [rewrite !elem_of_cons; auto 10 |].
      by apply matches_public_key_template.
    + exists (public_key_template (KEY_TYPE_VALUES ED448)
                (Some (encode_named_curve_parameters "1.3.101.113")),
              fun _ => "ed448").
      split; [rewrite !elem_of_cons; auto 10 |].
      by apply matches_public_key_template.
    + exists (public_key_template (KEY_TYPE_VALUES SECP256r1)
                (Some (encode_named_curve_parameters (value SECP256r1))),
              fun _ => value SECP256r1).
      split; [rewrite !elem_of_cons; auto 10 |].
      by apply matches_public_key_template.
    + exists (public_key_template (KEY_TYPE_VALUES SECP384r1)
                (Some (encode_named_curve_parameters (value SECP384r1))),
              fun _ => value SECP384r1).
      split; [rewrite !elem_of_cons; auto 10 |].
      by apply matches_public_key_template.
    + exists (public_key_template (KEY_TYPE_VALUES SECP521r1)
                (Some (encode_named_curve_parameters (value SECP521r1))),
              fun _ => value SECP521r1).
      split; [rewrite !elem_of_cons; auto 10 |].
      by apply matches_public_key_template.
  - intros (s & Hs & Hm).
    rewrite !elem_of_cons, elem_of_nil in Hs.
    destruct Hs as [-> | [-> | [-> | [-> | [-> | [-> | []]]]]]];
      apply matches_public_key_template in Hm as (Hc & Hk & Hp);
      (split; [done|]); auto 10.
Qed.

(** X17.  Once the probe has passed and with a token that answers:
    [key_labels] returns a dictionary whose keys are exactly the labels
    of the public keys on the token that are RSA keys or keys on one of
    the five curves it searches for; private keys, certificates and
    keys on other curves are not reported.  Every value is one of the
    eight names rsa_2048, rsa_4096, rsa_512, ed25519, ed448, secp256r1,
    secp384r1, secp521r1.  The token is left as it was. *)
Theorem key_labels_lists_public_keys w w1 :
  enters w w1 ->
  exists d,
    (key_labels w).1 = Return d
    /\ token (key_labels w).2 = token w1
    /\ (forall l, is_Some (d !! l) <->
                  exists o, o ∈ objects (token w1) /\ LABEL o = l /\ listed o)
    /\ (forall l v, d !! l = Some v -> v ∈ names).
Proof.
  intros Hin. destruct (key_labels_run w w1 Hin) as (w2 & -> & Ht & _).
  exists (listing (token w1)). split; [done|]. split; [done|]. split.
  - intros l. rewrite listing_eq, listing_of_is_Some, lookup_empty. split.
    + intros [[? [=]] | (s & o & Hs & Ho & Hm & Hl)].
      exists o. split; [done|]. split; [done|]. apply listed_iff. eauto.
    + intros (o & Ho & Hl & Hlisted). right.
      apply listed_iff in Hlisted as (s & Hs & Hm). by exists s, o.
  - intros l v Hl. rewrite listing_eq in Hl.
    apply listing_of_lookup in Hl as [Hl | (s & o & Hs & _ & _ & _ & <-)];
      [by rewrite lookup_empty in Hl |].
    unfold searches in Hs. rewrite !elem_of_cons, elem_of_nil in Hs.
    unfold names.
    destruct Hs as [-> | [-> | [-> | [-> | [-> | [-> | []]]]]]]; cbn;
      [unfold rsa_name; destruct (key_length o =? 2048);
        [| destruct (key_length o =? 4096)] | ..];
      rewrite !elem_of_cons; auto 10.
Qed.

(** X18.  Once the probe has passed and with a token that answers, and
    with a table in lib.py that gives the Edwards and NIST key types a
    device key type other than the RSA one: an RSA public key that is
    the only public key under its label is reported by [key_labels]
    under the name rsa_2048 when its modulus has 2048 bits, rsa_4096
    when it has 4096, and rsa_512 for every other length, 1024 and
    3072 included. *)
Theorem key_labels_names_rsa_by_length o w w1 :
  enters w w1 ->
  o ∈ objects (token w1) ->
  CLASS o = PUBLIC_KEY -> KEY_TYPE o = Some (KEY_TYPE_VALUES RSA2048) ->
  (forall o', o' ∈ objects (token w1) -> CLASS o' = PUBLIC_KEY ->
              LABEL o' = LABEL o -> o' = o) ->
  (forall key_type, key_type ∈ [ED25519; ED448; SECP256r1; SECP384r1; SECP521r1] ->
                    KEY_TYPE_VALUES key_type <> KEY_TYPE_VALUES RSA2048) ->
  exists d,
    (key_labels w).1 = Return d
    /\ d !! LABEL o =
       Some (if key_length o =? 2048 then "rsa_2048"
             else if key_length o =? 4096 then "rsa_4096"
             else "rsa_512").
Proof.
  intros Hin Ho Hc Hk Honly Htable.
  destruct (key_labels_run w w1 Hin) as (w2 & -> & _).
  exists (listing (token w1)). split; [done|].
  rewrite listing_eq. unfold searches.
  rewrite listing_of_cons, listing_of_other.
  - cbn. apply (label_all_only _ rsa_name ∅ o).
    + apply elem_of_get_objects. split; [done|].
      by apply matches_public_key_template.
    + intros o' Ho' Hl. apply elem_of_get_objects in Ho' as [Ho' Hm].
      apply matches_public_key_template in Hm as (Hc' & _).
      by apply Honly.
  - intros s o' Hs Ho' Hm Hl.
    assert (o' = o) as ->.
    { rewrite !elem_of_cons, elem_of_nil in Hs.
      destruct Hs as [-> | [-> | [-> | [-> | [-> | []]]]]];
        apply matches_public_key_template in Hm as (Hc' & _);
        by apply Honly. }
    rewrite !elem_of_cons, elem_of_nil in Hs.
    destruct Hs as [-> | [-> | [-> | [-> | [-> | []]]]]];
      apply matches_public_key_template in Hm as (_ & Hk' & _);
      rewrite Hk in Hk'; injection Hk' as Hk';
      symmetry in Hk'; revert Hk'; apply Htable;
      rewrite !elem_of_cons; auto 10.
Qed.

(** X19.  With session recreation on, the key pair of the health probe
    shows up in the listing: once the probe has passed, and with a
    table in lib.py that gives RSA-2048 the device key type RSA, the
    dictionary [key_labels] returns has the key
    test_pkcs11_device_do_not_use. *)
Theorem key_labels_shows_the_sentinel w w1 :
  enters w w1 ->
  support_recreate_session (self w) = true ->
  KEY_TYPE_VALUES RSA2048 = RSA ->
  exists d name,
    (key_labels w).1 = Return d /\ d !! SENTINEL = Some name.
Proof.
  intros Hin Hon Htable.
  pose proof Hin as (_ & _ & _ & Hh & _).
  destruct (healthy_session_sentinel false (acquired w) w1 Hon Hh)
    as (o & Ho & Hc & Hk & Hl).
  destruct (key_labels_run w w1 Hin) as (w2 & -> & _).
  assert (is_Some (listing (token w1) !! SENTINEL)) as [name Hname].
  { rewrite listing_eq. apply listing_of_is_Some. right.
    exists (public_key_template (KEY_TYPE_VALUES RSA2048) None, rsa_name), o.
    split; [apply list_elem_of_here |]. split; [done|]. split; [| done].
    apply matches_public_key_template. rewrite Htable. done. }
  by exists (listing (token w1)), name.
Qed.

End KeyPairs.

End KeyPairs.

(* ================================================================== *)
(** * The constructor *)
(* ================================================================== *)

Module Construct.
Import Pkcs11 Handle Health Runs Keys Probe.

Definition with_base_url (u : option string) (p : PKCS11Session)
  : PKCS11Session :=
  {| lock := lock p; base_url := u;
     support_recreate_session := support_recreate_session p;
     session := session p; _session_status := _session_status p |}.

Definition with_flag (b : bool) (p : PKCS11Session) : PKCS11Session :=
  {| lock := lock p; base_url := base_url p;
     support_recreate_session := b;
     session := session p; _session_status := _session_status p |}.

(** [not x] for an optional string: [None] and the empty string. *)
Definition falsy (x : option string) : bool :=
  match x with
  | None => true
  | Some v => bool_decide (v = EmptyString)
  end.

Section Construct.
Context `{Externals}.

(** [if not x: x = os.environ[key]] *)
Definition arg_or_env (x : option string) (key : string) : M string :=
  match x with
  | Some v => if falsy x then getenv key else mret v
  | None => getenv key
  end.

(** [PKCS11Session.__init__].  [__new__] hands every construction the
    one instance of the class, so the constructor runs on the instance
    as earlier constructions and calls have left it.  The two
    dictionaries [http_data] and [http_headers] are only passed on to
    the other end and are left out, as in [PKCS11Session]. *)
Definition __init__ (base_url pkcs11_module pkcs11_token pkcs11_pin
                       : option string)
    (pkcs11_recreate_session : bool) : M unit :=
  modify (set_self (with_lock false)) ;;
  modify (set_self (with_base_url base_url)) ;;
  modify (set_self (with_flag false)) ;;
  w ← ask ;
  match environ w !! "PKCS11_BASE_URL" with
  | Some url => modify (set_self (with_base_url (Some url)))
  | None =>
      (match environ w !! "PKCS11_TOKEN_SUPPORT_RECREATE_SESSION" with
       | Some v =>
           if bool_decide (v = "true") || bool_decide (v = "TRUE")
           then modify (set_self (with_flag true))
           else mret tt
       | None => mret tt
       end) ;;
      (* From argument *)
      (if pkcs11_recreate_session then modify (set_self (with_flag true))
       else mret tt) ;;
      try_except
        ( (* First let us get all 3 PKCS11 variables *)
          pkcs11_module ← arg_or_env pkcs11_module "PKCS11_MODULE" ;
          pkcs11_token ← arg_or_env pkcs11_token "PKCS11_TOKEN" ;
          pkcs11_pin ← arg_or_env pkcs11_pin "PKCS11_PIN" ;
          call EvLib (fun t => (Return tt, t)) ;;
          (* Open the PKCS11 session *)
          call EvGetToken (fun t => (get_token pkcs11_token t, t)) ;;
          h ← call EvOpen (open pkcs11_pin) ;
          modify (set_self (with_session (Some h))) ;;
          (* Test get a public key from the PKCS11 device *)
          _ ← session_get_key RSA PUBLIC_KEY SENTINEL ;
          mret tt )
        (fun e => match e with
                  | NoSuchKey =>
                      try_except
                        ( _ ← session_generate_keypair RSA 512 [] SENTINEL ;
                          mret tt )
                        (fun e => match e with
                                  | GeneralError => mret tt
                                  | _ => raise e
                                  end)
                  | GeneralError => mret tt
                  | _ => raise e
                  end)
  end.

(** What the constructor takes for the module, the token label and the
    PIN: the argument, or the environment variable when the argument is
    missing or empty. *)
Definition resolved (x : option string) (key : string)
    (env : gmap string string) : option string :=
  if falsy x then env !! key else x.

Lemma arg_or_env_run x key w :
  arg_or_env x key w =
  (match resolved x key (environ w) with
   | Some v => Return v
   | None => Raise (KeyError key)
   end, w).
Proof.
  unfold arg_or_env, resolved, getenv. destruct x as [v|]; cbn.
  - case_bool_decide; [| done]. rewrite ask_bind. by destruct (environ w !! key).
  - rewrite ask_bind. by destruct (environ w !! key).
Qed.

(** The recreate flag the constructor leaves when it does not take the
    remote branch. *)
Definition recreate_flag (pkcs11_recreate_session : bool)
    (env : gmap string string) : bool :=
  pkcs11_recreate_session
  || match env !! "PKCS11_TOKEN_SUPPORT_RECREATE_SESSION" with
     | Some v => bool_decide (v = "true") || bool_decide (v = "TRUE")
     | None => false
     end.

(** X20.  When PKCS11_BASE_URL is in the environment, the constructor
    takes it as the base URL, whatever [base_url] it was given, and
    returns at once: it makes no call into the token, opens no session,
    and leaves session recreation off even when
    [pkcs11_recreate_session] is set or the environment asks for it.
    The lock is a new, free one. *)
Theorem init_remote_wins base_url pkcs11_module pkcs11_token pkcs11_pin
    pkcs11_recreate_session url w :
  environ w !! "PKCS11_BASE_URL" = Some url ->
  (__init__ base_url pkcs11_module pkcs11_token pkcs11_pin
     pkcs11_recreate_session w).1 = Return tt
  /\ Handle.base_url
       (self (__init__ base_url pkcs11_module pkcs11_token pkcs11_pin
                pkcs11_recreate_session w).2) = Some url
  /\ support_recreate_session
       (self (__init__ base_url pkcs11_module pkcs11_token pkcs11_pin
                pkcs11_recreate_session w).2) = false
  /\ lock (self (__init__ base_url pkcs11_module pkcs11_token pkcs11_pin
                   pkcs11_recreate_session w).2) = false
  /\ session (self (__init__ base_url pkcs11_module pkcs11_token pkcs11_pin
                      pkcs11_recreate_session w).2) = session (self w)
  /\ token (__init__ base_url pkcs11_module pkcs11_token pkcs11_pin
              pkcs11_recreate_session w).2 = token w
  /\ trace (__init__ base_url pkcs11_module pkcs11_token pkcs11_pin
              pkcs11_recreate_session w).2 = trace w.
Proof.
  intros Hurl.
  assert (__init__ base_url pkcs11_module pkcs11_token pkcs11_pin
            pkcs11_recreate_session w =
          (Return tt,
           set_self (with_base_url (Some url))
             (set_self (with_flag false)
                (set_self (with_base_url base_url)
                   (set_self (with_lock false) w))))) as ->.
  { unfold __init__. do 3 (rewrite bind_run; cbn [modify]).
    rewrite ask_bind. cbn [environ set_self]. by rewrite Hurl. }
  done.
Qed.

(** The instance once the constructor has set its attributes, before
    it turns to the token. *)
Definition configured (base_url : option string)
    (pkcs11_recreate_session : bool) (w : World) : World :=
  set_self
    (fun p =>
       {| lock := false; Handle.base_url := base_url;
          support_recreate_session :=
            recreate_flag pkcs11_recreate_session (environ w);
          session := session p; _session_status := _session_status p |}) w.

(** What the constructor does with the token. *)
Definition connect (pkcs11_module pkcs11_token pkcs11_pin : option string)
  : M unit :=
  pkcs11_module ← arg_or_env pkcs11_module "PKCS11_MODULE" ;
  pkcs11_token ← arg_or_env pkcs11_token "PKCS11_TOKEN" ;
  pkcs11_pin ← arg_or_env pkcs11_pin "PKCS11_PIN" ;
  call EvLib (fun t => (Return tt, t)) ;;
  call EvGetToken (fun t => (get_token pkcs11_token t, t)) ;;
  h ← call EvOpen (open pkcs11_pin) ;
  modify (set_self (with_session (Some h))) ;;
  _ ← session_get_key RSA PUBLIC_KEY SENTINEL ;
  mret tt.

Definition make_sentinel : M unit :=
  try_except
    ( _ ← session_generate_keypair RSA 512 [] SENTINEL ;
      mret tt )
    (fun e => match e with
              | GeneralError => mret tt
              | _ => raise e
              end).

Definition on_failure (e : Exception) : M unit :=
  match e with
  | NoSuchKey => make_sentinel
  | GeneralError => mret tt
  | _ => raise e
  end.

Lemma init_local_run base_url pkcs11_module pkcs11_token pkcs11_pin
    pkcs11_recreate_session w :
  environ w !! "PKCS11_BASE_URL" = None ->
  __init__ base_url pkcs11_module pkcs11_token pkcs11_pin
    pkcs11_recreate_session w =
  try_except (connect pkcs11_module pkcs11_token pkcs11_pin) on_failure
    (configured base_url pkcs11_recreate_session w).
Proof.
  intros Hurl. unfold __init__. do 3 (rewrite bind_run; cbn [modify]).
  rewrite ask_bind. cbn [environ set_self]. rewrite Hurl.
  fold (connect pkcs11_module pkcs11_token pkcs11_pin).
  unfold configured, recreate_flag.
  destruct (environ w !! "PKCS11_TOKEN_SUPPORT_RECREATE_SESSION") as [v|];
    [destruct (bool_decide (v = "true") || bool_decide (v = "TRUE")) |];
    destruct pkcs11_recreate_session; reflexivity.
Qed.

(** The module, the token label and the PIN are there, and they are
    the ones of the token. *)
Definition fits (pkcs11_module pkcs11_token pkcs11_pin : option string)
    (w : World) : Prop :=
  is_Some (resolved pkcs11_module "PKCS11_MODULE" (environ w))
  /\ resolved pkcs11_token "PKCS11_TOKEN" (environ w)
     = Some (token_label (token w))
  /\ resolved pkcs11_pin "PKCS11_PIN" (environ w) = Some (user_pin (token w)).

Lemma calm_set_self f w : calm w -> calm (set_self f w).
Proof. by intros [Hd Hf]. Qed.

Ltac calmly :=
  repeat first [apply calm_set_token | apply calm_answered | apply calm_set_self];
  done.

Lemma connect_run pkcs11_module pkcs11_token pkcs11_pin w :
  calm w -> fits pkcs11_module pkcs11_token pkcs11_pin w ->
  exists w',
    connect pkcs11_module pkcs11_token pkcs11_pin w =
      (match sentinel (token w) with
       | Return _ => Return tt
       | Raise e => Raise e
       | Pending => Pending
       end, w')
    /\ self w' = with_session (Some (sessions (token w))) (self w)
    /\ objects (token w') = objects (token w)
    /\ next_handle (token w') = next_handle (token w)
    /\ sessions (token w') = S (sessions (token w))
    /\ calm w'
    /\ trace w' = trace w ++ [EvLib; EvGetToken; EvOpen;
                              EvGetKey RSA PUBLIC_KEY SENTINEL].
Proof.
  intros Hc ([m Hm] & Hl & Hp). unfold connect.
  rewrite bind_run, arg_or_env_run, Hm.
  rewrite bind_run, arg_or_env_run, Hl.
  rewrite bind_run, arg_or_env_run, Hp.
  rewrite bind_run, calm_call by done. cbn [fst snd].
  rewrite bind_run, calm_call by calmly.
  cbn [fst snd token set_token answered]. unfold get_token.
  rewrite bool_decide_eq_true_2 by done.
  rewrite bind_run, calm_call by calmly.
  cbn [fst snd token set_token answered]. unfold open.
  rewrite bool_decide_eq_true_2 by done. cbn [fst snd].
  rewrite bind_run. cbn [modify].
  rewrite bind_run, get_key_run by calmly.
  cbn [token set_self set_token answered].
  rewrite (get_key_objects _ _ _ (token w)) by done.
  fold (sentinel (token w)).
  eexists. split; [by destruct (sentinel (token w)) |].
  cbn. split; [done|]. do 3 (split; [done|]). split; [calmly|].
  by rewrite <- !app_assoc.
Qed.

Lemma sentinel_cases t :
  (exists o, sentinel t = Return o) \/ sentinel t = Raise NoSuchKey
  \/ sentinel t = Raise MultipleObjectsReturned.
Proof.
  unfold sentinel, get_key. destruct (get_objects _ t) as [|o [|o' l]]; eauto.
Qed.

Lemma make_sentinel_run w :
  calm w ->
  make_sentinel w =
  (Return tt,
   set_token
     (generate_keypair RSA 512 [] SENTINEL
        (C_GenerateKeyPair RSA 512 [] (next_handle (token w))) (token w)).2
     (answered (EvGenerate RSA SENTINEL) w)).
Proof.
  intros Hc. unfold make_sentinel, try_except.
  by rewrite bind_run, generate_run.
Qed.

(** X21.  When PKCS11_BASE_URL is not in the environment, the module,
    the token label and the PIN are given (each as an argument or, when
    the argument is missing or empty, in the environment) and fit a
    token that answers: the constructor opens a session and keeps it;
    it turns session recreation on exactly when
    [pkcs11_recreate_session] is set or
    PKCS11_TOKEN_SUPPORT_RECREATE_SESSION is "true" or "TRUE"; it
    leaves the status as it was; and it looks for the sentinel: if the
    token has it, the token keeps its objects as they are; if not, the
    constructor adds the sentinel pair; if the token has more than one,
    the constructor raises [MultipleObjectsReturned]. *)
Theorem init_opens_a_session base_url pkcs11_module pkcs11_token pkcs11_pin
    pkcs11_recreate_session w :
  environ w !! "PKCS11_BASE_URL" = None ->
  calm w ->
  fits pkcs11_module pkcs11_token pkcs11_pin w ->
  session (self (__init__ base_url pkcs11_module pkcs11_token pkcs11_pin
                   pkcs11_recreate_session w).2) = Some (sessions (token w))
  /\ sessions (token (__init__ base_url pkcs11_module pkcs11_token pkcs11_pin
                        pkcs11_recreate_session w).2) = S (sessions (token w))
  /\ support_recreate_session
       (self (__init__ base_url pkcs11_module pkcs11_token pkcs11_pin
                pkcs11_recreate_session w).2)
     = recreate_flag pkcs11_recreate_session (environ w)
  /\ Handle.base_url
       (self (__init__ base_url pkcs11_module pkcs11_token pkcs11_pin
                pkcs11_recreate_session w).2) = base_url
  /\ lock (self (__init__ base_url pkcs11_module pkcs11_token pkcs11_pin
                   pkcs11_recreate_session w).2) = false
  /\ _session_status
       (self (__init__ base_url pkcs11_module pkcs11_token pkcs11_pin
                pkcs11_recreate_session w).2) = _session_status (self w)
  /\ (forall o, sentinel (token w) = Return o ->
      (__init__ base_url pkcs11_module pkcs11_token pkcs11_pin
         pkcs11_recreate_session w).1 = Return tt
      /\ objects (token (__init__ base_url pkcs11_module pkcs11_token
                           pkcs11_pin pkcs11_recreate_session w).2)
         = objects (token w))
  /\ (sentinel (token w) = Raise NoSuchKey ->
      (__init__ base_url pkcs11_module pkcs11_token pkcs11_pin
         pkcs11_recreate_session w).1 = Return tt
      /\ objects (token (__init__ base_url pkcs11_module pkcs11_token
                           pkcs11_pin pkcs11_recreate_session w).2)
         = objects (token w) ++ [ (sentinel_pair (token w)).1;
                                  (sentinel_pair (token w)).2 ])
  /\ (sentinel (token w) = Raise MultipleObjectsReturned ->
      (__init__ base_url pkcs11_module pkcs11_token pkcs11_pin
         pkcs11_recreate_session w).1 = Raise MultipleObjectsReturned).
Proof.
  intros Hurl Hc Hfits. rewrite (init_local_run _ _ _ _ _ w Hurl).
  unfold try_except.
  destruct (connect_run pkcs11_module pkcs11_token pkcs11_pin
              (configured base_url pkcs11_recreate_session w))
    as (w' & -> & Hs & Ho & Hn & Hss & Hc' & _);
    [by apply calm_set_self | done |].
  cbn [token configured set_self] in *.
  destruct (sentinel_cases (token w)) as [[o Hsen] | [Hsen | Hsen]];
    rewrite Hsen.
  - cbn [fst snd]. rewrite Hs. cbn.
    do 6 (split; [done|]). split; [by intros ? _ |]. by split.
  - cbn [on_failure]. rewrite make_sentinel_run by done.
    cbn [fst snd self token set_token answered generate_keypair with_objects
           objects sessions]. rewrite Hs, Hss. cbn.
    do 6 (split; [done|]). split; [by intros ? [=] |]. split; [| done].
    intros _. split; [done|]. rewrite Ho. unfold sentinel_pair. cbn.
    by rewrite Hn.
  - cbn. rewrite Hs. cbn.
    do 6 (split; [done|]). split; [by intros ? [=] |]. by split.
Qed.

(** Reads one of the three values, in the constructor's own world. *)
Ltac reads H :=
  rewrite bind_run, arg_or_env_run; cbn [environ configured set_self];
  rewrite H.

(** X22.  When PKCS11_BASE_URL is not in the environment: if the
    module, the token label or the PIN is given neither as an argument
    nor in the environment, the constructor raises [KeyError] for the
    first of them that is missing, before any call into the token; if
    all three are given, the token answers and the label is not its
    label, the constructor raises [NoSuchToken]; if the PIN is not its
    PIN, [PinIncorrect].  In all these cases the instance has the
    session it had before. *)
Theorem init_raises_on_bad_configuration base_url pkcs11_module pkcs11_token
    pkcs11_pin pkcs11_recreate_session w :
  environ w !! "PKCS11_BASE_URL" = None ->
  (forall m l p,
     (resolved pkcs11_module "PKCS11_MODULE" (environ w) = None ->
      __init__ base_url pkcs11_module pkcs11_token pkcs11_pin
        pkcs11_recreate_session w
      = (Raise (KeyError "PKCS11_MODULE"),
         configured base_url pkcs11_recreate_session w))
     /\ (resolved pkcs11_module "PKCS11_MODULE" (environ w) = Some m ->
         resolved pkcs11_token "PKCS11_TOKEN" (environ w) = None ->
         __init__ base_url pkcs11_module pkcs11_token pkcs11_pin
           pkcs11_recreate_session w
         = (Raise (KeyError "PKCS11_TOKEN"),
            configured base_url pkcs11_recreate_session w))
     /\ (resolved pkcs11_module "PKCS11_MODULE" (environ w) = Some m ->
         resolved pkcs11_token "PKCS11_TOKEN" (environ w) = Some l ->
         resolved pkcs11_pin "PKCS11_PIN" (environ w) = None ->
         __init__ base_url pkcs11_module pkcs11_token pkcs11_pin
           pkcs11_recreate_session w
         = (Raise (KeyError "PKCS11_PIN"),
            configured base_url pkcs11_recreate_session w))
     /\ (resolved pkcs11_module "PKCS11_MODULE" (environ w) = Some m ->
         resolved pkcs11_token "PKCS11_TOKEN" (environ w) = Some l ->
         resolved pkcs11_pin "PKCS11_PIN" (environ w) = Some p ->
         calm w ->
         (l <> token_label (token w) ->
          (__init__ base_url pkcs11_module pkcs11_token pkcs11_pin
             pkcs11_recreate_session w).1 = Raise NoSuchToken
          /\ session (self (__init__ base_url pkcs11_module pkcs11_token
                              pkcs11_pin pkcs11_recreate_session w).2)
             = session (self w))
         /\ (l = token_label (token w) -> p <> user_pin (token w) ->
             (__init__ base_url pkcs11_module pkcs11_token pkcs11_pin
                pkcs11_recreate_session w).1 = Raise PinIncorrect
             /\ session (self (__init__ base_url pkcs11_module pkcs11_token
                                 pkcs11_pin pkcs11_recreate_session w).2)
                = session (self w)))).
Proof.
  intros Hurl m l p. rewrite (init_local_run _ _ _ _ _ w Hurl).
  unfold try_except, connect.
  split; [| split; [| split]].
  - intros Hm. by reads Hm.
  - intros Hm Hl. reads Hm.
    by reads Hl.
  - intros Hm Hl Hp. reads Hm.
    reads Hl.
    by reads Hp.
  - intros Hm Hl Hp Hc.
    reads Hm.
    reads Hl.
    reads Hp.
    rewrite bind_run, calm_call by calmly. cbn [fst snd].
    rewrite bind_run, calm_call by calmly.
    cbn [fst snd token set_token answered configured set_self]. unfold get_token.
    split.
    + intros Hne. by rewrite bool_decide_eq_false_2.
    + intros -> Hne. rewrite bool_decide_eq_true_2 by done.
      rewrite bind_run, calm_call by calmly.
      cbn [fst snd token set_token answered]. unfold open.
      by rewrite bool_decide_eq_false_2.
Qed.

(** X23.  A [GeneralError] does not escape the constructor.  When
    PKCS11_BASE_URL is not in the environment, the module, the token
    label and the PIN are given, and the token faults at the first
    call, the constructor returns normally; the instance it leaves has
    the session it had before, so none if it had none, and the token is
    as it was. *)
Theorem init_swallows_general_error base_url pkcs11_module pkcs11_token
    pkcs11_pin pkcs11_recreate_session m l p w :
  environ w !! "PKCS11_BASE_URL" = None ->
  resolved pkcs11_module "PKCS11_MODULE" (environ w) = Some m ->
  resolved pkcs11_token "PKCS11_TOKEN" (environ w) = Some l ->
  resolved pkcs11_pin "PKCS11_PIN" (environ w) = Some p ->
  deadline w = None ->
  fault (head_response w) = true ->
  (__init__ base_url pkcs11_module pkcs11_token pkcs11_pin
     pkcs11_recreate_session w).1 = Return tt
  /\ session (self (__init__ base_url pkcs11_module pkcs11_token pkcs11_pin
                      pkcs11_recreate_session w).2) = session (self w)
  /\ token (__init__ base_url pkcs11_module pkcs11_token pkcs11_pin
              pkcs11_recreate_session w).2 = token w
  /\ added w (__init__ base_url pkcs11_module pkcs11_token pkcs11_pin
                pkcs11_recreate_session w).2 = [EvLib].
Proof.
  intros Hurl Hm Hl Hp Hd Hf. rewrite (init_local_run _ _ _ _ _ w Hurl).
  unfold try_except, connect.
  reads Hm.
  reads Hl.
  reads Hp.
  rewrite bind_run, call_run by done.
  change (head_response (configured base_url pkcs11_recreate_session w))
    with (head_response w).
  rewrite Hf. cbn [on_failure mret M_ret fst snd].
  split; [done|]. split; [done|]. split; [done|].
  by apply added_app.
Qed.

End Construct.

End Construct.

(* ================================================================== *)
(** * Further runs on the demonstration token *)
(* ================================================================== *)

Module Further_runs.
Import Pkcs11 Handle Health Runs Keys Probe Certificates KeyPairs Construct.

(** A world at rest on a token [t], session recreation off, and the
    world the health probe hands over there. *)
Definition resting (t : Token) : World := Demo.world false t [].
Definition probed (w : World) : World := log EvHealthy (acquired w).

Lemma enters_resting t : enters (resting t) (probed (resting t)).
Proof. repeat split. constructor. Qed.

(** The same with session recreation on. *)
Definition watchful (t : Token) : World := Demo.world true t [].

(** ** The health probe *)

Lemma probe_finds_or_makes_the_sentinel_witness :
  let w := watchful Demo.empty_token in
  support_recreate_session (self w) = true /\ session (self w) = Some 0%nat
  /\ prompt w /\ deadline w = None
  /\ sentinel (token w) = Raise NoSuchKey
  /\ (healthy_session false w).1 = Return tt
  /\ map LABEL (objects (token (healthy_session false w).2))
     = [SENTINEL; SENTINEL]
  /\ map key_length (objects (token (healthy_session false w).2)) = [512; 512]
  /\ _session_status (self (healthy_session false w).2) = 0.
Proof.
  intros w.
  pose proof (probe_finds_or_makes_the_sentinel w 0 eq_refl eq_refl
                (Forall_nil_2 _) eq_refl) as [_ Hmade].
  destruct (Hmade eq_refl) as (Hr & Hst & _ & _ & Ho & _).
  do 2 (split; [reflexivity|]). split; [apply Forall_nil_2|].
  do 2 (split; [reflexivity|]). split; [exact Hr|].
  rewrite Ho. split; [reflexivity|]. split; [reflexivity | exact Hst].
Defined.

(** A token on which the sentinel has been made twice. *)
Definition twice : Token :=
  {| token_label := "my_test_token_1"; user_pin := "1234";
     objects :=
       [ (sentinel_pair Demo.empty_token).1; (sentinel_pair Demo.empty_token).2;
         (sentinel_pair Demo.empty_token).1; (sentinel_pair Demo.empty_token).2 ];
     next_handle := 5; sessions := 1 |}.

Lemma two_sentinels_defeat_the_probe_witness :
  support_recreate_session (self (watchful twice)) = true
  /\ sentinel (token (watchful twice)) = Raise MultipleObjectsReturned
  /\ (healthy_session false (watchful twice)).1 = Raise gave_up
  /\ objects (token (healthy_session false (watchful twice)).2) = objects twice.
Proof.
  split; [reflexivity|]. split; [reflexivity|].
  exact (two_sentinels_defeat_the_probe false (watchful twice) eq_refl eq_refl).
Defined.

(** A world whose environment has none of the three variables. *)
Definition bare : World :=
  {| self := Demo.instance true; token := Demo.empty_token; script := [];
     environ := ∅; clock := 0; deadline := None; trace := [] |}.

Lemma bare_is_incomplete : ~ complete (environ bare).
Proof. intros [[x Hx] _]. cbn in Hx. by rewrite lookup_empty in Hx. Qed.


Lemma simulated_timeout_gives_up_witness :
  support_recreate_session (self (watchful Demo.empty_token)) = true
  /\ (healthy_session true (watchful Demo.empty_token)).1 = Raise gave_up
  /\ clock (healthy_session true (watchful Demo.empty_token)).2 = 20%nat.
Proof.
  split; [reflexivity|].
  destruct (simulated_timeout_gives_up (watchful Demo.empty_token) eq_refl)
    as (Hr & Hc & _).
  split; [exact Hr | exact Hc].
Defined.

(** ** Certificates *)

Definition pem : string := "MIIB".

(** The token once the certificate has been imported under "ca". *)
Definition with_ca : Token :=
  token (import_certificate pem "ca" (resting Demo.empty_token)).2.




(** A token with two certificates under "ca" and a key between them. *)
Definition crowded : Token :=
  {| token_label := "my_test_token_1"; user_pin := "1234";
     objects :=
       [ placed 1 (with_label "ca" (decode_x509_certificate [x01]));
         placed 2 (sentinel_pair Demo.empty_token).1;
         placed 3 (with_label "ca" (decode_x509_certificate [x02])) ];
     next_handle := 4; sessions := 1 |}.

Lemma delete_certificate_removes_all_witness :
  enters (resting crowded) (probed (resting crowded))
  /\ (delete_certificate "ca" (resting crowded)).1 = Return tt
  /\ objects (token (delete_certificate "ca" (resting crowded)).2)
     = [ placed 2 (sentinel_pair Demo.empty_token).1 ].
Proof.
  split; [apply enters_resting|].
  destruct (delete_certificate_removes_all "ca" _ _ (enters_resting crowded))
    as (Hr & _ & _ & Hexact).
  split; [exact Hr|]. rewrite Hexact; [reflexivity|].
  cbn.
  repeat (apply NoDup_cons_2;
          [intros Hin;
           repeat (apply elem_of_cons in Hin as [Hin | Hin]; [discriminate Hin|]);
           by apply elem_of_nil in Hin |]).
  apply NoDup_nil_2.
Defined.

(** ** Key pairs *)

(** A token that holds an RSA pair of the given length under "k". *)
Definition rsa_token (bits : Z) : Token :=
  {| token_label := "my_test_token_1"; user_pin := "1234";
     objects := rsa_pair bits; next_handle := 3; sessions := 1 |}.


Lemma create_then_public_key_data_witness :
  let w := resting Demo.empty_token in
  let w2 := (create_keypair "k" ED25519 w).2 in
  enters w (probed w)
  /\ KEY_TYPE_VALUES ED25519 = family ED25519
  /\ healthy_session false (acquired w2) = (Return tt, probed w2)
  /\ faultless (probed w2)
  /\ (public_key_data "k" ED25519 w2).1 = (create_keypair "k" ED25519 w).1.
Proof.
  intros w w2.
  assert (healthy_session false (acquired w2) = (Return tt, probed w2)) as Hh
    by (vm_compute; reflexivity).
  assert (faultless (probed w2)) as Hf by (vm_compute; constructor).
  split; [apply enters_resting|]. split; [reflexivity|].
  split; [exact Hh|]. split; [exact Hf|].
  apply (create_then_public_key_data "k" ED25519 w (probed w) (probed w2)
           (enters_resting Demo.empty_token) eq_refl eq_refl);
    [by left | exact Hh | exact Hf].
Defined.

Lemma sentinel_label_is_reserved_witness :
  let w := watchful Demo.empty_token in
  let w1 := (healthy_session false (acquired w)).2 in
  enters w w1
  /\ support_recreate_session (self w) = true
  /\ KEY_TYPE_VALUES RSA2048 = RSA
  /\ (create_keypair SENTINEL RSA2048 w).1 = Raise MultipleObjectsReturned.
Proof.
  intros w w1.
  assert (enters w w1) as Hin.
  { do 3 (split; [reflexivity|]). split; [by vm_compute | vm_compute; constructor]. }
  split; [exact Hin|]. split; [reflexivity|]. split; [reflexivity|].
  destruct (sentinel_label_is_reserved RSA2048 [] [] w w1 Hin eq_refl eq_refl)
    as (_ & Hr & _).
  exact Hr.
Defined.

Lemma verify_returns_the_verdict_witness :
  let w := resting (rsa_token 2048) in
  enters w (probed w)
  /\ (verify "k" [x61] [x62] RSA2048 w).1 = Return true
  /\ (verify "other" [x61] [x62] RSA2048 w).1 = Raise NoSuchKey.
Proof.
  intros w. split; [apply enters_resting|].
  destruct (verify_returns_the_verdict "k" [x61] [x62] RSA2048 w (probed w)
              (enters_resting _)) as [_ Hfound].
  destruct (verify_returns_the_verdict "other" [x61] [x62] RSA2048 w (probed w)
              (enters_resting _)) as [Hmissing _].
  destruct (Hfound _ eq_refl) as (Hplain & _).
  split; [exact (Hplain eq_refl) | exact (proj1 (Hmissing eq_refl))].
Defined.

(** The token with the private key of the pair only. *)
Definition private_only : Token :=
  {| token_label := "my_test_token_1"; user_pin := "1234";
     objects := drop 1 (rsa_pair 2048); next_handle := 3; sessions := 1 |}.

Lemma sign_needs_its_keys_first_witness :
  enters (resting private_only) (probed (resting private_only))
  /\ (sign "other" [x61] false RSA2048 (resting private_only)).1 = Raise NoSuchKey
  /\ (sign "k" [x61] true RSA2048 (resting private_only)).1 = Raise NoSuchKey
  /\ token (sign "k" [x61] true RSA2048 (resting private_only)).2 = private_only.
Proof.
  split; [apply enters_resting|].
  destruct (sign_needs_its_keys_first "other" [x61] RSA2048 _ _
              (enters_resting private_only)) as [Hnone _].
  destruct (sign_needs_its_keys_first "k" [x61] RSA2048 _ _
              (enters_resting private_only)) as [_ Hhalf].
  destruct (Hnone eq_refl false) as (Hr1 & _).
  destruct (Hhalf _ eq_refl eq_refl) as (Hr2 & Ht2 & _).
  split; [exact Hr1|]. split; [exact Hr2 | exact Ht2].
Defined.

Lemma delete_keypair_removes_both_witness :
  let w := resting (rsa_token 2048) in
  enters w (probed w)
  /\ (delete_keypair "k" RSA2048 w).1 = Return tt
  /\ objects (token (delete_keypair "k" RSA2048 w).2) = []
  /\ (delete_keypair "other" RSA2048 w).1 = Raise NoSuchKey
  /\ token (delete_keypair "other" RSA2048 w).2 = rsa_token 2048.
Proof.
  intros w. split; [apply enters_resting|].
  destruct (delete_keypair_removes_both "k" RSA2048 w (probed w)
              (enters_resting _)) as (Hboth & _).
  destruct (delete_keypair_removes_both "other" RSA2048 w (probed w)
              (enters_resting _)) as (_ & _ & Hnone).
  destruct (Hboth _ _ eq_refl eq_refl) as (Hr & Ht & _); [by vm_compute |].
  destruct (Hnone eq_refl eq_refl) as (Hr' & Ht').
  split; [exact Hr|]. split; [by rewrite Ht |]. split; [exact Hr' | exact Ht'].
Defined.

Lemma key_labels_lists_public_keys_witness :
  let w := resting (rsa_token 2048) in
  enters w (probed w)
  /\ exists d, (key_labels w).1 = Return d
               /\ is_Some (d !! "k") /\ token (key_labels w).2 = rsa_token 2048.
Proof.
  intros w. split; [apply enters_resting|].
  destruct (key_labels_lists_public_keys w (probed w) (enters_resting _))
    as (d & Hr & Ht & Hdom & _).
  exists d. split; [exact Hr|]. split; [| exact Ht].
  apply Hdom. eexists. split; [apply list_elem_of_here|].
  split; [reflexivity|]. split; [reflexivity | by left].
Defined.

Lemma key_labels_names_rsa_by_length_witness :
  let w := resting (rsa_token 1024) in
  enters w (probed w)
  /\ exists d, (key_labels w).1 = Return d /\ d !! "k" = Some "rsa_512".
Proof.
  intros w. split; [apply enters_resting|].
  apply (key_labels_names_rsa_by_length
           {| handle := 1; CLASS := PUBLIC_KEY; KEY_TYPE := Some RSA;
              LABEL := "k"; key_length := 1024; EC_PARAMS := [];
              VALUE := [x04; x01] |} w (probed w) (enters_resting _)).
  - apply list_elem_of_here.
  - reflexivity.
  - reflexivity.
  - intros o' Ho' Hc _. cbn in Ho'.
    apply elem_of_cons in Ho' as [-> | Ho']; [reflexivity|].
    apply list_elem_of_singleton in Ho' as ->. discriminate Hc.
  - intros key_type Hk.
    repeat (apply elem_of_cons in Hk as [-> | Hk]; [discriminate|]).
    by apply elem_of_nil in Hk.
Defined.

Lemma key_labels_shows_the_sentinel_witness :
  let w := watchful Demo.empty_token in
  let w1 := (healthy_session false (acquired w)).2 in
  enters w w1
  /\ support_recreate_session (self w) = true
  /\ KEY_TYPE_VALUES RSA2048 = RSA
  /\ exists d name, (key_labels w).1 = Return d /\ d !! SENTINEL = Some name.
Proof.
  intros w w1.
  assert (enters w w1) as Hin.
  { do 3 (split; [reflexivity|]). split; [by vm_compute | vm_compute; constructor]. }
  split; [exact Hin|]. split; [reflexivity|]. split; [reflexivity|].
  exact (key_labels_shows_the_sentinel w w1 Hin eq_refl eq_refl).
Defined.

(** Converters that undo one another: the signature in openssl form is
    the raw one behind a sequence tag. *)
Definition tagging : Externals := {|
  KEY_TYPE_VALUES := family;
  convert_rs_ec_signature := fun sg _ => x30 :: sg;
  convert_asn1_ec_signature := fun sg _ =>
    match sg with
    | x30 :: raw => inr raw
    | _ => inl IndexError
    end;
  sha256 := @sha256 Demo.externals;
  sha384 := @sha384 Demo.externals;
  sha512 := @sha512 Demo.externals;
  armor := @armor Demo.externals;
  detect := @detect Demo.externals;
  unarmor := @unarmor Demo.externals;
  dump := @dump Demo.externals;
  encode_named_curve_parameters := @encode_named_curve_parameters Demo.externals;
  decode_key := @decode_key Demo.externals;
  decode_x509_certificate := @decode_x509_certificate Demo.externals;
  C_GenerateKeyPair := @C_GenerateKeyPair Demo.externals;
  C_Sign := @C_Sign Demo.externals;
  C_Verify := @C_Verify Demo.externals;
  post := @post Demo.externals
|}.

(** A token that holds a P-256 pair under "p". *)
Definition p256_token : Token :=
  token (@create_keypair tagging "p" SECP256r1 (resting Demo.empty_token)).2.

Lemma sign_then_verify_witness :
  let w := resting p256_token in
  let w2 := (@sign tagging "p" [x61] false SECP256r1 w).2 in
  @enters tagging w (probed w)
  /\ @healthy_session tagging false (acquired w2) = (Return tt, probed w2)
  /\ faultless (probed w2)
  /\ exists signature,
       (@sign tagging "p" [x61] false SECP256r1 w).1 = Return signature
       /\ (@verify tagging "p" [x61] signature SECP256r1 w2).1 = Return true.
Proof.
  intros w w2.
  assert (@enters tagging w (probed w)) as Hin by (repeat split; constructor).
  assert (@healthy_session tagging false (acquired w2) = (Return tt, probed w2))
    as Hh by (vm_compute; reflexivity).
  assert (faultless (probed w2)) as Hf by (vm_compute; constructor).
  split; [exact Hin|]. split; [exact Hh|]. split; [exact Hf|].
  destruct (@sign_then_verify tagging "p" [x61] SECP256r1 w (probed w) (probed w2)
              (new_pair "p" SECP256r1 Demo.empty_token).2
              (new_pair "p" SECP256r1 Demo.empty_token).1 Hin)
    as (signature & Hs & Hv);
    [by vm_compute | done | exact Hh | exact Hf | by vm_compute |].
  exists signature. split; [exact Hs | exact Hv].
Defined.

(** ** The constructor *)

(** Worlds for a first construction: no session yet, the lock in
    whatever state, the environment as given. *)
Definition first_time (env : gmap string string) (t : Token)
    (answers : list Response) : World :=
  {| self := {| lock := true; base_url := None;
                support_recreate_session := false;
                session := None; _session_status := 9 |};
     token := t; script := answers; environ := env; clock := 0;
     deadline := None; trace := [] |}.

Definition remote_env : gmap string string :=
  <["PKCS11_BASE_URL" := "http://ca:8000"]> Demo.env.

Lemma init_remote_wins_witness :
  let w := first_time remote_env Demo.empty_token [] in
  environ w !! "PKCS11_BASE_URL" = Some "http://ca:8000"
  /\ base_url (self (__init__ (Some "http://other") None None None true w).2)
     = Some "http://ca:8000"
  /\ support_recreate_session
       (self (__init__ (Some "http://other") None None None true w).2) = false
  /\ trace (__init__ (Some "http://other") None None None true w).2 = [].
Proof.
  intros w.
  assert (environ w !! "PKCS11_BASE_URL" = Some "http://ca:8000") as Hurl
    by (by vm_compute).
  split; [exact Hurl|].
  destruct (init_remote_wins (Some "http://other") None None None true _ w Hurl)
    as (_ & Hb & Hf & _ & _ & _ & Ht).
  split; [exact Hb|]. split; [exact Hf | exact Ht].
Defined.

Lemma init_opens_a_session_witness :
  let w := first_time Demo.env Demo.empty_token [] in
  environ w !! "PKCS11_BASE_URL" = None
  /\ calm w
  /\ fits None (Some "my_test_token_1") None w
  /\ (__init__ None None (Some "my_test_token_1") None true w).1 = Return tt
  /\ session (self (__init__ None None (Some "my_test_token_1") None true w).2)
     = Some 0%nat
  /\ support_recreate_session
       (self (__init__ None None (Some "my_test_token_1") None true w).2) = true
  /\ map LABEL
       (objects (token (__init__ None None (Some "my_test_token_1") None true
                          w).2)) = [SENTINEL; SENTINEL].
Proof.
  intros w.
  assert (environ w !! "PKCS11_BASE_URL" = None) as Hurl by (by vm_compute).
  assert (calm w) as Hc by (split; [reflexivity | constructor]).
  assert (fits None (Some "my_test_token_1") None w) as Hfits.
  { split; [by vm_compute; eexists |]. split; [reflexivity | by vm_compute]. }
  split; [exact Hurl|]. split; [exact Hc|]. split; [exact Hfits|].
  destruct (init_opens_a_session None None (Some "my_test_token_1") None true
              w Hurl Hc Hfits)
    as (Hse & _ & Hfl & _ & _ & _ & _ & Hmade & _).
  destruct (Hmade eq_refl) as (Hr & Ho).
  split; [exact Hr|]. split; [exact Hse|]. split; [exact Hfl|].
  by rewrite Ho.
Defined.

Lemma init_raises_on_bad_configuration_witness :
  let w := first_time ∅ Demo.empty_token [] in
  environ w !! "PKCS11_BASE_URL" = None
  /\ (__init__ None (Some "lib.so") None None false w).1
     = Raise (KeyError "PKCS11_TOKEN")
  /\ (__init__ None (Some "lib.so") (Some "elsewhere") (Some "1234") false w).1
     = Raise NoSuchToken
  /\ (__init__ None (Some "lib.so") (Some "my_test_token_1") (Some "0000")
        false w).1 = Raise PinIncorrect.
Proof.
  intros w.
  assert (environ w !! "PKCS11_BASE_URL" = None) as Hurl by (by vm_compute).
  assert (calm w) as Hc by (split; [reflexivity | constructor]).
  split; [exact Hurl|].
  destruct (init_raises_on_bad_configuration None (Some "lib.so") None None false
              w Hurl "lib.so" "" "") as (_ & Hkey & _).
  destruct (init_raises_on_bad_configuration None (Some "lib.so")
              (Some "elsewhere") (Some "1234") false
              w Hurl "lib.so" "elsewhere" "1234") as (_ & _ & _ & Htok).
  destruct (init_raises_on_bad_configuration None (Some "lib.so")
              (Some "my_test_token_1") (Some "0000") false
              w Hurl "lib.so" "my_test_token_1" "0000") as (_ & _ & _ & Hpin).
  split; [by rewrite (Hkey eq_refl eq_refl) |].
  destruct (Htok eq_refl eq_refl eq_refl Hc) as [Hwrong _].
  destruct (Hpin eq_refl eq_refl eq_refl Hc) as [_ Hbad].
  split; [exact (proj1 (Hwrong ltac:(discriminate)))
         | exact (proj1 (Hbad eq_refl ltac:(discriminate)))].
Defined.

Lemma init_swallows_general_error_witness :
  let w := first_time Demo.env Demo.empty_token [ {| latency := 1; fault := true |} ] in
  environ w !! "PKCS11_BASE_URL" = None
  /\ deadline w = None /\ fault (head_response w) = true
  /\ (__init__ None None None None false w).1 = Return tt
  /\ session (self (__init__ None None None None false w).2) = None.
Proof.
  intros w.
  assert (environ w !! "PKCS11_BASE_URL" = None) as Hurl by (by vm_compute).
  split; [exact Hurl|]. split; [reflexivity|]. split; [reflexivity|].
  destruct (init_swallows_general_error None None None None false
              "/usr/lib/softhsm/libsofthsm2.so" "my_test_token_1" "1234" w Hurl)
    as (Hr & Hs & _); [by vm_compute.. |].
  split; [exact Hr | exact Hs].
Defined.

End Further_runs.
